(** * FLICA schedule-detail parser: a shallow embedding and its properties

    The repository holds the same extraction logic twice: the server-side
    parser (parser.ts, over a cheerio tree) and the script returned by
    [getScheduleParserScript] (vanilla JS over the browser DOM).  Both are
    embedded here over one model of the parsed markup tree, so that they can
    be compared function by function.

    Modelling conventions.
    - A JS string is a [string]; each [ascii] stands for one UTF-16 code
      unit in the range 0..255 (Latin-1), which covers every literal and
      every character class the parsers use.
    - A JS number that comes from [indexOf], [parseInt] or a year is a [Z];
      [NaN] is [None] of an [option].  Integers are exact below 2^53.
    - The value of [parseFloat] is kept as the exact decimal value of the
      literal (a reduced fraction); JS rounds it to the nearest double, and
      rounding is a function of that value.
    - [new Date().getFullYear()] is the parameter [currentYear].
    - The input is the parsed tree, the same for both parsers.  A
      selection of several elements is in document order and holds each
      element once, as cheerio and [querySelectorAll] return it.

    Around the parsers, the development also embeds what the server does
    before and after parsing: the session store (session.ts), the reader
    of a copied cURL command (curl-parser.ts), the fetcher with its retry
    loop and interval guard (fetcher.ts), the routes that tie them
    together (index.ts), and the day list the mobile screen builds from a
    parsed schedule (ScheduleScreen.tsx). *)

From Stdlib Require Import String Ascii List ZArith QArith Bool Arith Lia.
From Stdlib Require Import DecimalString.
From Stdlib Require DecimalFacts DecimalPos.
Import ListNotations.

Local Open Scope string_scope.
Local Open Scope list_scope.
Local Open Scope Z_scope.

(* ------------------------------------------------------------------ *)
(** ** JavaScript string primitives *)

Module JS.

(** WhiteSpace and LineTerminator code units below 256: TAB, LF, VT, FF,
    CR, SP and NBSP.  This is the set of [\s] and of [String.prototype.trim]. *)
Definition is_space (c : ascii) : bool :=
  let n := nat_of_ascii c in
  ((9 <=? n) && (n <=? 13) || (n =? 32) || (n =? 160))%nat.

Definition is_line_terminator (c : ascii) : bool :=
  let n := nat_of_ascii c in ((n =? 10) || (n =? 13))%nat.

Definition is_digit (c : ascii) : bool :=
  let n := nat_of_ascii c in ((48 <=? n) && (n <=? 57))%nat.

Definition is_upper (c : ascii) : bool :=
  let n := nat_of_ascii c in ((65 <=? n) && (n <=? 90))%nat.

Definition is_lower (c : ascii) : bool :=
  let n := nat_of_ascii c in ((97 <=? n) && (n <=? 122))%nat.

(** [\w] *)
Definition is_word (c : ascii) : bool :=
  is_upper c || is_lower c || is_digit c || Ascii.eqb c "_".

Fixpoint trimStart (s : string) : string :=
  match s with
  | String c r => if is_space c then trimStart r else s
  | EmptyString => EmptyString
  end.

Fixpoint trimEnd (s : string) : string :=
  match s with
  | String c r =>
      match trimEnd r with
      | EmptyString => if is_space c then EmptyString else String c EmptyString
      | r' => String c r'
      end
  | EmptyString => EmptyString
  end.

(** [s.trim()], and the script's [trim(s)]:
    [(s || '').replace(/^\s+|\s+$/g, '')]. *)
Definition trim (s : string) : string := trimEnd (trimStart s).

(** [s.includes(sub)], [s.indexOf(sub) >= 0] *)
Fixpoint includes (s sub : string) : bool :=
  String.prefix sub s ||
  match s with
  | String _ r => includes r sub
  | EmptyString => false
  end.

(** [s.startsWith(p)]; with a one-character [p] also [s.charAt(0) === p]. *)
Definition startsWith (s p : string) : bool := String.prefix p s.

(** Truthiness of a string: [''] is falsy. *)
Definition truthy (s : string) : bool :=
  match s with EmptyString => false | _ => true end.

(** [toLowerCase] on code units below 256: A-Z and the Latin-1 capitals
    (0xC0..0xDE except the multiplication sign 0xD7) move up by 32. *)
Definition lower_char (c : ascii) : ascii :=
  let n := nat_of_ascii c in
  if ((65 <=? n) && (n <=? 90) ||
      (192 <=? n) && (n <=? 222) && negb (n =? 215))%nat
  then ascii_of_nat (n + 32) else c.

Fixpoint toLowerCase (s : string) : string :=
  match s with
  | String c r => String (lower_char c) (toLowerCase r)
  | EmptyString => EmptyString
  end.

(** [s.substring(n)] *)
Fixpoint substringFrom (n : nat) (s : string) : string :=
  match n, s with
  | O, _ => s
  | S n', String _ r => substringFrom n' r
  | S _, EmptyString => EmptyString
  end.

(** [s.substring(0, n)] *)
Fixpoint substringTo (n : nat) (s : string) : string :=
  match n, s with
  | S n', String c r => String c (substringTo n' r)
  | _, _ => EmptyString
  end.

(** [s.split(sep)] for a one-character separator. *)
Fixpoint split (sep : ascii) (s : string) : list string :=
  match s with
  | EmptyString => [EmptyString]
  | String c r =>
      if Ascii.eqb c sep then EmptyString :: split sep r
      else match split sep r with
           | p :: ps => String c p :: ps
           | [] => [String c EmptyString]
           end
  end.

(** [a[i] || ''] on an array of strings *)
Definition nth_or_empty (l : list string) (i : nat) : string :=
  nth i l EmptyString.

Definition digit_val (c : ascii) : Z := Z.of_nat (nat_of_ascii c - 48).

Fixpoint digits_acc (acc : Z) (s : string) : Z :=
  match s with
  | String c r => if is_digit c then digits_acc (10 * acc + digit_val c) r else acc
  | EmptyString => acc
  end.

(** [parseInt(s, 10)]: leading white space is skipped, one optional sign,
    then the longest run of decimal digits; [None] is [NaN]. *)
Definition parseInt (s : string) : option Z :=
  match trimStart s with
  | String c r =>
      if Ascii.eqb c "-" then
        match r with
        | String d _ => if is_digit d then Some (- digits_acc 0 r) else None
        | EmptyString => None
        end
      else if Ascii.eqb c "+" then
        match r with
        | String d _ => if is_digit d then Some (digits_acc 0 r) else None
        | EmptyString => None
        end
      else if is_digit c then Some (digits_acc 0 (String c r)) else None
  | EmptyString => None
  end.

(** [String(n)] and ['' + n] for an integer [n]. *)
Definition numberToString (n : Z) : string :=
  NilEmpty.string_of_int (Z.to_int n).

(** [s.padStart(2, '0')] *)
Definition padStart2 (s : string) : string :=
  match s with
  | EmptyString => "00"
  | String c EmptyString => String "0" s
  | _ => s
  end.

(** [arr.indexOf(x)] on an array of strings: the first index, or -1. *)
Fixpoint indexOf_from (i : Z) (l : list string) (x : string) : Z :=
  match l with
  | [] => -1
  | y :: r => if String.eqb y x then i else indexOf_from (i + 1) r x
  end.

Definition indexOf (l : list string) (x : string) : Z := indexOf_from 0 l x.

End JS.

(* ------------------------------------------------------------------ *)
(** ** A backtracking matcher for the regular expressions of the parsers

    The patterns are kept as syntax trees and run by one matcher with the
    semantics of ECMAScript's backtracking specification: alternatives and
    quantifiers are tried in priority order against a continuation, a
    greedy quantifier prefers one more iteration, a lazy one prefers to
    stop, and an iteration that consumes nothing is refused. *)

Module Regex.

Inductive regex : Type :=
| Eps                                   (* empty pattern *)
| Lit (c : ascii)                       (* one literal character *)
| LitI (c : ascii)                      (* a literal under the [i] flag *)
| Class (p : ascii -> bool)             (* [\d], [\w], [\s], [.], [[A-Z]] ... *)
| Cat (r1 r2 : regex)
| Alt (r1 r2 : regex)
| Star (greedy : bool) (r : regex)      (* [r*] and [r*?] *)
| Group (i : nat) (r : regex)           (* the i-th capturing group *)
| Bol                                   (* [^] without the [m] flag *)
| Eol (multiline : bool).               (* [$], with or without [m] *)

Definition captures := list (nat * string).

Definition orElse {A} (a b : option A) : option A :=
  match a with Some _ => a | None => b end.

Section Matcher.
Context {R : Type}.

(** A continuation: what to do with the rest of the input. *)
Definition cont : Type := nat -> string -> captures -> option R.

(** The iterations of a quantifier.  [body] matches one iteration; an
    iteration that consumes nothing is refused; [fuel] bounds the number
    of iterations by the length of the input. *)
Fixpoint iterate (body : nat -> string -> captures -> cont -> option R)
    (greedy : bool) (k : cont) (fuel : nat)
    (pos : nat) (s : string) (caps : captures) {struct fuel} : option R :=
  match fuel with
  | O => k pos s caps
  | S fuel' =>
      let again :=
        body pos s caps
          (fun pos' s' caps' =>
             if (String.length s' <? String.length s)%nat
             then iterate body greedy k fuel' pos' s' caps' else None) in
      if greedy then orElse again (k pos s caps)
      else orElse (k pos s caps) again
  end.

(** [run r pos s caps k]: match [r] against the input [s] whose first
    character sits at offset [pos], then hand the rest to [k]. *)
Fixpoint run (r : regex) (pos : nat) (s : string) (caps : captures)
    (k : cont) {struct r} : option R :=
  match r with
  | Eps => k pos s caps
  | Lit c =>
      match s with
      | String d s' => if Ascii.eqb c d then k (S pos) s' caps else None
      | EmptyString => None
      end
  | LitI c =>
      match s with
      | String d s' =>
          if Ascii.eqb (JS.lower_char c) (JS.lower_char d)
          then k (S pos) s' caps else None
      | EmptyString => None
      end
  | Class p =>
      match s with
      | String d s' => if p d then k (S pos) s' caps else None
      | EmptyString => None
      end
  | Cat r1 r2 =>
      run r1 pos s caps (fun pos' s' caps' => run r2 pos' s' caps' k)
  | Alt r1 r2 => orElse (run r1 pos s caps k) (run r2 pos s caps k)
  | Star greedy r1 =>
      iterate (run r1) greedy k (S (String.length s)) pos s caps
  | Group i r1 =>
      run r1 pos s caps
        (fun pos' s' caps' =>
           k pos' s' ((i, JS.substringTo (pos' - pos) s) :: caps'))
  | Bol => match pos with O => k pos s caps | S _ => None end
  | Eol multiline =>
      match s with
      | EmptyString => k pos s caps
      | String d _ =>
          if multiline && JS.is_line_terminator d then k pos s caps else None
      end
  end.

End Matcher.

(** The result of [String.prototype.match] without the [g] flag. *)
Record matched : Type := mkMatched {
  m_index : nat;          (* where the match starts *)
  m_end : nat;            (* where it ends *)
  m_caps : captures
}.

(** Try every start offset from left to right, as [RegExp.prototype.exec]. *)
Fixpoint exec_from (r : regex) (pos : nat) (s : string) : option matched :=
  match run r pos s [] (fun e _ c => Some (mkMatched pos e c)) with
  | Some m => Some m
  | None =>
      match s with
      | String _ s' => exec_from r (S pos) s'
      | EmptyString => None
      end
  end.

Definition exec (r : regex) (s : string) : option matched := exec_from r 0 s.

(** [re.test(s)] *)
Definition test (r : regex) (s : string) : bool :=
  match exec r s with Some _ => true | None => false end.

(** [m[i]] for a group that took part in the match. *)
Fixpoint lookup (i : nat) (c : captures) : string :=
  match c with
  | [] => EmptyString
  | (j, v) :: c' => if Nat.eqb i j then v else lookup i c'
  end.

Definition group (i : nat) (m : matched) : string := lookup i (m_caps m).

(** [s.replace(re, '')] without the [g] flag. *)
Definition remove_first (r : regex) (s : string) : string :=
  match exec r s with
  | Some m => (JS.substringTo (m_index m) s ++ JS.substringFrom (m_end m) s)%string
  | None => s
  end.

(** Pattern builders. *)
Fixpoint lit (s : string) : regex :=
  match s with
  | EmptyString => Eps
  | String c EmptyString => Lit c
  | String c r => Cat (Lit c) (lit r)
  end.

Fixpoint litI (s : string) : regex :=
  match s with
  | EmptyString => Eps
  | String c EmptyString => LitI c
  | String c r => Cat (LitI c) (litI r)
  end.

Fixpoint seq (l : list regex) : regex :=
  match l with
  | [] => Eps
  | [r] => r
  | r :: l' => Cat r (seq l')
  end.

Fixpoint times (n : nat) (r : regex) : regex :=
  match n with
  | O => Eps
  | 1%nat => r
  | S n' => Cat r (times n' r)
  end.

Definition star (r : regex) : regex := Star true r.
Definition plus (r : regex) : regex := Cat r (Star true r).
Definition plusLazy (r : regex) : regex := Cat r (Star false r).
Definition opt (r : regex) : regex := Alt r Eps.

Definition d : regex := Class JS.is_digit.                     (* \d *)
Definition w : regex := Class JS.is_word.                      (* \w *)
Definition s : regex := Class JS.is_space.                     (* \s *)
Definition AZ : regex := Class JS.is_upper.                    (* [A-Z] *)
Definition dot : regex :=                                      (* . *)
  Class (fun c => negb (JS.is_line_terminator c)).

End Regex.

(* ------------------------------------------------------------------ *)
(** ** Numbers read by [parseFloat] *)

Module JSNumber.

(** A non-NaN value of [parseFloat]: the exact decimal value of the
    literal as a reduced fraction, or an infinity. *)
Inductive number : Type :=
| Finite (q : Q)
| Infinite (negative : bool).

Definition zero : number := Finite (0 # 1).

(** The longest prefix of decimal digits, and what follows it. *)
Fixpoint take_digits (s : string) : string * string :=
  match s with
  | String c r =>
      if JS.is_digit c
      then let (ds, rest) := take_digits r in (String c ds, rest)
      else (EmptyString, s)
  | EmptyString => (EmptyString, EmptyString)
  end.

Definition take_sign (s : string) : bool * string :=
  match s with
  | String c r =>
      if Ascii.eqb c "-" then (true, r)
      else if Ascii.eqb c "+" then (false, r)
      else (false, s)
  | EmptyString => (false, s)
  end.

Definition signed (negative : bool) (z : Z) : Z := if negative then - z else z.

(** The exponent part [e[+-]digits], 0 when it is absent or incomplete. *)
Definition exponent (s : string) : Z :=
  match s with
  | String c r =>
      if Ascii.eqb c "e" || Ascii.eqb c "E" then
        let (eneg, r1) := take_sign r in
        let (ed, _) := take_digits r1 in
        match ed with
        | EmptyString => 0
        | _ => signed eneg (JS.digits_acc 0 ed)
        end
      else 0
  | EmptyString => 0
  end.

(** [parseFloat(s)]: the longest prefix of the trimmed text that is a
    decimal literal; [None] is [NaN]. *)
Definition parseFloat (s : string) : option number :=
  let (neg, s1) := take_sign (JS.trimStart s) in
  if String.prefix "Infinity" s1 then Some (Infinite neg) else
  let (ip, s2) := take_digits s1 in
  let (fp, s3) :=
    match s2 with
    | String c r => if Ascii.eqb c "." then take_digits r else (EmptyString, s2)
    | EmptyString => (EmptyString, s2)
    end in
  match (ip ++ fp)%string with
  | EmptyString => None
  | ds =>
      let m := signed neg (JS.digits_acc 0 ds) in
      let e := exponent s3 - Z.of_nat (String.length fp) in
      Some (Finite (Qred (inject_Z m * Qpower (10 # 1) e)))
  end.

End JSNumber.

(* ------------------------------------------------------------------ *)
(** ** The data model (packages/shared/src/types.ts) *)

Record FlightLeg : Type := mkFlightLeg {
  leg_dayOfWeek : string;
  leg_dayOfMonth : option Z;          (* a number; [None] is NaN *)
  leg_isDeadhead : bool;
  leg_positionCode : string;
  leg_flightNumber : string;
  leg_origin : string;
  leg_destination : string;
  leg_departureLocal : string;
  leg_arrivalLocal : string;
  leg_blockTime : string;
  leg_groundTime : string
}.

Record Layover : Type := mkLayover {
  airport : string;
  restTime : string;
  hotelName : string;
  hotelPhone : string;
  dutyEndLocal : string;
  reportLocal : string
}.

Record DutyPeriod : Type := mkDutyPeriod {
  legs : list FlightLeg;
  dp_totalBlock : string;
  dp_totalDeadhead : string;
  dp_totalCredit : string;
  dp_totalDutyFdp : string;
  layover : option Layover            (* [None] is null *)
}.

Record CrewMember : Type := mkCrewMember {
  position : string;
  crew_employeeNumber : string;
  name : string
}.

Record TripTotals : Type := mkTripTotals {
  tot_block : string;
  tot_deadhead : string;
  tot_credit : string;
  tot_dutyFdp : string
}.

Record Trip : Type := mkTrip {
  tripNumber : string;
  dateStr : string;
  date : string;
  frequency : string;
  baseReportTime : string;
  operatingDates : string;
  base : string;
  equipment : string;
  crewComposition : string;
  exceptions : string;
  dutyPeriods : list DutyPeriod;
  tafb : string;
  tripRig : string;
  totals : TripTotals;
  crew : list CrewMember
}.

Record Activity : Type := mkActivity {
  act_type : string;
  act_dateStr : string;
  startDate : string;
  startTime : string;
  endDate : string;
  endTime : string;
  act_credit : string
}.

(** [{ type: 'trip', data } | { type: 'activity', data }] *)
Inductive ScheduleItem : Type :=
| ItemTrip (data : Trip)
| ItemActivity (data : Activity).

Record CalendarDay : Type := mkCalendarDay {
  dayOfWeek : string;
  dayOfMonth : Z;
  activity : string;
  layoverAirport : string;
  isWeekend : bool
}.

Record ScheduleSummary : Type := mkScheduleSummary {
  block : JSNumber.number;
  credit : JSNumber.number;
  ytd : JSNumber.number;
  daysOff : JSNumber.number
}.

Record MonthlySchedule : Type := mkMonthlySchedule {
  month : string;
  year : Z;
  crewMemberName : string;
  employeeNumber : string;
  lastUpdated : string;
  calendar : list CalendarDay;
  items : list ScheduleItem;
  summary : ScheduleSummary
}.

Record HeaderInfo : Type := mkHeaderInfo {
  h_month : string;
  h_monthNumber : Z;
  h_year : Z;
  h_crewMemberName : string;
  h_employeeNumber : string;
  h_lastUpdated : string
}.

(** [MONTH_MAP]; the keys looked up are always three capitals, so no
    inherited property of the object is ever hit. *)
Definition MONTH_MAP : list (string * Z) :=
  [("JAN", 1); ("FEB", 2); ("MAR", 3); ("APR", 4); ("MAY", 5); ("JUN", 6);
   ("JUL", 7); ("AUG", 8); ("SEP", 9); ("OCT", 10); ("NOV", 11); ("DEC", 12)].

Definition MONTH_NAMES : list string :=
  [""; "January"; "February"; "March"; "April"; "May"; "June";
   "July"; "August"; "September"; "October"; "November"; "December"].

(** [MONTH_MAP[key]]; [None] is undefined. *)
Fixpoint month_lookup (m : list (string * Z)) (key : string) : option Z :=
  match m with
  | [] => None
  | (k, v) :: r => if String.eqb k key then Some v else month_lookup r key
  end.

(* ------------------------------------------------------------------ *)
(** ** The markup tree *)

Module Dom.

(** A parsed document: text nodes and elements.  Tag and attribute names
    are lower case, as an HTML parser leaves them; an attribute list holds
    each name once. *)
#[warnings="-register-all"]
Inductive node : Type :=
| Text (data : string)
| Element (tag : string) (attrs : list (string * string)) (children : list node).

Definition childNodes (n : node) : list node :=
  match n with Element _ _ c => c | Text _ => [] end.

Definition isTag (t : string) (n : node) : bool :=
  match n with Element t' _ _ => String.eqb t' t | Text _ => false end.

(** [el.textContent], cheerio's [$(el).text()]: the text of every text
    node below the element, in document order. *)
Fixpoint textContent (n : node) : string :=
  match n with
  | Text s => s
  | Element _ _ kids =>
      (fix go (l : list node) : string :=
         match l with
         | [] => EmptyString
         | k :: r => (textContent k ++ go r)%string
         end) kids
  end.

Fixpoint assoc (l : list (string * string)) (key : string) : option string :=
  match l with
  | [] => None
  | (k, v) :: r => if String.eqb k key then Some v else assoc r key
  end.

(** [el.getAttribute(name)], [$(el).attr(name)]; [None] is null/undefined. *)
Definition getAttribute (name : string) (n : node) : option string :=
  match n with Element _ a _ => assoc a name | Text _ => None end.

Definition attrIs (name value : string) (n : node) : bool :=
  match getAttribute name n with
  | Some v => String.eqb v value
  | None => false
  end.

(** The elements strictly below [n], in document order ([$(n).find('*')],
    [n.querySelectorAll('*')]). *)
Fixpoint descendants (n : node) : list node :=
  match n with
  | Text _ => []
  | Element _ _ kids =>
      (fix go (l : list node) : list node :=
         match l with
         | [] => []
         | k :: r =>
             match k with
             | Text _ => go r
             | Element _ _ _ => k :: descendants k ++ go r
             end
         end) kids
  end.

(** [$(n).find(tag)], [n.querySelectorAll(tag)] *)
Definition find (t : string) (n : node) : list node :=
  filter (isTag t) (descendants n).

(** Child elements with a given tag: [$(n).children(tag)],
    [n.querySelectorAll(':scope > tag')]. *)
Definition children (t : string) (n : node) : list node :=
  filter (isTag t) (childNodes n).

(** Every element of the document with its chain of ancestors, nearest
    first, in document order. *)
Fixpoint located (anc : list node) (n : node) : list (list node * node) :=
  match n with
  | Text _ => []
  | Element _ _ kids =>
      (anc, n) ::
      (fix go (l : list node) : list (list node * node) :=
         match l with
         | [] => []
         | k :: r => located (n :: anc) k ++ go r
         end) kids
  end.

(** Class tokens.  cheerio's [hasClass] and its [.cls] selectors split the
    class attribute at [\s]; the DOM's [classList] and [querySelector]
    split it at ASCII white space.  The properties below that involve
    classes are proved for any such test. *)
Definition is_ascii_space (c : ascii) : bool :=
  let n := nat_of_ascii c in
  ((n =? 9) || (n =? 10) || (n =? 12) || (n =? 13) || (n =? 32))%nat.

Fixpoint tokens (sp : ascii -> bool) (s : string) : list string :=
  match s with
  | EmptyString => []
  | String c r =>
      if sp c then EmptyString :: tokens sp r
      else match tokens sp r with
           | t :: ts => String c t :: ts
           | [] => [String c EmptyString]
           end
  end.

Definition hasClassBy (sp : ascii -> bool) (cls : string) (n : node) : bool :=
  match getAttribute "class" n with
  | Some v => existsb (String.eqb cls) (tokens sp v)
  | None => false
  end.

Definition first {A} (l : list A) : option A := hd_error l.

End Dom.

(* ------------------------------------------------------------------ *)
(** ** The patterns of both parsers

    parser.ts and the injected script use the same regular expressions
    (in the script's template literal each backslash is written twice). *)

Module Patterns.
Import Regex.

(** [/(\w+)\s+Schedule/] *)
Definition reMonth : regex :=
  seq [Group 1 (plus w); plus s; lit "Schedule"].

(** [/Schedule\s+([\w\s,]+?)\s*\((\d+)\)/] *)
Definition reName : regex :=
  seq [lit "Schedule"; plus s;
       Group 1 (plusLazy
                  (Class (fun c => JS.is_word c || JS.is_space c || Ascii.eqb c ",")));
       star s; Lit "("; Group 2 (plus d); Lit ")"].

(** [/Last Updated\s+(.+?)$/m] *)
Definition reUpdated : regex :=
  seq [lit "Last Updated"; plus s; Group 1 (plusLazy dot); Eol true].

(** [/(\d{4})/] *)
Definition reYear : regex := Group 1 (times 4 d).

(** [\d{2}[A-Z]{3}] *)
Definition dateToken : regex := Cat (times 2 d) (times 3 AZ).

(** [/^O\d+\s*:\s*\d{2}[A-Z]{3}/] *)
Definition reTripHeader : regex :=
  seq [Bol; Lit "O"; plus d; star s; Lit ":"; star s; dateToken].

(** [/^(O\d+)\s*:\s*(\d{2}[A-Z]{3})/] *)
Definition reTrip : regex :=
  seq [Bol; Group 1 (Cat (Lit "O") (plus d)); star s; Lit ":"; star s;
       Group 2 dateToken].

(** [/^[A-Z]{2,4}\s*:\s*\d{2}[A-Z]{3}/] *)
Definition reActivityHeader : regex :=
  seq [Bol; AZ; AZ; opt (Cat AZ (opt AZ)); star s; Lit ":"; star s; dateToken].

(** [/^(\w+)\s*:\s*(\d{2}[A-Z]{3})/] *)
Definition reActivity : regex :=
  seq [Bol; Group 1 (plus w); star s; Lit ":"; star s; Group 2 dateToken].

(** [\d{4}L?] *)
Definition localTime : regex := Cat (times 4 d) (opt (Lit "L")).

(** [/BSE REPT:\s*(\d{4}L?)/] *)
Definition reReport : regex :=
  seq [lit "BSE REPT:"; star s; Group 1 localTime].

(** [/Operates:\s*(.+)/] *)
Definition reOperates : regex :=
  seq [lit "Operates:"; star s; Group 1 (plus dot)].

(** [/Base\/Equip:\s*(\w+)\/(\w+)/] *)
Definition reBaseEquip : regex :=
  seq [lit "Base/Equip:"; star s; Group 1 (plus w); Lit "/"; Group 2 (plus w)].

(** [/^EXCEPT ON\s*/i] *)
Definition reExcept : regex := seq [Bol; litI "EXCEPT ON"; star s].

(** [/T\.A\.F\.B\.:\s*(\d+)/] *)
Definition reTafb : regex := seq [lit "T.A.F.B.:"; star s; Group 1 (plus d)].

(** [/TRIP RIG:\s*(\d+)/] *)
Definition reRig : regex := seq [lit "TRIP RIG:"; star s; Group 1 (plus d)].

(** [/^([A-Z]{3})\s+(\d{4})$/] *)
Definition reLayover : regex :=
  seq [Bol; Group 1 (times 3 AZ); plus s; Group 2 (times 4 d); Eol false].

(** [/D-END:\s*(\d{4}L?)/] *)
Definition reDend : regex := seq [lit "D-END:"; star s; Group 1 localTime].

(** [/REPT:\s*(\d{4}L?)/] *)
Definition reRept : regex := seq [lit "REPT:"; star s; Group 1 localTime].

End Patterns.

(** [for (i = 0; i < l.length; i++) a = f(i, l[i], a)] *)
Fixpoint foldi {A B : Type} (f : nat -> B -> A -> A) (i : nat) (l : list B) (a : A) : A :=
  match l with
  | [] => a
  | x :: r => foldi f (S i) r (f i x a)
  end.

(** [a !== b] on numbers: NaN differs from every number, itself included. *)
Definition strictNeq (a b : option Z) : bool :=
  match a, b with
  | Some x, Some y => negb (x =? y)
  | _, _ => true
  end.

(** The variables of [parseDutyPeriods] that its row loop updates. *)
Record DPState : Type := mkDPState {
  st_dutyPeriods : list DutyPeriod;
  st_currentLegs : list FlightLeg;
  st_currentLayover : option Layover;
  st_lastDayOfMonth : option Z;
  st_totalBlock : string;
  st_totalDeadhead : string;
  st_totalCredit : string;
  st_totalDutyFdp : string
}.

(** [currentLegs.length > 0 && dayOfMonth !== lastDayOfMonth && currentLayover] *)
Definition boundary (st : DPState) (dayOfMonth : option Z) : bool :=
  (0 <? length (st_currentLegs st))%nat
  && strictNeq dayOfMonth (st_lastDayOfMonth st)
  && match st_currentLayover st with Some _ => true | None => false end.

(** The state before the first row. *)
Definition dpInit : DPState :=
  mkDPState [] [] None (Some 0) "" "" "" "".

(** "Push the last duty period". *)
Definition dpFinish (st : DPState) : list DutyPeriod :=
  match st_currentLegs st with
  | [] => st_dutyPeriods st
  | _ :: _ =>
      st_dutyPeriods st ++
      [mkDutyPeriod (st_currentLegs st) (st_totalBlock st) (st_totalDeadhead st)
         (st_totalCredit st) (st_totalDutyFdp st) None]
  end.

(* ------------------------------------------------------------------ *)
(** ** The server-side parser (server/src/scraper/parser.ts) *)

Module Server.
Import Dom Patterns.

(** cheerio splits class attributes at [\s]. *)
Definition hasClass : string -> node -> bool := hasClassBy JS.is_space.

(** [$(x).text()] for [x] an element or undefined: the empty selection
    has the empty text. *)
Definition text (x : option node) : string :=
  match x with Some n => textContent n | None => EmptyString end.

(** [$(cells[i]).text().trim()] *)
Definition cellText (cells : list node) (i : nat) : string :=
  JS.trim (text (nth_error cells i)).

(** [m ? m[i] : ''] *)
Definition groupOr (i : nat) (m : option Regex.matched) : string :=
  match m with Some x => Regex.group i x | None => EmptyString end.

Definition elements (doc : node) : list node := map snd (located [] doc).

Section WithClock.
(** [new Date().getFullYear()] *)
Variable currentYear : Z.

Definition parseHeader (doc : node) : HeaderInfo :=
  let h3Text := text (first (filter (isTag "h3") (elements doc))) in
  let monthMatch := Regex.exec reMonth h3Text in
  let monthName := groupOr 1 monthMatch in
  let monthNumber := JS.indexOf MONTH_NAMES monthName in
  let nameMatch := Regex.exec reName h3Text in
  let crewMemberName :=
    match nameMatch with Some m => JS.trim (Regex.group 1 m) | None => "" end in
  let employeeNumber := groupOr 2 nameMatch in
  let updatedMatch := Regex.exec reUpdated h3Text in
  let lastUpdated :=
    match updatedMatch with Some m => JS.trim (Regex.group 1 m) | None => "" end in
  let yearMatch := Regex.exec reYear lastUpdated in
  let year :=
    match yearMatch with
    | Some m =>
        (* the group holds four digits, so parseInt is never NaN here
           (lemma [year_capture_is_number]) *)
        match JS.parseInt (Regex.group 1 m) with Some y => y | None => 0 end
    | None => currentYear
    end in
  mkHeaderInfo monthName monthNumber year crewMemberName employeeNumber lastUpdated.

End WithClock.

(** [table#table2, table[name="table2"]] *)
Definition isTable2 (n : node) : bool :=
  isTag "table" n && (attrIs "id" "table2" n || attrIs "name" "table2" n).

(** [$('table#table2, table[name="table2"]').find('tr')]: the rows below
    any selected table, each once, in document order. *)
Definition table2Rows (doc : node) : list node :=
  map snd
    (filter (fun x => isTag "tr" (snd x) && existsb isTable2 (fst x))
       (located [] doc)).

(** The body of the row callback of [parseCalendar]. *)
Definition calendarRow (row : node) : list CalendarDay :=
  let cells := find "td" row in
  if (length cells <? 4)%nat then [] else
  let dayOfWeek := cellText cells 0 in
  let dayOfMonthStr := cellText cells 1 in
  let activity := cellText cells 2 in
  let layoverAirport := cellText cells 3 in
  if negb (JS.truthy dayOfWeek) || negb (JS.truthy dayOfMonthStr) then [] else
  match JS.parseInt dayOfMonthStr with
  | None => []
  | Some dayOfMonth =>
      let isWeekend :=
        match getAttribute "bgcolor" row with
        | Some v => String.eqb (JS.toLowerCase v) "lightsteelblue"
        | None => false
        end in
      [mkCalendarDay dayOfWeek dayOfMonth activity layoverAirport isWeekend]
  end.

Definition parseCalendar (doc : node) : list CalendarDay :=
  flat_map calendarRow (table2Rows doc).

(** The body of the row callback of [parseSummary].  Every branch of
    the source's [if]/[else if] chain also asks for [!isNaN(value)], so a
    NaN value takes none of them. *)
Definition summaryRow (acc : ScheduleSummary) (row : node) : ScheduleSummary :=
  let cells := find "td" row in
  if (2 <=? length cells)%nat then
    let label := JS.toLowerCase (cellText cells 0) in
    let valueText := cellText cells 1 in
    match JSNumber.parseFloat valueText with
    | Some value =>
        if String.eqb label "block"
        then mkScheduleSummary value (credit acc) (ytd acc) (daysOff acc)
        else if String.eqb label "credit"
        then mkScheduleSummary (block acc) value (ytd acc) (daysOff acc)
        else if String.eqb label "ytd"
        then mkScheduleSummary (block acc) (credit acc) value (daysOff acc)
        else if JS.includes label "days off"
        then mkScheduleSummary (block acc) (credit acc) (ytd acc) value
        else acc
    | None => acc
    end
  else acc.

Definition summaryZero : ScheduleSummary :=
  mkScheduleSummary JSNumber.zero JSNumber.zero JSNumber.zero JSNumber.zero.

Definition parseSummary (doc : node) : ScheduleSummary :=
  fold_left summaryRow (table2Rows doc) summaryZero.

(** The four totals read at offsets +1, +2, +4, +5 from the "Total:" cell. *)
Definition totalsCell (cells : list node) (ci : nat) (cell : node)
    (acc : TripTotals) : TripTotals :=
  if String.eqb (JS.trim (textContent cell)) "Total:" then
    mkTripTotals (cellText cells (ci + 1)) (cellText cells (ci + 2))
                 (cellText cells (ci + 4)) (cellText cells (ci + 5))
  else acc.

(** One flight-leg row with at least ten cells. *)
Definition legOfCells (cells : list node) : FlightLeg :=
  let dayOfWeek := cellText cells 0 in
  let dayOfMonth := JS.parseInt (cellText cells 1) in
  let dhText := cellText cells 2 in
  let positionCode := cellText cells 3 in
  let flightNumber := cellText cells 4 in
  let route := cellText cells 5 in
  let departureLocal := cellText cells 6 in
  let arrivalLocal := cellText cells 7 in
  let blockTime := cellText cells 8 in
  let groundTime := cellText cells 9 in
  let parts := JS.split "-" route in
  mkFlightLeg dayOfWeek dayOfMonth
    (negb (String.eqb dhText "") &&
     negb (String.eqb dhText (String (ascii_of_nat 160) "")))
    positionCode flightNumber
    (JS.nth_or_empty parts 0) (JS.nth_or_empty parts 1)
    departureLocal arrivalLocal blockTime groundTime.

(** The cell callback of the D-END row: hotel name and phone. *)
Definition hotelCell (ci : nat) (cell : node) (lay : Layover) : Layover :=
  let text := JS.trim (textContent cell) in
  if (1 <? ci)%nat && JS.truthy text && negb (JS.includes text "D-END")
     && negb (JS.includes text "T.A.F.B.") then
    if negb (JS.startsWith text "(") && negb (JS.truthy (hotelName lay)) then
      mkLayover (airport lay) (restTime lay) text (hotelPhone lay)
                (dutyEndLocal lay) (reportLocal lay)
    else if JS.startsWith text "(" then
      mkLayover (airport lay) (restTime lay) (hotelName lay) text
                (dutyEndLocal lay) (reportLocal lay)
    else lay
  else lay.

(** The body of the callback of [flightRows.each]. *)
Definition dutyRow (st : DPState) (row : node) : DPState :=
  if hasClass "main" row then st
  else if hasClass "bold" row then
    let cells := find "td" row in
    let t := foldi (totalsCell cells) 0 cells
               (mkTripTotals (st_totalBlock st) (st_totalDeadhead st)
                             (st_totalCredit st) (st_totalDutyFdp st)) in
    mkDPState (st_dutyPeriods st) (st_currentLegs st) (st_currentLayover st)
      (st_lastDayOfMonth st)
      (tot_block t) (tot_deadhead t) (tot_credit t) (tot_dutyFdp t)
  else if hasClass "nowrap" row then
    let cells := find "td" row in
    if (length cells <? 10)%nat then st else
    let leg := legOfCells cells in
    let dayOfMonth := leg_dayOfMonth leg in
    (* Detect new duty period (day changed and there was a layover) *)
    let '(periods, curLegs, curLayover) :=
      if boundary st dayOfMonth then
        (st_dutyPeriods st ++
           [mkDutyPeriod (st_currentLegs st) "" "" "" "" (st_currentLayover st)],
         [], None)
      else (st_dutyPeriods st, st_currentLegs st, st_currentLayover st) in
    let layoverText := cellText cells (length cells - 1) in
    let curLayover' :=
      match Regex.exec reLayover layoverText with
      | Some m => Some (mkLayover (Regex.group 1 m) (Regex.group 2 m) "" "" "" "")
      | None => curLayover
      end in
    mkDPState periods (curLegs ++ [leg]) curLayover' dayOfMonth
      (st_totalBlock st) (st_totalDeadhead st) (st_totalCredit st)
      (st_totalDutyFdp st)
  else
    let rowText := JS.trim (textContent row) in
    match Regex.exec reDend rowText with
    | Some dendMatch =>
        let reptMatch := Regex.exec reRept rowText in
        match st_currentLayover st with
        | Some lay =>
            let lay1 :=
              mkLayover (airport lay) (restTime lay) (hotelName lay)
                (hotelPhone lay) (Regex.group 1 dendMatch) (groupOr 1 reptMatch) in
            let lay2 := foldi hotelCell 0 (find "td" row) lay1 in
            mkDPState (st_dutyPeriods st) (st_currentLegs st) (Some lay2)
              (st_lastDayOfMonth st) (st_totalBlock st) (st_totalDeadhead st)
              (st_totalCredit st) (st_totalDutyFdp st)
        | None => st
        end
    | None => st
    end.

(** The inner flight table: the first nested table with a [tr.main]. *)
Definition flightTable (tripTable : node) : option node :=
  first (filter (fun el => existsb (hasClass "main") (find "tr" el))
           (find "table" tripTable)).

Definition parseDutyPeriods (tripTable : node) : list DutyPeriod :=
  match flightTable tripTable with
  | None => []
  | Some ft => dpFinish (fold_left dutyRow (find "tr" ft) dpInit)
  end.

Definition parseTripTotals (tripTable : node) : TripTotals :=
  let cells :=
    match last (map Some (filter (hasClass "bold") (find "tr" tripTable))) None with
    | Some r => find "td" r
    | None => []
    end in
  foldi (totalsCell cells) 0 cells (mkTripTotals "" "" "" "").

(** The crew table: the first nested table whose [strong] elements' texts,
    put together, include "Crew:". *)
Definition crewTable (tripTable : node) : option node :=
  first (filter (fun el =>
                   JS.includes (String.concat "" (map textContent (find "strong" el)))
                               "Crew:")
           (find "table" tripTable)).

(** The body of [for (let i = 0; i < cells.length - 2; i++)]. *)
Definition crewAt (cells : list node) (i : nat) : list CrewMember :=
  let posText := cellText cells i in
  if String.eqb posText "CA" || String.eqb posText "FO" then
    let empNum := cellText cells (i + 1) in
    let name := cellText cells (i + 2) in
    if JS.truthy empNum && JS.truthy name
    then [mkCrewMember posText empNum name] else []
  else [].

Definition crewRow (row : node) : list CrewMember :=
  let cells := find "td" row in
  flat_map (crewAt cells) (seq 0 (length cells - 2)).

Definition parseCrew (tripTable : node) : list CrewMember :=
  match crewTable tripTable with
  | None => []
  | Some ct => flat_map crewRow (find "tr" ct)
  end.

(** [table.find('> tr, > tbody > tr')] *)
Definition directRows (table : node) : list node :=
  flat_map (fun c => if isTag "tr" c then [c]
                     else if isTag "tbody" c then children "tr" c else [])
           (childNodes table).

(** The callback over the [strong] elements: T.A.F.B. and trip rig. *)
Definition tafbRig (acc : string * string) (el : node) : string * string :=
  let text := JS.trim (textContent el) in
  let tafb := match Regex.exec reTafb text with
              | Some m => Regex.group 1 m | None => fst acc end in
  let tripRig := match Regex.exec reRig text with
                 | Some m => Regex.group 1 m | None => snd acc end in
  (tafb, tripRig).

(** "Build date string". *)
Definition tripDate (year monthNumber : Z) (dateStr : string) : string :=
  let dayNum := JS.substringTo 2 dateStr in
  let monthAbbr := JS.substringFrom 2 dateStr in
  let dateMonthNum :=
    match month_lookup MONTH_MAP monthAbbr with
    | Some v => v
    | None => monthNumber
    end in
  let dateYear := if dateMonthNum <? monthNumber then year + 1 else year in
  (JS.numberToString dateYear ++ "-"
   ++ JS.padStart2 (JS.numberToString dateMonthNum) ++ "-" ++ dayNum)%string.

Definition parseTrip (table : node) (year monthNumber : Z) : option Trip :=
  let rows := directRows table in
  if (length rows <? 2)%nat then None else
  let headerCells := find "td" (nth 0 rows (Text "")) in
  let tripHeaderText := cellText headerCells 0 in
  match Regex.exec reTrip tripHeaderText with
  | None => None
  | Some tripMatch =>
      let tripNumber := Regex.group 1 tripMatch in
      let dateStr := Regex.group 2 tripMatch in
      let frequency := cellText headerCells 1 in
      let baseReportTime := groupOr 1 (Regex.exec reReport (cellText headerCells 2)) in
      let operatingDates := groupOr 1 (Regex.exec reOperates (cellText headerCells 3)) in
      let detailCells := find "td" (nth 1 rows (Text "")) in
      let baseEquipMatch := Regex.exec reBaseEquip (cellText detailCells 0) in
      let base := groupOr 1 baseEquipMatch in
      let equipment := groupOr 2 baseEquipMatch in
      let crewComposition := cellText detailCells 1 in
      let exceptionsText :=
        if (2 <? length detailCells)%nat then cellText detailCells 2 else "" in
      let exceptions := Regex.remove_first reExcept exceptionsText in
      let dutyPeriods := parseDutyPeriods table in
      let '(tafb, tripRig) := fold_left tafbRig (find "strong" table) ("", "") in
      let totals := parseTripTotals table in
      let crew := parseCrew table in
      Some (mkTrip tripNumber dateStr (tripDate year monthNumber dateStr)
              frequency baseReportTime operatingDates base equipment
              crewComposition exceptions dutyPeriods tafb tripRig totals crew)
  end.

(** The row callback of [parseActivity]. *)
Definition activityRow (type : string) (acc : string * string * string * string * string)
    (row : node) : string * string * string * string * string :=
  let cells := find "td" row in
  if (6 <=? length cells)%nat then
    if String.eqb (cellText cells 0) type then
      (cellText cells 1, cellText cells 2, cellText cells 3, cellText cells 4,
       cellText cells 5)
    else acc
  else acc.

Definition parseActivity (table : node) : option Activity :=
  let headerText := JS.trim (text (first (find "font" table))) in
  match Regex.exec reActivity headerText with
  | None => None
  | Some m =>
      let type := Regex.group 1 m in
      let dateStr := Regex.group 2 m in
      let '(startDate, startTime, endDate, endTime, credit) :=
        fold_left (activityRow type) (find "tr" table) ("", "", "", "", "") in
      Some (mkActivity type dateStr startDate startTime endDate endTime credit)
  end.

Definition isTable4 (n : node) : bool :=
  isTag "table" n && attrIs "name" "table4" n.

(** [> tbody > tr > td, > tr > td] below a [table[name="table4"]]. *)
Definition isMainCell (x : list node * node) : bool :=
  isTag "td" (snd x) &&
  match fst x with
  | p1 :: p2 :: rest =>
      isTag "tr" p1 &&
      (isTable4 p2 ||
       (isTag "tbody" p2 && match rest with p3 :: _ => isTable4 p3 | [] => false end))
  | _ => false
  end.

(** "Check if this is a header separator table". *)
Definition isSeparator (table : node) : bool :=
  attrIs "name" "headertable" table || (0 <? length (find "hr" table))%nat.

(** "Check if this is a trip table". *)
Definition isTripTable (table : node) : bool :=
  (0 <? length
     (filter (fun el =>
                let style := match getAttribute "style" el with
                             | Some v => v | None => "" end in
                let text := JS.trim (textContent el) in
                JS.includes style "color: #0000ff" && Regex.test reTripHeader text)
        (find "td" table)))%nat.

(** "Check if this is an activity table". *)
Definition isActivityTable (table : node) : bool :=
  (0 <? length
     (filter (fun el => Regex.test reActivityHeader (JS.trim (textContent el)))
        (find "font" table)))%nat.

(** One turn of the [while] loop over [allTables]. *)
Definition scheduleItem (year monthNumber : Z) (table : node) : list ScheduleItem :=
  if isSeparator table then []
  else if isTripTable table then
    match parseTrip table year monthNumber with
    | Some trip => [ItemTrip trip]
    | None => []
    end
  else if isActivityTable table then
    match parseActivity table with
    | Some activity => [ItemActivity activity]
    | None => []
    end
  else [].

(** The direct child tables of the main cell of table4. *)
Definition allTables (doc : node) : list node :=
  if existsb isTable4 (elements doc) then
    match first (filter isMainCell (located [] doc)) with
    | Some mainCell => children "table" (snd mainCell)
    | None => []
    end
  else [].

Definition parseScheduleItems (doc : node) (year monthNumber : Z) : list ScheduleItem :=
  flat_map (scheduleItem year monthNumber) (allTables doc).

Definition parseScheduleDetail (currentYear : Z) (doc : node) : MonthlySchedule :=
  let header := parseHeader currentYear doc in
  let calendar := parseCalendar doc in
  let items := parseScheduleItems doc (h_year header) (h_monthNumber header) in
  let summary := parseSummary doc in
  mkMonthlySchedule (h_month header) (h_year header) (h_crewMemberName header)
    (h_employeeNumber header) (h_lastUpdated header) calendar items summary.

End Server.

(* ------------------------------------------------------------------ *)
(** ** The injected script (getScheduleParserScript)

    The script reads [x.textContent] of array elements directly; where [x]
    is undefined that throws a TypeError, the [catch] clause posts a
    [parseError] message and no schedule.  A computation that may throw is
    an [option]: [None] is the thrown error.

    The two class selectors of the script (['tr.main'], ['tr.bold']) are
    read here as in a no-quirks document, where they compare class names
    exactly; the module [Script] below has them for either mode. *)

Module WebView.
Import Dom Patterns.

Definition bind {A B : Type} (x : option A) (f : A -> option B) : option B :=
  match x with Some a => f a | None => None end.

Notation "x <- a ;; b" := (bind a (fun x => b))
  (at level 61, a at next level, right associativity).

Fixpoint foldM {A B : Type} (f : A -> B -> option A) (l : list B) (a : A) : option A :=
  match l with
  | [] => Some a
  | x :: r => a' <- f a x ;; foldM f r a'
  end.

(** Run [f] over a list and append what it yields, in order. *)
Fixpoint flatMapM {A B : Type} (f : A -> option (list B)) (l : list A) : option (list B) :=
  match l with
  | [] => Some []
  | x :: r => ys <- f x ;; zs <- flatMapM f r ;; Some (ys ++ zs)
  end.

(** [classList.contains] and [querySelector('tr.cls')] split at ASCII
    white space. *)
Definition hasClass : string -> node -> bool := hasClassBy is_ascii_space.

(** [trim(cells[i].textContent)]: throws when [cells[i]] is undefined. *)
Definition cellText (cells : list node) (i : nat) : option string :=
  option_map (fun c => JS.trim (textContent c)) (nth_error cells i).

(** [trim(cells[i] ? cells[i].textContent : '')] *)
Definition cellTextOr (cells : list node) (i : nat) : string :=
  match nth_error cells i with
  | Some c => JS.trim (textContent c)
  | None => JS.trim ""
  end.

Definition groupOr (i : nat) (m : option Regex.matched) : string :=
  match m with Some x => Regex.group i x | None => EmptyString end.

Definition elements (doc : node) : list node := map snd (located [] doc).

(** [document.querySelector(...)] for a test on single elements. *)
Definition querySelector (p : node -> bool) (doc : node) : option node :=
  first (filter p (elements doc)).

Section WithClock.
Variable currentYear : Z.

Definition parseHeader (doc : node) : HeaderInfo :=
  let h3 := querySelector (isTag "h3") doc in
  let h3Text := match h3 with Some e => textContent e | None => "" end in
  let monthMatch := Regex.exec reMonth h3Text in
  let monthName := groupOr 1 monthMatch in
  let monthNumber := JS.indexOf MONTH_NAMES monthName in
  let nameMatch := Regex.exec reName h3Text in
  let crewMemberName :=
    match nameMatch with Some m => JS.trim (Regex.group 1 m) | None => "" end in
  let employeeNumber := groupOr 2 nameMatch in
  let updatedMatch := Regex.exec reUpdated h3Text in
  let lastUpdated :=
    match updatedMatch with Some m => JS.trim (Regex.group 1 m) | None => "" end in
  let yearMatch := Regex.exec reYear lastUpdated in
  let year :=
    match yearMatch with
    | Some m =>
        match JS.parseInt (Regex.group 1 m) with Some y => y | None => 0 end
    | None => currentYear
    end in
  mkHeaderInfo monthName monthNumber year crewMemberName employeeNumber lastUpdated.

End WithClock.

(** [document.getElementById('table2') ||
     document.querySelector('table[name="table2"]')] *)
Definition table2 (doc : node) : option node :=
  Regex.orElse
    (querySelector (attrIs "id" "table2") doc)
    (querySelector (fun n => isTag "table" n && attrIs "name" "table2" n) doc).

Definition calendarRow (row : node) : option (list CalendarDay) :=
  let cells := find "td" row in
  if (length cells <? 4)%nat then Some [] else
  dayOfWeek <- cellText cells 0 ;;
  dayOfMonthStr <- cellText cells 1 ;;
  activity <- cellText cells 2 ;;
  layoverAirport <- cellText cells 3 ;;
  if negb (JS.truthy dayOfWeek) || negb (JS.truthy dayOfMonthStr) then Some [] else
  match JS.parseInt dayOfMonthStr with
  | None => Some []
  | Some dayOfMonth =>
      let bgColor :=
        JS.toLowerCase (match getAttribute "bgcolor" row with
                        | Some v => v | None => "" end) in
      let isWeekend := String.eqb bgColor "lightsteelblue" in
      Some [mkCalendarDay dayOfWeek dayOfMonth activity layoverAirport isWeekend]
  end.

Definition parseCalendar (doc : node) : option (list CalendarDay) :=
  match table2 doc with
  | None => Some []
  | Some t => flatMapM calendarRow (find "tr" t)
  end.

Definition summaryRow (acc : ScheduleSummary) (row : node) : option ScheduleSummary :=
  let cells := find "td" row in
  if (2 <=? length cells)%nat then
    label0 <- cellText cells 0 ;;
    let label := JS.toLowerCase label0 in
    valueText <- cellText cells 1 ;;
    match JSNumber.parseFloat valueText with
    | Some value =>
        if String.eqb label "block"
        then Some (mkScheduleSummary value (credit acc) (ytd acc) (daysOff acc))
        else if String.eqb label "credit"
        then Some (mkScheduleSummary (block acc) value (ytd acc) (daysOff acc))
        else if String.eqb label "ytd"
        then Some (mkScheduleSummary (block acc) (credit acc) value (daysOff acc))
        else if JS.includes label "days off"
        then Some (mkScheduleSummary (block acc) (credit acc) (ytd acc) value)
        else Some acc
    | None => Some acc
    end
  else Some acc.

Definition summaryZero : ScheduleSummary :=
  mkScheduleSummary JSNumber.zero JSNumber.zero JSNumber.zero JSNumber.zero.

Definition parseSummary (doc : node) : option ScheduleSummary :=
  match table2 doc with
  | None => Some summaryZero
  | Some t => foldM summaryRow (find "tr" t) summaryZero
  end.

Definition totalsCell (cells : list node) (ci : nat) (cell : node)
    (acc : TripTotals) : TripTotals :=
  if String.eqb (JS.trim (textContent cell)) "Total:" then
    mkTripTotals (cellTextOr cells (ci + 1)) (cellTextOr cells (ci + 2))
                 (cellTextOr cells (ci + 4)) (cellTextOr cells (ci + 5))
  else acc.

Definition legOfCells (cells : list node) : option FlightLeg :=
  dayOfWeek <- cellText cells 0 ;;
  dayOfMonthText <- cellText cells 1 ;;
  let dayOfMonth := JS.parseInt dayOfMonthText in
  dhText <- cellText cells 2 ;;
  positionCode <- cellText cells 3 ;;
  flightNumber <- cellText cells 4 ;;
  route <- cellText cells 5 ;;
  departureLocal <- cellText cells 6 ;;
  arrivalLocal <- cellText cells 7 ;;
  blockTime <- cellText cells 8 ;;
  groundTime <- cellText cells 9 ;;
  let routeParts := JS.split "-" route in
  let origin := JS.nth_or_empty routeParts 0 in
  let destination := JS.nth_or_empty routeParts 1 in
  Some (mkFlightLeg dayOfWeek dayOfMonth
          (negb (String.eqb dhText "") &&
           negb (String.eqb dhText (String (ascii_of_nat 160) "")))
          positionCode flightNumber origin destination
          departureLocal arrivalLocal blockTime groundTime).

Definition hotelCell (dci : nat) (cell : node) (lay : Layover) : Layover :=
  let dText := JS.trim (textContent cell) in
  if (1 <? dci)%nat && JS.truthy dText && negb (JS.includes dText "D-END")
     && negb (JS.includes dText "T.A.F.B.") then
    if negb (JS.startsWith dText "(") && negb (JS.truthy (hotelName lay)) then
      mkLayover (airport lay) (restTime lay) dText (hotelPhone lay)
                (dutyEndLocal lay) (reportLocal lay)
    else if JS.startsWith dText "(" then
      mkLayover (airport lay) (restTime lay) (hotelName lay) dText
                (dutyEndLocal lay) (reportLocal lay)
    else lay
  else lay.

(** The body of the loop over [flightRows]. *)
Definition dutyRow (st : DPState) (row : node) : option DPState :=
  if hasClass "main" row then Some st
  else if hasClass "bold" row then
    let bCells := find "td" row in
    let t := foldi (totalsCell bCells) 0 bCells
               (mkTripTotals (st_totalBlock st) (st_totalDeadhead st)
                             (st_totalCredit st) (st_totalDutyFdp st)) in
    Some (mkDPState (st_dutyPeriods st) (st_currentLegs st) (st_currentLayover st)
            (st_lastDayOfMonth st)
            (tot_block t) (tot_deadhead t) (tot_credit t) (tot_dutyFdp t))
  else if hasClass "nowrap" row then
    let cells := find "td" row in
    if (length cells <? 10)%nat then Some st else
    leg <- legOfCells cells ;;
    let dayOfMonth := leg_dayOfMonth leg in
    let '(periods, curLegs, curLayover) :=
      if boundary st dayOfMonth then
        (st_dutyPeriods st ++
           [mkDutyPeriod (st_currentLegs st) "" "" "" "" (st_currentLayover st)],
         [], None)
      else (st_dutyPeriods st, st_currentLegs st, st_currentLayover st) in
    layoverText <- cellText cells (length cells - 1) ;;
    let curLayover' :=
      match Regex.exec reLayover layoverText with
      | Some m => Some (mkLayover (Regex.group 1 m) (Regex.group 2 m) "" "" "" "")
      | None => curLayover
      end in
    Some (mkDPState periods (curLegs ++ [leg]) curLayover' dayOfMonth
            (st_totalBlock st) (st_totalDeadhead st) (st_totalCredit st)
            (st_totalDutyFdp st))
  else
    let rowText := JS.trim (textContent row) in
    match Regex.exec reDend rowText with
    | Some dendMatch =>
        let reptMatch := Regex.exec reRept rowText in
        match st_currentLayover st with
        | Some lay =>
            let lay1 :=
              mkLayover (airport lay) (restTime lay) (hotelName lay)
                (hotelPhone lay) (Regex.group 1 dendMatch) (groupOr 1 reptMatch) in
            let lay2 := foldi hotelCell 0 (find "td" row) lay1 in
            Some (mkDPState (st_dutyPeriods st) (st_currentLegs st) (Some lay2)
                    (st_lastDayOfMonth st) (st_totalBlock st) (st_totalDeadhead st)
                    (st_totalCredit st) (st_totalDutyFdp st))
        | None => Some st
        end
    | None => Some st
    end.

Definition flightTable (tripTable : node) : option node :=
  first (filter (fun el => existsb (hasClass "main") (find "tr" el))
           (find "table" tripTable)).

Definition parseDutyPeriods (tripTable : node) : option (list DutyPeriod) :=
  match flightTable tripTable with
  | None => Some []
  | Some ft => option_map dpFinish (foldM dutyRow (find "tr" ft) dpInit)
  end.

Definition parseTripTotals (tripTable : node) : TripTotals :=
  let boldRows := filter (hasClass "bold") (find "tr" tripTable) in
  match boldRows with
  | [] => mkTripTotals "" "" "" ""
  | _ :: _ =>
      let cells := find "td" (last boldRows (Text "")) in
      foldi (totalsCell cells) 0 cells (mkTripTotals "" "" "" "")
  end.

(** The crew table: the first nested table with a [strong] whose own text
    includes "Crew:". *)
Definition crewTable (tripTable : node) : option node :=
  first (filter (fun el =>
                   existsb (fun st => JS.includes (textContent st) "Crew:")
                           (find "strong" el))
           (find "table" tripTable)).

(** The body of [for (var ci = 0; ci < cells.length - 2; ci++)]. *)
Definition crewAt (cells : list node) (ci : nat) : option (list CrewMember) :=
  posText <- cellText cells ci ;;
  if String.eqb posText "CA" || String.eqb posText "FO" then
    empNum <- cellText cells (ci + 1) ;;
    name <- cellText cells (ci + 2) ;;
    if JS.truthy empNum && JS.truthy name
    then Some [mkCrewMember posText empNum name] else Some []
  else Some [].

Definition crewRow (row : node) : option (list CrewMember) :=
  let cells := find "td" row in
  flatMapM (crewAt cells) (seq 0 (length cells - 2)).

Definition parseCrew (tripTable : node) : option (list CrewMember) :=
  match crewTable tripTable with
  | None => Some []
  | Some ct => flatMapM crewRow (find "tr" ct)
  end.

(** [table.querySelectorAll(':scope > tr, :scope > tbody > tr')] *)
Definition directRows (table : node) : list node :=
  flat_map (fun c => if isTag "tr" c then [c]
                     else if isTag "tbody" c then children "tr" c else [])
           (childNodes table).

Definition tafbRig (acc : string * string) (el : node) : string * string :=
  let sText := JS.trim (textContent el) in
  let tafb := match Regex.exec reTafb sText with
              | Some m => Regex.group 1 m | None => fst acc end in
  let tripRig := match Regex.exec reRig sText with
                 | Some m => Regex.group 1 m | None => snd acc end in
  (tafb, tripRig).

(** [function(n) { return n < 10 ? '0' + n : '' + n; }] *)
Definition pad2 (n : Z) : string :=
  if n <? 10 then ("0" ++ JS.numberToString n)%string else JS.numberToString n.

(** "Build date string". *)
Definition tripDate (year monthNumber : Z) (dateStr : string) : string :=
  let dayNum := JS.substringTo 2 dateStr in
  let monthAbbr := JS.substringFrom 2 dateStr in
  let dateMonthNum :=
    match month_lookup MONTH_MAP monthAbbr with
    | Some v => v
    | None => monthNumber
    end in
  let dateYear := if dateMonthNum <? monthNumber then year + 1 else year in
  (JS.numberToString dateYear ++ "-" ++ pad2 dateMonthNum ++ "-" ++ dayNum)%string.

Definition parseTrip (table : node) (year monthNumber : Z) : option (option Trip) :=
  let rows := directRows table in
  if (length rows <? 2)%nat then Some None else
  row0 <- nth_error rows 0 ;;
  let headerCells := find "td" row0 in
  let tripHeaderText := cellTextOr headerCells 0 in
  match Regex.exec reTrip tripHeaderText with
  | None => Some None
  | Some tripMatch =>
      let tripNumber := Regex.group 1 tripMatch in
      let dateStr := Regex.group 2 tripMatch in
      let frequency := cellTextOr headerCells 1 in
      let baseReportTime := groupOr 1 (Regex.exec reReport (cellTextOr headerCells 2)) in
      let operatingDates := groupOr 1 (Regex.exec reOperates (cellTextOr headerCells 3)) in
      row1 <- nth_error rows 1 ;;
      let detailCells := find "td" row1 in
      let baseEquipMatch := Regex.exec reBaseEquip (cellTextOr detailCells 0) in
      let base := groupOr 1 baseEquipMatch in
      let equipment := groupOr 2 baseEquipMatch in
      let crewComposition := cellTextOr detailCells 1 in
      exceptionsText <-
        (if (2 <? length detailCells)%nat then cellText detailCells 2 else Some "") ;;
      let exceptions := Regex.remove_first reExcept exceptionsText in
      dutyPeriods <- parseDutyPeriods table ;;
      let '(tafb, tripRig) := fold_left tafbRig (find "strong" table) ("", "") in
      let totals := parseTripTotals table in
      crewMembers <- parseCrew table ;;
      Some (Some (mkTrip tripNumber dateStr (tripDate year monthNumber dateStr)
                    frequency baseReportTime operatingDates base equipment
                    crewComposition exceptions dutyPeriods tafb tripRig totals
                    crewMembers))
  end.

Definition activityRow (type : string) (acc : string * string * string * string * string)
    (row : node) : option (string * string * string * string * string) :=
  let cells := find "td" row in
  if (6 <=? length cells)%nat then
    firstCellText <- cellText cells 0 ;;
    if String.eqb firstCellText type then
      startDate <- cellText cells 1 ;;
      startTime <- cellText cells 2 ;;
      endDate <- cellText cells 3 ;;
      endTime <- cellText cells 4 ;;
      credit <- cellText cells 5 ;;
      Some (startDate, startTime, endDate, endTime, credit)
    else Some acc
  else Some acc.

Definition parseActivity (table : node) : option (option Activity) :=
  let fontEl := first (find "font" table) in
  let headerText :=
    match fontEl with Some e => JS.trim (textContent e) | None => "" end in
  match Regex.exec reActivity headerText with
  | None => Some None
  | Some m =>
      let type := Regex.group 1 m in
      let dateStr := Regex.group 2 m in
      r <- foldM (activityRow type) (find "tr" table) ("", "", "", "", "") ;;
      let '(startDate, startTime, endDate, endTime, credit) := r in
      Some (Some (mkActivity type dateStr startDate startTime endDate endTime credit))
  end.

Definition isTable4 (n : node) : bool :=
  isTag "table" n && attrIs "name" "table4" n.

(** [table4.querySelector(':scope > tbody > tr > td') ||
     table4.querySelector(':scope > tr > td')] *)
Definition mainCell (table4 : node) : option node :=
  Regex.orElse
    (first (flat_map (children "td")
              (flat_map (children "tr") (children "tbody" table4))))
    (first (flat_map (children "td") (children "tr" table4))).

Definition isSeparator (tbl : node) : bool :=
  attrIs "name" "headertable" tbl ||
  match first (find "hr" tbl) with Some _ => true | None => false end.

Definition isTripTable (tbl : node) : bool :=
  existsb (fun el =>
             let style := match getAttribute "style" el with
                          | Some v => v | None => "" end in
             let text := JS.trim (textContent el) in
             JS.includes style "color: #0000ff" && Regex.test reTripHeader text)
          (find "td" tbl).

Definition isActivityTable (tbl : node) : bool :=
  existsb (fun el => Regex.test reActivityHeader (JS.trim (textContent el)))
          (find "font" tbl).

Definition scheduleItem (year monthNumber : Z) (tbl : node) : option (list ScheduleItem) :=
  if isSeparator tbl then Some []
  else if isTripTable tbl then
    trip <- parseTrip tbl year monthNumber ;;
    match trip with
    | Some t => Some [ItemTrip t]
    | None => Some []
    end
  else if isActivityTable tbl then
    activity <- parseActivity tbl ;;
    match activity with
    | Some a => Some [ItemActivity a]
    | None => Some []
    end
  else Some [].

Definition allTables (doc : node) : list node :=
  match querySelector isTable4 doc with
  | None => []
  | Some table4 =>
      match mainCell table4 with
      | None => []
      | Some cell => children "table" cell
      end
  end.

Definition parseScheduleItems (doc : node) (year monthNumber : Z)
    : option (list ScheduleItem) :=
  flatMapM (scheduleItem year monthNumber) (allTables doc).

(** The script's [parseScheduleDetail]; [None] is the [parseError] message. *)
Definition parseScheduleDetail (currentYear : Z) (doc : node) : option MonthlySchedule :=
  let header := parseHeader currentYear doc in
  calendar <- parseCalendar doc ;;
  items <- parseScheduleItems doc (h_year header) (h_monthNumber header) ;;
  summary <- parseSummary doc ;;
  Some (mkMonthlySchedule (h_month header) (h_year header) (h_crewMemberName header)
          (h_employeeNumber header) (h_lastUpdated header) calendar items summary).

End WebView.

(* ------------------------------------------------------------------ *)
(** ** The script's class selectors in a document of either mode

    The script names a class in a selector twice: ['tr.main'] picks the
    flight table in [parseDutyPeriods] and ['tr.bold'] the totals row in
    [parseTripTotals].  In a quirks-mode document (a page without a
    doctype) a class selector compares class names ASCII
    case-insensitively; in a no-quirks document it compares them exactly,
    as [classList.contains] does in either mode.  The module [WebView]
    above is the script in a no-quirks document.  Here the mode is a
    parameter, and the functions of the script that depend on it are
    embedded again; everything else is [WebView]'s. *)

Module Script.
Import Dom Patterns.
Import WebView.

(** A-Z to a-z, nothing else. *)
Definition ascii_lower_char (c : ascii) : ascii :=
  let n := nat_of_ascii c in
  if ((65 <=? n) && (n <=? 90))%nat then ascii_of_nat (n + 32) else c.

Fixpoint ascii_lower (s : string) : string :=
  match s with
  | String c r => String (ascii_lower_char c) (ascii_lower r)
  | EmptyString => EmptyString
  end.

Section Mode.
(** [document.compatMode === 'BackCompat'] *)
Variable quirks : bool.

(** How a class selector compares a class name with a token. *)
Definition sameClassName (cls token : string) : bool :=
  if quirks then String.eqb (ascii_lower cls) (ascii_lower token)
  else String.eqb cls token.

(** The class selector [.cls] on an element. *)
Definition matchesClass (cls : string) (n : node) : bool :=
  match getAttribute "class" n with
  | Some v => existsb (sameClassName cls) (tokens is_ascii_space v)
  | None => false
  end.

(** "Find the inner flight table (has tr.main header row)". *)
Definition flightTable (tripTable : node) : option node :=
  first (filter (fun el => existsb (matchesClass "main") (find "tr" el))
           (find "table" tripTable)).

Definition parseDutyPeriods (tripTable : node) : option (list DutyPeriod) :=
  match flightTable tripTable with
  | None => Some []
  | Some ft => option_map dpFinish (foldM dutyRow (find "tr" ft) dpInit)
  end.

Definition parseTripTotals (tripTable : node) : TripTotals :=
  let boldRows := filter (matchesClass "bold") (find "tr" tripTable) in
  match boldRows with
  | [] => mkTripTotals "" "" "" ""
  | _ :: _ =>
      let cells := find "td" (last boldRows (Text "")) in
      foldi (totalsCell cells) 0 cells (mkTripTotals "" "" "" "")
  end.

Definition parseTrip (table : node) (year monthNumber : Z) : option (option Trip) :=
  let rows := directRows table in
  if (length rows <? 2)%nat then Some None else
  row0 <- nth_error rows 0 ;;
  let headerCells := find "td" row0 in
  let tripHeaderText := cellTextOr headerCells 0 in
  match Regex.exec reTrip tripHeaderText with
  | None => Some None
  | Some tripMatch =>
      let tripNumber := Regex.group 1 tripMatch in
      let dateStr := Regex.group 2 tripMatch in
      let frequency := cellTextOr headerCells 1 in
      let baseReportTime := groupOr 1 (Regex.exec reReport (cellTextOr headerCells 2)) in
      let operatingDates := groupOr 1 (Regex.exec reOperates (cellTextOr headerCells 3)) in
      row1 <- nth_error rows 1 ;;
      let detailCells := find "td" row1 in
      let baseEquipMatch := Regex.exec reBaseEquip (cellTextOr detailCells 0) in
      let base := groupOr 1 baseEquipMatch in
      let equipment := groupOr 2 baseEquipMatch in
      let crewComposition := cellTextOr detailCells 1 in
      exceptionsText <-
        (if (2 <? length detailCells)%nat then cellText detailCells 2 else Some "") ;;
      let exceptions := Regex.remove_first reExcept exceptionsText in
      dutyPeriods <- parseDutyPeriods table ;;
      let '(tafb, tripRig) := fold_left tafbRig (find "strong" table) ("", "") in
      let totals := parseTripTotals table in
      crewMembers <- parseCrew table ;;
      Some (Some (mkTrip tripNumber dateStr (tripDate year monthNumber dateStr)
                    frequency baseReportTime operatingDates base equipment
                    crewComposition exceptions dutyPeriods tafb tripRig totals
                    crewMembers))
  end.

Definition scheduleItem (year monthNumber : Z) (tbl : node) : option (list ScheduleItem) :=
  if isSeparator tbl then Some []
  else if isTripTable tbl then
    trip <- parseTrip tbl year monthNumber ;;
    match trip with
    | Some t => Some [ItemTrip t]
    | None => Some []
    end
  else if isActivityTable tbl then
    activity <- parseActivity tbl ;;
    match activity with
    | Some a => Some [ItemActivity a]
    | None => Some []
    end
  else Some [].

Definition parseScheduleItems (doc : node) (year monthNumber : Z)
    : option (list ScheduleItem) :=
  flatMapM (scheduleItem year monthNumber) (allTables doc).

Definition parseScheduleDetail (currentYear : Z) (doc : node) : option MonthlySchedule :=
  let header := parseHeader currentYear doc in
  calendar <- parseCalendar doc ;;
  items <- parseScheduleItems doc (h_year header) (h_monthNumber header) ;;
  summary <- parseSummary doc ;;
  Some (mkMonthlySchedule (h_month header) (h_year header) (h_crewMemberName header)
          (h_employeeNumber header) (h_lastUpdated header) calendar items summary).

End Mode.
End Script.

(* ------------------------------------------------------------------ *)
(** ** The duty-period state machine, for either way of reading classes

    The two row loops differ only in how a class attribute is split
    ([hasClass]).  [DutyMachine.step] is the loop body with that test as
    a parameter; both loop bodies are instances of it. *)

Module DutyMachine.
Import Dom Patterns.

Section Step.
Variable hasClass : string -> node -> bool.

(** A row that reaches the flight-leg branch and has its ten cells. *)
Definition isLegRow (row : node) : bool :=
  negb (hasClass "main" row) && negb (hasClass "bold" row)
  && hasClass "nowrap" row && (10 <=? length (find "td" row))%nat.

(** A row that reaches the D-END branch and matches [D-END:]. *)
Definition isDendRow (row : node) : bool :=
  negb (hasClass "main" row) && negb (hasClass "bold" row)
  && negb (hasClass "nowrap" row)
  && Regex.test reDend (JS.trim (textContent row)).

Definition step (st : DPState) (row : node) : DPState :=
  if hasClass "main" row then st
  else if hasClass "bold" row then
    let cells := find "td" row in
    let t := foldi (Server.totalsCell cells) 0 cells
               (mkTripTotals (st_totalBlock st) (st_totalDeadhead st)
                             (st_totalCredit st) (st_totalDutyFdp st)) in
    mkDPState (st_dutyPeriods st) (st_currentLegs st) (st_currentLayover st)
      (st_lastDayOfMonth st)
      (tot_block t) (tot_deadhead t) (tot_credit t) (tot_dutyFdp t)
  else if hasClass "nowrap" row then
    let cells := find "td" row in
    if (length cells <? 10)%nat then st else
    let leg := Server.legOfCells cells in
    let dayOfMonth := leg_dayOfMonth leg in
    let '(periods, curLegs, curLayover) :=
      if boundary st dayOfMonth then
        (st_dutyPeriods st ++
           [mkDutyPeriod (st_currentLegs st) "" "" "" "" (st_currentLayover st)],
         [], None)
      else (st_dutyPeriods st, st_currentLegs st, st_currentLayover st) in
    let layoverText := Server.cellText cells (length cells - 1) in
    let curLayover' :=
      match Regex.exec reLayover layoverText with
      | Some m => Some (mkLayover (Regex.group 1 m) (Regex.group 2 m) "" "" "" "")
      | None => curLayover
      end in
    mkDPState periods (curLegs ++ [leg]) curLayover' dayOfMonth
      (st_totalBlock st) (st_totalDeadhead st) (st_totalCredit st)
      (st_totalDutyFdp st)
  else
    let rowText := JS.trim (textContent row) in
    match Regex.exec reDend rowText with
    | Some dendMatch =>
        let reptMatch := Regex.exec reRept rowText in
        match st_currentLayover st with
        | Some lay =>
            let lay1 :=
              mkLayover (airport lay) (restTime lay) (hotelName lay)
                (hotelPhone lay) (Regex.group 1 dendMatch)
                (Server.groupOr 1 reptMatch) in
            let lay2 := foldi Server.hotelCell 0 (find "td" row) lay1 in
            mkDPState (st_dutyPeriods st) (st_currentLegs st) (Some lay2)
              (st_lastDayOfMonth st) (st_totalBlock st) (st_totalDeadhead st)
              (st_totalCredit st) (st_totalDutyFdp st)
        | None => st
        end
    | None => st
    end.

End Step.

End DutyMachine.

(* ------------------------------------------------------------------ *)
(** ** Notions used to state the properties *)

(** Every emitted duty period holds a leg. *)
Definition periods_have_legs (l : list DutyPeriod) : Prop :=
  Forall (fun dp => legs dp <> []) l.

(** No period is emitted before a leg has been read. *)
Definition legs_before_periods (st : DPState) : Prop :=
  st_currentLegs st = [] -> st_dutyPeriods st = [].

(** The text [parseTrip] matches its header pattern against: the trimmed
    text of the first cell of the first direct row. *)
Definition tripHeaderText (table : Dom.node) : string :=
  Server.cellText (Dom.find "td" (nth 0 (Server.directRows table) (Dom.Text ""))) 0.

(** [a !== b] as a proposition: two numbers differ when they are not
    equal, and NaN differs from everything. *)
Definition differs (a b : option Z) : Prop :=
  match a, b with
  | Some x, Some y => x <> y
  | _, _ => True
  end.

(** Small documents for the concrete cases. *)
Module Examples.
Import Dom.

Definition td (s : string) : node := Element "td" [] [Text s].
Definition tr (cells : list node) : node := Element "tr" [] cells.
Definition trc (cls : string) (cells : list node) : node :=
  Element "tr" [("class", cls)] cells.
Definition table (rows : list node) : node :=
  Element "table" [] [Element "tbody" [] rows].
Definition blueTd (s : string) : node :=
  Element "td" [("style", "color: #0000ff")] [Text s].

(** A trip block with its two header rows and nothing else: no flight
    table. *)
Definition tripWithoutFlights : node :=
  table [tr [blueTd "O4031 : 01FEB"; td "EVERY DAY"];
         tr [td "Base/Equip: MCO/321"; td "CA01FO01"]].

(** A trip block whose only row is a well-formed header row. *)
Definition oneRowTrip : node :=
  table [tr [blueTd "O4031 : 01FEB"; td "EVERY DAY"]].

(** A flight-leg row: eleven cells, the last one the layover cell. *)
Definition legRow (dow dom route lay : string) : node :=
  trc "nowrap" [td dow; td dom; td ""; td "*"; td "460"; td route;
                td "0559"; td "0940"; td "0241"; td "0100"; td lay].

(** A trip block with a flight table: two legs on day 1, a layover in
    BOS with its D-END row, one leg on day 2 and the totals row. *)
Definition flightTable : node :=
  table [trc "main" [td "DY"; td "DD"; td "DHC"; td "FLTNO"; td "DPS-ARS"];
         legRow "SU" "01" "MCO-SJU" "";
         legRow "SU" "01" "SJU-BOS" "BOS 1430";
         tr [td ""; td "D-END: 1700L"; td "Hilton Boston"; td "(617) 555-0100";
             td "REPT: 0715L"];
         legRow "MO" "02" "BOS-MCO" "";
         trc "bold" [td "Total:"; td "0900"; td "0000"; td ""; td "1000";
                     td "1200/1100"]].

Definition tripWithFlights : node :=
  table [tr [blueTd "O4031 : 01FEB"; td "EVERY DAY"; td "BSE REPT: 0515L";
             td "Operates: Feb 1-Feb 9"];
         tr [td "Base/Equip: MCO/321"; td "CA01FO01"];
         tr [Element "td" [] [flightTable]]].

(** A trip block with two nested tables that have a [tr.main]: the first
    holds no flight-leg row, the second holds one. *)
Definition tripWithTwoFlightTables : node :=
  table [tr [blueTd "O4031 : 01FEB"; td "EVERY DAY"];
         tr [td "Base/Equip: MCO/321"; td "CA01FO01"];
         tr [Element "td" []
               [table [trc "main" [td "DY"; td "DD"; td "DHC"; td "FLTNO"]]]];
         tr [Element "td" []
               [table [trc "main" [td "DY"; td "DD"; td "DHC"; td "FLTNO"];
                       legRow "SU" "01" "MCO-SJU" ""]]]].

(** A trip block whose flight table writes the class of its header row
    in capitals. *)
Definition upperCaseTrip : node :=
  table [tr [blueTd "O4031 : 01FEB"; td "EVERY DAY"];
         tr [td "Base/Equip: MCO/321"; td "CA01FO01"];
         tr [Element "td" []
               [table [trc "MAIN" [td "DY"; td "DD"; td "DHC"; td "FLTNO"];
                       legRow "SU" "01" "MCO-SJU" ""]]]].

(** A D-END row that carries two phone cells. *)
Definition dendRowTwoPhones : node :=
  tr [td ""; td "D-END: 1700L"; td "Hilton Boston"; td "(617) 555-0100";
      td "(617) 555-0199"; td "REPT: 0715L"].

(** A second D-END row for the same layover, naming another hotel. *)
Definition dendRowOtherHotel : node :=
  tr [td ""; td "D-END: 1700L"; td "Airport Inn"].

(** A crew row with both crew blocks side by side, and one whose
    position cell sits in the last two cells. *)
Definition crewRowBoth : node :=
  tr [td ""; td "CA"; td "67948"; td "Price, Gregory";
      td ""; td "FO"; td "76148"; td "Wendt, Brian"].

(** A sidebar with the block total given twice and an unparseable
    credit. *)
Definition sidebar : node :=
  Element "table" [("name", "table2")]
    [Element "tbody" []
       [tr [td "SU"; td "01"; td "O4031"; td "BOS"];
        tr [td "Block"; td "43.18"];
        tr [td "Credit"; td "n/a"];
        tr [td "Block"; td "44.00"];
        tr [td "Days Off"; td "18"]]].

Definition sidebarPage : node :=
  Element "html" [] [Element "body" [] [sidebar]].

(** A page with neither heading nor tables. *)
Definition emptyPage : node :=
  Element "html" [] [Element "body" [] [Text "Please log in."]].

(** A schedule page in another language: the heading's month word and the
    trip's month letters are not English.

    <html><body>
    <h3>Enero Schedule Brian Wendt (76148)
    Last Updated Jan 12, 2026</h3>
    <table name="table4"><tbody><tr><td>
      <table><tbody>
        <tr><td style="color: #0000ff">O4031 : 01ENE</td><td>EVERY DAY</td></tr>
        <tr><td>Base/Equip: MCO/321</td><td>CA01FO01</td></tr>
      </tbody></table>
    </td></tr></tbody></table>
    </body></html> *)
Definition foreignPage : node :=
  Element "html" []
    [Element "body" []
       [Element "h3" []
          [Text ("Enero Schedule Brian Wendt (76148)"
                 ++ String (ascii_of_nat 10) "Last Updated Jan 12, 2026")];
        Element "table" [("name", "table4")]
          [Element "tbody" []
             [tr [Element "td" []
                    [table [tr [blueTd "O4031 : 01ENE"; td "EVERY DAY"];
                            tr [td "Base/Equip: MCO/321"; td "CA01FO01"]]]]]]]].

(** A page whose calendar is in [table id="table2"] and whose totals are
    in a second table, [table name="table2"]. *)
Definition twoSidebarsPage : node :=
  Element "html" []
    [Element "body" []
       [Element "table" [("id", "table2")]
          [Element "tbody" [] [tr [td "SU"; td "01"; td "O4031"; td "BOS"]]];
        Element "table" [("name", "table2")]
          [Element "tbody" [] [tr [td "Block"; td "43.18"]]]]].

(** A flight-leg row whose deadhead cell holds a lone no-break space. *)
Definition nbspLegRow : node :=
  trc "nowrap" [td "SU"; td "01"; td (String (ascii_of_nat 160) ""); td "*";
                td "460"; td "MCO-SJU"; td "0559"; td "0940"; td "0241";
                td "0100"].

(** An activity block: the header in a [font], a column row and the data
    row. *)
Definition activityTable : node :=
  table [tr [Element "td" [] [Element "font" [] [Text "SIC : 06FEB"]]];
         tr [td "Activity"; td "Start"; td "Time"; td "End"; td "Time"; td "Credit"];
         tr [td "SIC"; td "06FEB"; td "05:15"; td "07FEB"; td "11:02"; td "1039"]].

(** The state after the two legs of day 1: a layover is open. *)
Definition afterDayOne : DPState :=
  fold_left Server.dutyRow
    [legRow "SU" "01" "MCO-SJU" ""; legRow "SU" "01" "SJU-BOS" "BOS 1430"]
    dpInit.

End Examples.

(** The [date] of an item that is a trip. *)
Definition tripDates (l : list ScheduleItem) : list string :=
  flat_map (fun i => match i with
                     | ItemTrip t => [date t]
                     | ItemActivity _ => []
                     end) l.


(** The three conjuncts of the boundary test, as propositions. *)
Definition boundary_condition (st : DPState) (leg : FlightLeg) : Prop :=
  st_currentLegs st <> [] /\
  differs (leg_dayOfMonth leg) (st_lastDayOfMonth st) /\
  st_currentLayover st <> None.

(** The row closed the open duty period (empty totals, the open layover
    attached) and started a new one with its own leg. *)
Definition closes_period (st st' : DPState) (leg : FlightLeg) : Prop :=
  st_dutyPeriods st' =
    st_dutyPeriods st ++
    [mkDutyPeriod (st_currentLegs st) "" "" "" "" (st_currentLayover st)] /\
  st_currentLegs st' = [leg].

(** The row's leg joined the open duty period and nothing was emitted. *)
Definition joins_period (st st' : DPState) (leg : FlightLeg) : Prop :=
  st_dutyPeriods st' = st_dutyPeriods st /\
  st_currentLegs st' = st_currentLegs st ++ [leg].

(** The flight table exists and holds a flight-leg row. *)
Definition hasLegRow (hasClass : string -> Dom.node -> bool)
    (flightTable : option Dom.node) : bool :=
  match flightTable with
  | Some ft => existsb (DutyMachine.isLegRow hasClass) (Dom.find "tr" ft)
  | None => false
  end.

(** The cells a D-END row offers for the hotel fields: the trimmed texts
    of the cells after the first two that are non-empty and contain
    neither "D-END" nor "T.A.F.B.". *)
Definition hotelCandidates (cells : list Dom.node) : list string :=
  filter (fun t => JS.truthy t && negb (JS.includes t "D-END")
                   && negb (JS.includes t "T.A.F.B."))
         (map (fun c => JS.trim (Dom.textContent c)) (skipn 2 cells)).

Definition hotelNames (cells : list Dom.node) : list string :=
  filter (fun t => negb (JS.startsWith t "(")) (hotelCandidates cells).

Definition hotelPhones (cells : list Dom.node) : list string :=
  filter (fun t => JS.startsWith t "(") (hotelCandidates cells).

(** What the hotel scan of a D-END row leaves in the open layover. *)
Definition hotelScanned (cells : list Dom.node) (before after : Layover) : Prop :=
  hotelName after =
    (if JS.truthy (hotelName before) then hotelName before
     else hd "" (hotelNames cells)) /\
  hotelPhone after = last (hotelPhones cells) (hotelPhone before) /\
  airport after = airport before /\ restTime after = restTime before.

(** A sidebar row that supplies a number: its lower-cased label and the
    parsed value, when the row has two cells and the value parses. *)
Definition summaryEntry (row : Dom.node) : option (string * JSNumber.number) :=
  let cells := Dom.find "td" row in
  if (2 <=? length cells)%nat then
    match JSNumber.parseFloat (Server.cellText cells 1) with
    | Some v => Some (JS.toLowerCase (Server.cellText cells 0), v)
    | None => None
    end
  else None.

(** The values of the rows whose label satisfies [p], in document order. *)
Definition valuesFor (p : string -> bool) (rows : list Dom.node) : list JSNumber.number :=
  flat_map (fun row => match summaryEntry row with
                       | Some (l, v) => if p l then [v] else []
                       | None => []
                       end) rows.

Definition isBlockLabel (l : string) : bool := String.eqb l "block".
Definition isCreditLabel (l : string) : bool := String.eqb l "credit".
Definition isYtdLabel (l : string) : bool := String.eqb l "ytd".
Definition isDaysOffLabel (l : string) : bool := JS.includes l "days off".

(** Each total is the last value of its label, or what it was before. *)
Definition lastWins (rows : list Dom.node) (before after : ScheduleSummary) : Prop :=
  block after = last (valuesFor isBlockLabel rows) (block before) /\
  credit after = last (valuesFor isCreditLabel rows) (credit before) /\
  ytd after = last (valuesFor isYtdLabel rows) (ytd before) /\
  daysOff after = last (valuesFor isDaysOffLabel rows) (daysOff before).

(** The rows the script scans: those of the one element it selects. *)
Definition webviewTable2Rows (doc : Dom.node) : list Dom.node :=
  match WebView.table2 doc with
  | Some t => Dom.find "tr" t
  | None => []
  end.

(** The month number a date token resolves to: the entry of [MONTH_MAP]
    for its letters, else the reference month number. *)
Definition resolveMonth (monthNumber : Z) (token : string) : Z :=
  match month_lookup MONTH_MAP (JS.substringFrom 2 token) with
  | Some v => v
  | None => monthNumber
  end.

Definition digitChar (d : Z) : ascii := ascii_of_nat (48 + Z.to_nat d).

(** A number below 100 as two decimal digits, zero-padded. *)
Definition twoDigits (n : Z) : string :=
  String (digitChar (n / 10)) (String (digitChar (n mod 10)) "").

(** The reconstructed date: the year after the reference year when the
    resolved month lies before the reference month, the two-digit month,
    and the first two characters of the token as the day. *)
Definition reconstructed (year monthNumber : Z) (token : string) : string :=
  let m := resolveMonth monthNumber token in
  (JS.numberToString (if (m <? monthNumber)%Z then (year + 1)%Z else year) ++ "-"
   ++ twoDigits m ++ "-" ++ JS.substringTo 2 token)%string.

(** How the item loop treats a content table. *)
Inductive blockKind : Type := Separator | TripBlock | ActivityBlock | Cosmetic.

Definition serverClassify (table : Dom.node) : blockKind :=
  if Server.isSeparator table then Separator
  else if Server.isTripTable table then TripBlock
  else if Server.isActivityTable table then ActivityBlock
  else Cosmetic.

Definition webviewClassify (table : Dom.node) : blockKind :=
  if WebView.isSeparator table then Separator
  else if WebView.isTripTable table then TripBlock
  else if WebView.isActivityTable table then ActivityBlock
  else Cosmetic.

(** No content table classifies as a trip or an activity block. *)
Definition noBlocks (classify : Dom.node -> blockKind) (tables : list Dom.node) : Prop :=
  forall t, In t tables -> classify t <> TripBlock /\ classify t <> ActivityBlock.

(** The document has no heading element. *)
Definition noHeading (doc : Dom.node) : Prop :=
  filter (Dom.isTag "h3") (Server.elements doc) = [].

(** The row sets one of the four totals. *)
Definition summaryHit (row : Dom.node) : bool :=
  match summaryEntry row with
  | Some (l, _) => isBlockLabel l || isCreditLabel l || isYtdLabel l || isDaysOffLabel l
  | None => false
  end.

Definition noSummaryHits (rows : list Dom.node) : Prop :=
  forall row, In row rows -> summaryHit row = false.

(** The four header fields of the record are empty. *)
Definition headerFieldsEmpty (r : MonthlySchedule) : Prop :=
  month r = "" /\ crewMemberName r = "" /\ employeeNumber r = "" /\ lastUpdated r = "".

(* ------------------------------------------------------------------ *)
(** ** What a pattern can match, and what a match captures *)

Module RegexSpec.
Import Regex.

(** [matches r t]: the text [t] is one that [r] can consume (anchors
    consume nothing). *)
Inductive matches : regex -> string -> Prop :=
| M_Eps : matches Eps ""
| M_Lit c : matches (Lit c) (String c "")
| M_LitI c d : JS.lower_char c = JS.lower_char d -> matches (LitI c) (String d "")
| M_Class p c : p c = true -> matches (Class p) (String c "")
| M_Cat r1 r2 a b : matches r1 a -> matches r2 b -> matches (Cat r1 r2) (a ++ b)
| M_AltL r1 r2 a : matches r1 a -> matches (Alt r1 r2) a
| M_AltR r1 r2 a : matches r2 a -> matches (Alt r1 r2) a
| M_StarNil g r : matches (Star g r) ""
| M_StarCons g r a b :
    matches r a -> matches (Star g r) b -> matches (Star g r) (a ++ b)
| M_Group i r a : matches r a -> matches (Group i r) a
| M_Bol : matches Bol ""
| M_Eol m : matches (Eol m) "".

(** Every capture satisfies [P]. *)
Definition caps_ok (P : nat -> string -> Prop) (c : captures) : Prop :=
  Forall (fun e => P (fst e) (snd e)) c.

(** Whatever a group of [r] can match satisfies [P] at the group's index. *)
Fixpoint groups_ok (P : nat -> string -> Prop) (r : regex) : Prop :=
  match r with
  | Cat r1 r2 | Alt r1 r2 => groups_ok P r1 /\ groups_ok P r2
  | Star _ r1 => groups_ok P r1
  | Group i r1 => (forall t, matches r1 t -> P i t) /\ groups_ok P r1
  | _ => True
  end.

(** Group [i] has a capture. *)
Definition has (i : nat) (c : captures) : bool :=
  existsb (fun e => Nat.eqb i (fst e)) c.

(** Every match of [r] goes through group [i]. *)
Fixpoint must_capture (i : nat) (r : regex) : bool :=
  match r with
  | Cat r1 r2 => must_capture i r1 || must_capture i r2
  | Alt r1 r2 => must_capture i r1 && must_capture i r2
  | Group j r1 => Nat.eqb i j || must_capture i r1
  | _ => false
  end.

(** [body] consumes a text that [r] can match, keeps the captures good
    and adds a capture for every group it must go through. *)
Definition sound_at {R : Type} (P : nat -> string -> Prop) (r : regex)
    (body_k : nat -> string -> captures -> cont (R:=R) -> option R) : Prop :=
  forall pos s caps (k : cont (R:=R)) x,
    caps_ok P caps ->
    body_k pos s caps k = Some x ->
    exists pre s' caps',
      s = (pre ++ s')%string /\ matches r pre /\ caps_ok P caps' /\
      (forall i, has i caps || must_capture i r = true -> has i caps' = true) /\
      k (pos + String.length pre)%nat s' caps' = Some x.

(** Two digits followed by three capitals. *)
Definition is_date_token (t : string) : Prop :=
  exists d1 d2 u1 u2 u3,
    t = String d1 (String d2 (String u1 (String u2 (String u3 "")))) /\
    JS.is_digit d1 = true /\ JS.is_digit d2 = true /\
    JS.is_upper u1 = true /\ JS.is_upper u2 = true /\ JS.is_upper u3 = true.

End RegexSpec.

(* ------------------------------------------------------------------ *)
(** ** Notions for further properties of the duty-period loop *)



(** A period closed at a boundary: it carries a layover and no totals. *)
Definition closed_at_boundary (dp : DutyPeriod) : Prop :=
  layover dp <> None /\
  dp_totalBlock dp = "" /\ dp_totalDeadhead dp = "" /\
  dp_totalCredit dp = "" /\ dp_totalDutyFdp dp = "".

(** The shape of an emitted list: every period but the last was closed
    at a boundary, and the last has no layover. *)
Definition periods_shape (l : list DutyPeriod) : Prop :=
  l = [] \/
  exists init final, l = init ++ [final] /\ layover final = None /\
                     Forall closed_at_boundary init.

Definition is_airport (t : string) : Prop :=
  exists a b c, t = String a (String b (String c "")) /\
    JS.is_upper a = true /\ JS.is_upper b = true /\ JS.is_upper c = true.

Definition is_hhmm (t : string) : Prop :=
  exists a b c e, t = String a (String b (String c (String e ""))) /\
    JS.is_digit a = true /\ JS.is_digit b = true /\
    JS.is_digit c = true /\ JS.is_digit e = true.

(** Four digits with an optional "L", or nothing. *)
Definition is_local_time_or_empty (t : string) : Prop :=
  t = "" \/ exists h, is_hhmm h /\ (t = h \/ t = (h ++ "L")%string).

Definition layover_well_formed (lay : Layover) : Prop :=
  is_airport (airport lay) /\ is_hhmm (restTime lay) /\
  is_local_time_or_empty (dutyEndLocal lay) /\
  is_local_time_or_empty (reportLocal lay).

Definition option_layover_well_formed (o : option Layover) : Prop :=
  match o with Some lay => layover_well_formed lay | None => True end.

(** Every layover held by the state is well formed. *)
Definition layovers_ok (st : DPState) : Prop :=
  option_layover_well_formed (st_currentLayover st) /\
  Forall (fun dp => option_layover_well_formed (layover dp)) (st_dutyPeriods st).

(* ------------------------------------------------------------------ *)
(** ** Notions for the header, the calendar and the items *)

(** Every character of [s] satisfies [p]. *)
Fixpoint string_forall (p : ascii -> bool) (s : string) : bool :=
  match s with
  | EmptyString => true
  | String c r => p c && string_forall p r
  end.

(** A non-empty run of characters that satisfy [p]. *)
Definition nonempty_run (p : ascii -> bool) (s : string) : Prop :=
  s <> "" /\ string_forall p s = true.

(** What the header extractor guarantees about its result. *)
Definition header_well_formed (currentYear : Z) (h : HeaderInfo) : Prop :=
  -1 <= h_monthNumber h <= 12 /\
  (h_monthNumber h = 0 <-> h_month h = "") /\
  (0 <= h_monthNumber h ->
   nth (Z.to_nat (h_monthNumber h)) MONTH_NAMES "" = h_month h) /\
  (h_year h = currentYear \/ 0 <= h_year h <= 9999) /\
  string_forall JS.is_word (h_month h) = true /\
  string_forall JS.is_digit (h_employeeNumber h) = true.

(** What a calendar entry says about the row it was read from. *)
Definition calendar_entry_of_row (row : Dom.node) (day : CalendarDay) : Prop :=
  let cells := Dom.find "td" row in
  (4 <= length cells)%nat /\
  dayOfWeek day = Server.cellText cells 0 /\ dayOfWeek day <> "" /\
  JS.parseInt (Server.cellText cells 1) = Some (dayOfMonth day) /\
  activity day = Server.cellText cells 2 /\
  layoverAirport day = Server.cellText cells 3 /\
  (isWeekend day = true <->
   exists v, Dom.getAttribute "bgcolor" row = Some v /\
             JS.toLowerCase v = "lightsteelblue").

(** The text [parseActivity] matches its header pattern against. *)
Definition activityHeaderText (table : Dom.node) : string :=
  JS.trim (Server.text (Dom.first (Dom.find "font" table))).

(** The data rows of an activity table for a type: at least six cells,
    the first one holding the type. *)
Definition isActivityDataRow (type : string) (row : Dom.node) : bool :=
  (6 <=? length (Dom.find "td" row))%nat &&
  String.eqb (Server.cellText (Dom.find "td" row) 0) type.

(** The five fields read from a data row. *)
Definition activityFields (row : Dom.node) : string * string * string * string * string :=
  let cells := Dom.find "td" row in
  (Server.cellText cells 1, Server.cellText cells 2, Server.cellText cells 3,
   Server.cellText cells 4, Server.cellText cells 5).

(** The shape of the fields of an emitted trip that come from patterns. *)
Definition trip_fields_well_formed (t : Trip) : Prop :=
  (exists ds, tripNumber t = String "O" ds /\ nonempty_run JS.is_digit ds) /\
  RegexSpec.is_date_token (dateStr t) /\
  is_local_time_or_empty (baseReportTime t) /\
  string_forall JS.is_digit (tafb t) = true /\
  string_forall JS.is_digit (tripRig t) = true /\
  string_forall JS.is_word (base t) = true /\
  string_forall JS.is_word (equipment t) = true.

(* ------------------------------------------------------------------ *)
(** ** The script's results in terms of the server's *)

(** The duty periods the script computes (its row loop never throws). *)
Definition webviewDutyPeriods (table : Dom.node) : list DutyPeriod :=
  match WebView.flightTable table with
  | None => []
  | Some ft =>
      dpFinish (fold_left (DutyMachine.step WebView.hasClass) (Dom.find "tr" ft) dpInit)
  end.

(** The crew the script computes. *)
Definition webviewCrew (table : Dom.node) : list CrewMember :=
  match WebView.crewTable table with
  | None => []
  | Some ct => flat_map Server.crewRow (Dom.find "tr" ct)
  end.

(** The script's Trip for a table, from the server's: the fields read
    from the header and detail rows are the same; the date, the duty
    periods, the totals and the crew are computed by the script's own
    functions. *)
Definition webviewTripOf (table : Dom.node) (year monthNumber : Z) (t : Trip) : Trip :=
  mkTrip (tripNumber t) (dateStr t)
    (WebView.tripDate year monthNumber (dateStr t))
    (frequency t) (baseReportTime t) (operatingDates t) (base t) (equipment t)
    (crewComposition t) (exceptions t)
    (webviewDutyPeriods table) (tafb t) (tripRig t)
    (WebView.parseTripTotals table) (webviewCrew table).

(* ------------------------------------------------------------------ *)
(** ** Conditions under which the two parsers read a table alike *)

(** The class attribute has no character that [\s] and ASCII white space
    treat differently (vertical tab, no-break space). *)
Definition plain_class (el : Dom.node) : bool :=
  match Dom.getAttribute "class" el with
  | Some v => string_forall (fun c => Bool.eqb (JS.is_space c) (Dom.is_ascii_space c)) v
  | None => true
  end.

(** The server's test for the crew table: the texts of all its [strong]
    elements, put together, include "Crew:". *)
Definition serverCrewTest (el : Dom.node) : bool :=
  JS.includes (String.concat "" (map Dom.textContent (Dom.find "strong" el))) "Crew:".

(** The script's test: one [strong] element's own text includes "Crew:". *)
Definition webviewCrewTest (el : Dom.node) : bool :=
  existsb (fun st => JS.includes (Dom.textContent st) "Crew:") (Dom.find "strong" el).

(** The elements below the table have plain class attributes, and the
    two crew-table tests agree on its nested tables. *)
Definition table_read_alike (table : Dom.node) : Prop :=
  (forall el, In el (Dom.descendants table) -> plain_class el = true) /\
  (forall el, In el (Dom.find "table" table) -> serverCrewTest el = webviewCrewTest el).

(** No class token of the element equals "main" or "bold" only up to
    ASCII case: a class selector for either name then matches the element
    in a quirks-mode document exactly when it does in a no-quirks one. *)
Definition exact_class_names (el : Dom.node) : bool :=
  match Dom.getAttribute "class" el with
  | Some v =>
      forallb (fun t =>
                 Bool.eqb (Script.sameClassName true "main" t) (String.eqb "main" t)
                 && Bool.eqb (Script.sameClassName true "bold" t) (String.eqb "bold" t))
              (Dom.tokens Dom.is_ascii_space v)
  | None => true
  end.

(** The elements below the table have exact class names. *)
Definition class_names_exact (table : Dom.node) : Prop :=
  forall el, In el (Dom.descendants table) -> exact_class_names el = true.

(** The table of the script does not depend on the mode of the
    document: it is a no-quirks document, or the class names are exact. *)
Definition mode_makes_no_difference (quirks : bool) (table : Dom.node) : Prop :=
  quirks = true -> class_names_exact table.

(** The date builders agree: the month number is in the range of
    [indexOf], and if it is -1 the trip's month letters are known. *)
Definition date_read_alike (table : Dom.node) (year monthNumber : Z) : Prop :=
  -1 <= monthNumber <= 12 /\
  (monthNumber = -1 ->
   forall t, Server.parseTrip table year monthNumber = Some t ->
             month_lookup MONTH_MAP (JS.substringFrom 2 (dateStr t)) <> None).

(** Every content table that is a trip block is read alike by the two
    parsers. *)
Definition trip_blocks_read_alike (doc : Dom.node) : Prop :=
  forall t, In t (Server.allTables doc) -> serverClassify t = TripBlock ->
            table_read_alike t.

(** In every content table that is a trip block, the mode of the document
    makes no difference to the script. *)
Definition trip_blocks_mode_free (quirks : bool) (doc : Dom.node) : Prop :=
  forall t, In t (Server.allTables doc) -> serverClassify t = TripBlock ->
            mode_makes_no_difference quirks t.

(** A wholly ordinary page: heading, one sidebar table, the content panel
    with a trip block and an activity block. *)
Definition ordinaryPage : Dom.node :=
  Dom.Element "html" []
    [Dom.Element "body" []
       [Dom.Element "h3" []
          [Dom.Text ("February Schedule Brian Wendt (76148)"
                     ++ String (ascii_of_nat 10) "Last Updated Feb 12, 2026")];
        Examples.sidebar;
        Dom.Element "table" [("name", "table4")]
          [Dom.Element "tbody" []
             [Examples.tr
                [Dom.Element "td" []
                   [Dom.Element "table" [("name", "headertable")] [];
                    Examples.tripWithFlights;
                    Examples.activityTable]]]]]].

(* ------------------------------------------------------------------ *)
(** ** The script's own [trim]

    [function trim(s) { return (s || '').replace(/^\s+|\s+$/g, ''); }]
    The embedding of the script above uses [JS.trim] for it; the two are
    shown equal below. *)

Module ScriptTrim.
Import Regex.

(** [/^\s+|\s+$/g] *)
Definition reTrim : regex :=
  Alt (Cat Bol (plus s)) (Cat (plus s) (Eol false)).

(** [input.replace(re, '')] for a global [re]: from [lastIndex] on, every
    match is cut out; after an empty match the search moves one
    character on.  [pos] is the offset of [rest] in the input, [fuel]
    bounds the number of matches. *)
Fixpoint remove_all (r : regex) (fuel : nat) (pos : nat) (rest : string) : string :=
  match fuel with
  | O => rest
  | S fuel' =>
      match exec_from r pos rest with
      | None => rest
      | Some m =>
          let i := (m_index m - pos)%nat in
          let e := (m_end m - pos)%nat in
          if (e <=? i)%nat then
            match JS.substringFrom i rest with
            | String c rest' =>
                (JS.substringTo i rest
                 ++ String c (remove_all r fuel' (S (m_index m)) rest'))%string
            | EmptyString => rest
            end
          else
            (JS.substringTo i rest
             ++ remove_all r fuel' (m_end m) (JS.substringFrom e rest))%string
      end
  end.

(** [(s || '')] is [s] itself for a string. *)
Definition trim (s : string) : string :=
  remove_all reTrim (S (String.length s)) 0 s.

(** A greedy [\s*] against a continuation, by recursion on the input. *)
Fixpoint star_spec {R : Type} (p : ascii -> bool) (k : cont (R:=R))
    (pos : nat) (t : string) (caps : captures) : option R :=
  match t with
  | String c t' =>
      if p c then orElse (star_spec p k (S pos) t' caps) (k pos t caps)
      else k pos t caps
  | EmptyString => k pos t caps
  end.

End ScriptTrim.

(* ------------------------------------------------------------------ *)
(** ** The session store of the server ([scraper/session.ts]) *)

Module Session.
Import Regex.

(** [[0-9a-fA-F]] *)
Definition is_hex (c : ascii) : bool :=
  let n := nat_of_ascii c in
  ((48 <=? n) && (n <=? 57) || (97 <=? n) && (n <=? 102)
   || (65 <=? n) && (n <=? 70))%nat.

(** [/^[0-9a-fA-F]{32}$/] *)
Definition TOKEN_REGEX : regex :=
  seq [Bol; times 32 (Class is_hex); Eol false].

Record FlicaSession : Type := mkSession {
  token : string;
  cookies : string
}.

(** The module variable [currentSession]; [None] is [null]. *)
Definition state : Type := option FlicaSession.

Definition initial : state := None.

(** A call either throws an [Error], leaving the store as it was, or
    returns the new store.  [inl] carries the message. *)
Definition setSession (session : FlicaSession) (st : state) : string + state :=
  let trimmedToken := JS.trim (token session) in
  if negb (test TOKEN_REGEX trimmedToken) then
    inl ("Invalid FLICA token format. Expected 32 hex characters, got "
         ++ JS.numberToString (Z.of_nat (String.length trimmedToken))
         ++ " chars.")%string
  else
    inr (Some {| token := trimmedToken; cookies := JS.trim (cookies session) |}).

Definition getSession (st : state) : option FlicaSession := st.

Definition clearSession (st : state) : state := None.

Definition hasSession (st : state) : bool :=
  match st with Some _ => true | None => false end.

Definition setToken (t : string) (st : state) : string + state :=
  setSession {| token := t; cookies := "" |} st.

Definition getToken (st : state) : option string :=
  match st with Some s => Some (token s) | None => None end.

End Session.

(* ------------------------------------------------------------------ *)
(** ** Reading a Copy-as-cURL command ([scraper/curl-parser.ts])

    [new URL(x).searchParams.get('token')] is the platform's: it is a
    parameter, [None] when the constructor throws, [Some None] for
    [null]. *)

Module CurlParser.
Import Regex.

Definition TOKEN_REGEX : regex := Session.TOKEN_REGEX.

(** The result has the fields of a [FlicaSession]; the route hands it to
    [setSession] as one. *)
Definition ParsedCredentials : Type := Session.FlicaSession.

Definition dquote : ascii := ascii_of_nat 34.

Definition is_quote (c : ascii) : bool :=
  Ascii.eqb c "'" || Ascii.eqb c dquote.

(** The class of the two quote characters, written [Q] below, and its
    complement [^Q]. *)
Definition quote : regex := Class is_quote.
Definition notQuote : regex := Class (fun c => negb (is_quote c)).

(** [/curl\s+Q(^Q+)Q/] *)
Definition reUrl : regex :=
  seq [lit "curl"; plus s; quote; Group 1 (plus notQuote); quote].

(** [/-H\s+Q[Cc]ookie:\s*(^Q+)Q/] *)
Definition reCookieHeader : regex :=
  seq [lit "-H"; plus s; quote;
       Class (fun c => Ascii.eqb c "C" || Ascii.eqb c "c"); lit "ookie:";
       star s; Group 1 (plus notQuote); quote].

(** [/(?:-b|--cookie)\s+Q(^Q+)Q/] *)
Definition reCookieFlag : regex :=
  seq [Alt (lit "-b") (lit "--cookie"); plus s; quote;
       Group 1 (plus notQuote); quote].

Definition quoted (t : string) : string :=
  (String dquote t ++ String dquote EmptyString)%string.

Definition errNotCurl : string :=
  ("Input must be a " ++ quoted "Copy as cURL"
   ++ " command from DevTools, or a 32-character hex token.")%string.

Definition errNoUrl : string :=
  ("Could not find URL in cURL command. Make sure you used "
   ++ quoted "Copy as cURL" ++ ".")%string.

Definition errNoToken : string :=
  ("Could not find a valid 32-char hex token in the cURL URL. "
   ++ "Make sure you copied the scheduledetail.cgi request.")%string.

Definition errMissing : string :=
  ("Missing " ++ quoted "curlCommand" ++ " or " ++ quoted "token"
   ++ " in request body")%string.

Section WithURL.
Variable urlTokenParam : string -> option (option string).

(** [inl] is a thrown [Error] with its message.  The [console.warn] for
    a command without cookies is not modelled. *)
Definition parseCurlCommand (input : string) : string + ParsedCredentials :=
  let trimmed := JS.trim input in
  if test TOKEN_REGEX trimmed then
    inr {| Session.token := trimmed; Session.cookies := "" |}
  else if negb (JS.startsWith trimmed "curl ") then inl errNotCurl
  else
    match exec reUrl trimmed with
    | None => inl errNoUrl
    | Some urlMatch =>
        match urlTokenParam (group 1 urlMatch) with
        | Some (Some tokenParam) =>
            if negb (JS.truthy tokenParam) || negb (test TOKEN_REGEX tokenParam)
            then inl errNoToken
            else
              let cookies :=
                JS.trim
                  match exec reCookieHeader trimmed with
                  | Some cookieHeaderMatch => group 1 cookieHeaderMatch
                  | None =>
                      match exec reCookieFlag trimmed with
                      | Some cookieBFlagMatch => group 1 cookieBFlagMatch
                      | None => ""
                      end
                  end in
              inr {| Session.token := tokenParam; Session.cookies := cookies |}
        | _ => inl errNoToken
        end
    end.

(** The answer of [POST /api/session] and the store after it.  The body
    fields [curlCommand] and [token] are strings or absent. *)
Inductive response : Type :=
| JsonOk
| Status400 (error : string).

Definition postSession (curlCommand token : option string) (st : Session.state)
  : response * Session.state :=
  let stored (r : string + Session.state) :=
    match r with
    | inr st' => (JsonOk, st')
    | inl message => (Status400 message, st)
    end in
  match curlCommand with
  | Some c =>
      if JS.truthy c then
        match parseCurlCommand c with
        | inr parsed => stored (Session.setSession parsed st)
        | inl message => (Status400 message, st)
        end
      else
        match token with
        | Some t =>
            if JS.truthy t
            then stored (Session.setSession
                           {| Session.token := t; Session.cookies := "" |} st)
            else (Status400 errMissing, st)
        | None => (Status400 errMissing, st)
        end
  | None =>
      match token with
      | Some t =>
          if JS.truthy t
          then stored (Session.setSession
                         {| Session.token := t; Session.cookies := "" |} st)
          else (Status400 errMissing, st)
      | None => (Status400 errMissing, st)
      end
  end.

End WithURL.
End CurlParser.


(** A well-formed session token: 32 hexadecimal digits. *)
Definition is_token (t : string) : bool :=
  (String.length t =? 32)%nat && string_forall Session.is_hex t.

(** What the fetcher relies on: a stored session has a well-formed token
    and cookies without white space around them. *)
Definition session_ok (st : Session.state) : Prop :=
  match st with
  | None => True
  | Some s =>
      is_token (Session.token s) = true /\
      JS.trim (Session.cookies s) = Session.cookies s
  end.

(** The calls that write the store: the exports of [session.ts] and the
    route [POST /api/session]. *)
Inductive sessionCall : Type :=
| CallSetSession (s : Session.FlicaSession)
| CallSetToken (t : string)
| CallClearSession
| CallPostSession (curlCommand token : option string).

(** The store after a call; a call that throws leaves it as it was. *)
Definition perform (urlTokenParam : string -> option (option string))
    (st : Session.state) (c : sessionCall) : Session.state :=
  match c with
  | CallSetSession s =>
      match Session.setSession s st with inr st' => st' | inl _ => st end
  | CallSetToken t =>
      match Session.setToken t st with inr st' => st' | inl _ => st end
  | CallClearSession => Session.clearSession st
  | CallPostSession c t => snd (CurlParser.postSession urlTokenParam c t st)
  end.

(** The first [n] characters of [s] all satisfy [p]: what is left. *)
Fixpoint take_n (p : ascii -> bool) (n : nat) (s : string) : option string :=
  match n with
  | O => Some s
  | S n' =>
      match s with
      | String c r => if p c then take_n p n' r else None
      | EmptyString => None
      end
  end.

(** A toy stand-in for the platform's URL parser, for examples: the text
    after [token=] up to the next [&]. *)
Definition exampleUrlToken (u : string) : option (option string) :=
  match Regex.exec
          (Regex.seq [Regex.lit "token=";
                      Regex.Group 1
                        (Regex.star (Regex.Class (fun c => negb (Ascii.eqb c "&"))))])
          u with
  | Some m => Some (Some (Regex.group 1 m))
  | None => Some None
  end.

Definition exampleCurl : string :=
  "curl 'https://spirit.flica.net/full/scheduledetail.cgi?BlockDate=0226&token=0123456789abcdefABCDEF0123456789' -H 'accept: text/html' -H 'cookie: a=b; c=d ' --compressed".


(* ------------------------------------------------------------------ *)
(** ** The fetcher of the server ([scraper/fetcher.ts])

    [fetchScheduleHtml] is asynchronous and talks to the network.  One
    call is embedded as a function of what the environment gives it: the
    two readings of [Date.now()] and, for each attempt, what
    [await fetch(...)] and [await response.text()] produce.  The delays
    between attempts and the text of the error messages are not modelled;
    a [FetchError] is represented by its [code]. *)

Module Fetcher.

Definition MIN_REQUEST_INTERVAL_MS : Z := 5000.
Definition MAX_UPDATE_RETRIES : nat := 6.

Inductive code : Type :=
| TOKEN_EXPIRED | RATE_LIMITED | BLOCKED | HTTP_ERROR | NETWORK_ERROR.

(** A response: its status, its [location] header ([None] when
    [headers.get] gives [null]) and its body text. *)
Record response : Type := mkResponse {
  status : Z;
  location : option string;
  body : string
}.

(** [response.ok] *)
Definition ok (r : response) : bool := (200 <=? status r) && (status r <=? 299).

(** What an attempt gets: a rejected promise (of [fetch] or of [text]),
    which is an error other than a [FetchError], or a response. *)
Inductive fetched : Type :=
| Rejected
| Resolved (r : response).

(** The module variables. *)
Record state : Type := mkState {
  lastRequestTime : Z;
  requestInFlight : bool
}.

Definition initial : state := {| lastRequestTime := 0; requestInFlight := false |}.

(** The body of the retry loop, for one attempt. *)
Inductive outcome : Type :=
| Throw (c : code)
| Continue
| Return (html : string).

Definition attemptOutcome (attempt : nat) (f : fetched) : outcome :=
  match f with
  | Rejected => Throw NETWORK_ERROR
  | Resolved r =>
      if (300 <=? status r) && (status r <? 400) then
        let location := match location r with Some l => l | None => "" end in
        if JS.includes location "login" || JS.includes location "public"
        then Throw TOKEN_EXPIRED
        else Throw HTTP_ERROR
      else if negb (ok r) then Throw HTTP_ERROR
      else
        let html := body r in
        if JS.includes html "g-recaptcha" || JS.includes html "recaptcha"
           || JS.includes html "CAPTCHA"
        then Throw BLOCKED
        else if JS.includes html "Sign In to FLICA"
                || JS.includes html "login/index.html"
        then Throw TOKEN_EXPIRED
        else if JS.includes html "InitializeSessionData"
                || JS.includes html "Application Error"
        then Throw TOKEN_EXPIRED
        else if JS.includes html "Updating schedule in progress" then
          if (attempt =? MAX_UPDATE_RETRIES)%nat then Throw HTTP_ERROR
          else Continue
        else if JS.includes html "table2"
                || (JS.includes html "Schedule Detail"
                    && JS.includes html "<table"
                    && JS.includes html "maintable")
        then Return html
        else Return html
  end.

(** [for (let attempt = ...; attempt <= MAX_UPDATE_RETRIES; attempt++)],
    with [remaining] iterations to go, and the [throw] after the loop. *)
Fixpoint attempts (network : nat -> fetched) (attempt remaining : nat)
  : code + string :=
  match remaining with
  | O => inl HTTP_ERROR
  | S remaining' =>
      match attemptOutcome attempt (network attempt) with
      | Throw c => inl c
      | Return html => inr html
      | Continue => attempts network (S attempt) remaining'
      end
  end.

(** One call: the result and the module variables when it has settled. *)
Definition fetchScheduleHtml (st : state) (now now' : Z)
    (network : nat -> fetched) : (code + string) * state :=
  if requestInFlight st then (inl RATE_LIMITED, st)
  else
    let elapsed := now - lastRequestTime st in
    if (elapsed <? MIN_REQUEST_INTERVAL_MS) && (0 <? lastRequestTime st)
    then (inl RATE_LIMITED, st)
    else
      (attempts network 0 (S MAX_UPDATE_RETRIES),
       {| lastRequestTime := now'; requestInFlight := false |}).

(** [s.slice(-2)] *)
Definition sliceLast2 (s : string) : string :=
  JS.substringFrom (String.length s - 2) s.

Definition toBlockDate (month year : Z) : string :=
  let mm := JS.padStart2 (JS.numberToString month) in
  let yy := sliceLast2 (JS.numberToString year) in
  (mm ++ yy)%string.

End Fetcher.

(** The markers of the pages that are no schedule. *)
Definition errorMarkers : list string :=
  ["g-recaptcha"; "recaptcha"; "CAPTCHA"; "Sign In to FLICA";
   "login/index.html"; "InitializeSessionData"; "Application Error";
   "Updating schedule in progress"].

(** A response with a 2xx status that says the schedule is being built. *)
Definition updatingPage (f : Fetcher.fetched) : Prop :=
  match f with
  | Fetcher.Resolved r =>
      200 <= Fetcher.status r <= 299 /\
      JS.includes (Fetcher.body r) "Updating schedule in progress" = true
  | Fetcher.Rejected => False
  end.

(** A sequence of calls, one after the other has settled, each with its
    two clock readings and its network; the results in order. *)
Fixpoint fetchAll (st : Fetcher.state)
    (calls : list (Z * Z * (nat -> Fetcher.fetched)))
  : list (Fetcher.code + string) :=
  match calls with
  | [] => []
  | (now, now', network) :: rest =>
      let (r, st') := Fetcher.fetchScheduleHtml st now now' network in
      r :: fetchAll st' rest
  end.

(** The clock is positive and never runs backwards over the calls. *)
Fixpoint clock_ok (t : Z) (calls : list (Z * Z * (nat -> Fetcher.fetched))) : Prop :=
  match calls with
  | [] => True
  | (now, now', _) :: rest => t <= now /\ now <= now' /\ 0 < now' /\ clock_ok now' rest
  end.

(** A call that was let through: anything but [RATE_LIMITED], which only
    the two guards before the first request raise. *)
Definition letThrough (r : Fetcher.code + string) : bool :=
  match r with
  | inl Fetcher.RATE_LIMITED => false
  | _ => true
  end.

(** One decimal digit as a numeral. *)
Definition digitUint (d : Z) : Decimal.uint :=
  match d with
  | 0 => Decimal.D0 Decimal.Nil
  | 1 => Decimal.D1 Decimal.Nil
  | 2 => Decimal.D2 Decimal.Nil
  | 3 => Decimal.D3 Decimal.Nil
  | 4 => Decimal.D4 Decimal.Nil
  | 5 => Decimal.D5 Decimal.Nil
  | 6 => Decimal.D6 Decimal.Nil
  | 7 => Decimal.D7 Decimal.Nil
  | 8 => Decimal.D8 Decimal.Nil
  | _ => Decimal.D9 Decimal.Nil
  end.

Definition digitsString (l : list DecimalFacts.digits) : string :=
  NilEmpty.string_of_uint (DecimalFacts.of_list l).


(** For examples: the first answer says the schedule is being built, the
    next one is the page. *)
Definition examplePageHtml : string := "<table id=table2></table>".

Definition exampleNetwork (attempt : nat) : Fetcher.fetched :=
  match attempt with
  | O => Fetcher.Resolved
           (Fetcher.mkResponse 200 None "Updating schedule in progress")
  | _ => Fetcher.Resolved (Fetcher.mkResponse 200 None examplePageHtml)
  end.

Definition exampleCalls : list (Z * Z * (nat -> Fetcher.fetched)) :=
  [(1000, 1001, exampleNetwork); (3000, 3001, exampleNetwork);
   (7000, 7002, exampleNetwork)].


(* ------------------------------------------------------------------ *)
(** ** The day list of the schedule screen ([ScheduleScreen.tsx]) *)

Module ScheduleScreen.

Inductive viewType : Type := TypeTrip | TypeActivity | TypeOff.

Record DayViewModel : Type := mkDayViewModel {
  v_dayOfMonth : Z;
  v_dayOfWeek : string;
  v_isWeekend : bool;
  v_type : viewType;
  v_activity : string;
  v_layoverAirport : string;
  v_reportTime : string;
  v_item : option ScheduleItem
}.

(** [item.data.dateStr] *)
Definition itemDateStr (item : ScheduleItem) : string :=
  match item with
  | ItemTrip t => dateStr t
  | ItemActivity a => act_dateStr a
  end.

(** A [Map<number, ScheduleItem>] as the list of its [set] calls, the
    latest first; [get] finds the latest value set for the key. *)
Definition itemMap : Type := list (Z * ScheduleItem).

Fixpoint mapGet (k : Z) (m : itemMap) : option ScheduleItem :=
  match m with
  | [] => None
  | (k', v) :: r => if k' =? k then Some v else mapGet k r
  end.

(** The first loop of [buildDayViewModels]. *)
Definition itemsByDay (items : list ScheduleItem) : itemMap :=
  fold_left
    (fun m item =>
       let dayStr := JS.substringTo 2 (itemDateStr item) in
       match JS.parseInt dayStr with
       | Some day => (day, item) :: m
       | None => m
       end)
    items [].

(** The callback of [schedule.calendar.map]; it reads and writes the
    variable [lastTripItem] of the enclosing function. *)
Definition dayView (byDay : itemMap) (lastTripItem : option ScheduleItem)
    (calDay : CalendarDay) : option ScheduleItem * DayViewModel :=
  let matchedItem := mapGet (dayOfMonth calDay) byDay in
  let lastTripItem :=
    match matchedItem with
    | Some (ItemTrip _) => matchedItem
    | _ => lastTripItem
    end in
  let '(type, reportTime, item) :=
    if JS.startsWith (activity calDay) "O" then
      (TypeTrip,
       match matchedItem with
       | Some (ItemTrip t) => baseReportTime t
       | _ => ""
       end,
       matchedItem)
    else if negb (String.eqb (activity calDay) "") then
      (TypeActivity,
       match matchedItem with
       | Some (ItemActivity a) => startTime a
       | _ => ""
       end,
       matchedItem)
    else if negb (String.eqb (layoverAirport calDay) "") then
      (TypeTrip, "", lastTripItem)
    else (TypeOff, "", matchedItem) in
  (lastTripItem,
   mkDayViewModel (dayOfMonth calDay) (dayOfWeek calDay) (isWeekend calDay)
     type (activity calDay) (layoverAirport calDay) reportTime item).

Fixpoint dayViews (byDay : itemMap) (lastTripItem : option ScheduleItem)
    (days : list CalendarDay) : list DayViewModel :=
  match days with
  | [] => []
  | calDay :: rest =>
      let (lastTripItem', view) := dayView byDay lastTripItem calDay in
      view :: dayViews byDay lastTripItem' rest
  end.

Definition buildDayViewModels (schedule : MonthlySchedule) : list DayViewModel :=
  dayViews (itemsByDay (items schedule)) None (calendar schedule).

End ScheduleScreen.

(** The day number an item is filed under, if its date text starts with
    one. *)
Definition itemDay (item : ScheduleItem) : option Z :=
  JS.parseInt (JS.substringTo 2 (ScheduleScreen.itemDateStr item)).

(** The last item of the schedule filed under day [d]. *)
Definition lastItemOfDay (d : Z) (items : list ScheduleItem) : option ScheduleItem :=
  last (map Some (filter (fun it => match itemDay it with
                                    | Some k => k =? d
                                    | None => false
                                    end) items)) None.

Definition isTripItem (o : option ScheduleItem) : bool :=
  match o with Some (ItemTrip _) => true | _ => false end.

(** The trip shown on a day without an activity code but with a layover
    airport: the trip filed under the nearest day, this one included,
    going back in the calendar, that has a trip filed under it. *)
Fixpoint carriedTrip (items : list ScheduleItem) (earlier : list CalendarDay)
  : option ScheduleItem :=
  match earlier with
  | [] => None
  | calDay :: before =>
      if isTripItem (lastItemOfDay (dayOfMonth calDay) items)
      then lastItemOfDay (dayOfMonth calDay) items
      else carriedTrip items before
  end.

(** What the screen shows for the calendar day [calDay] that comes after
    the days [before] (nearest first). *)
Definition expectedView (items : list ScheduleItem) (before : list CalendarDay)
    (calDay : CalendarDay) : ScheduleScreen.DayViewModel :=
  let filed := lastItemOfDay (dayOfMonth calDay) items in
  let mk type reportTime item :=
    ScheduleScreen.mkDayViewModel (dayOfMonth calDay) (dayOfWeek calDay)
      (isWeekend calDay) type (activity calDay) (layoverAirport calDay)
      reportTime item in
  if JS.startsWith (activity calDay) "O" then
    mk ScheduleScreen.TypeTrip
       match filed with Some (ItemTrip t) => baseReportTime t | _ => "" end filed
  else if negb (String.eqb (activity calDay) "") then
    mk ScheduleScreen.TypeActivity
       match filed with Some (ItemActivity a) => startTime a | _ => "" end filed
  else if negb (String.eqb (layoverAirport calDay) "") then
    mk ScheduleScreen.TypeTrip "" (carriedTrip items (calDay :: before))
  else mk ScheduleScreen.TypeOff "" filed.

Fixpoint expectedViews (items : list ScheduleItem) (before days : list CalendarDay)
  : list ScheduleScreen.DayViewModel :=
  match days with
  | [] => []
  | calDay :: rest =>
      expectedView items before calDay :: expectedViews items (calDay :: before) rest
  end.


(* ------------------------------------------------------------------ *)
(** ** Notions for the trip totals *)






(* ------------------------------------------------------------------ *)
(** ** Notions for the selection of the sidebar *)

(** An element either parser could take for the sidebar: one with id
    [table2], or a table named [table2]. *)
Definition isSidebarCandidate (n : Dom.node) : bool :=
  Dom.attrIs "id" "table2" n || (Dom.isTag "table" n && Dom.attrIs "name" "table2" n).


(** The elements at or below [n] that pass [f] and have an ancestor that
    passes [P], in document order; [anc] is the chain of ancestors of
    [n].  This is how a selector with a descendant combinator selects. *)
Definition selected (P f : Dom.node -> bool) (anc : list Dom.node) (n : Dom.node)
  : list Dom.node :=
  map snd (filter (fun x => f (snd x) && existsb P (fst x)) (Dom.located anc n)).


(** The cells a main-cell selector can match below a content panel
    [table4], in document order: the cells of its own rows and the cells
    of the rows of its [tbody] children. *)
Definition mainCellsOf (table4 : Dom.node) : list Dom.node :=
  flat_map
    (fun k =>
       if Dom.isTag "tr" k then Dom.children "td" k
       else if Dom.isTag "tbody" k
            then flat_map (Dom.children "td") (Dom.children "tr" k)
            else [])
    (Dom.childNodes table4).


(** At most one element could be taken for the sidebar, and it is a
    table. *)
Definition at_most_one_sidebar (doc : Dom.node) : Prop :=
  filter isSidebarCandidate (Server.elements doc) = [] \/
  exists e, filter isSidebarCandidate (Server.elements doc) = [e] /\
            Dom.isTag "table" e = true.

(** At most one element is a content panel, and its rows all sit under
    [tbody] children or are all its own children. *)
Definition at_most_one_panel (doc : Dom.node) : Prop :=
  filter Server.isTable4 (Server.elements doc) = [] \/
  exists panel, filter Server.isTable4 (Server.elements doc) = [panel] /\
                (Dom.children "tr" panel = [] \/ Dom.children "tbody" panel = []).


(* ------------------------------------------------------------------ *)
(** ** The live route of the server ([index.ts])

    [GET /api/schedule/live] up to the request it makes: the query
    parameters [month] and [year] are strings or absent ([parseInt] of
    [undefined] is [NaN]); [None] is the answer 400. *)

Module LiveRoute.

Definition queryInt (q : option string) : option Z :=
  match q with
  | Some s => JS.parseInt s
  | None => None
  end.

(** [!n] for a number. *)
Definition falsy (n : option Z) : bool :=
  match n with
  | Some v => v =? 0
  | None => true
  end.

Definition blockDate (monthQ yearQ : option string) : option string :=
  let month := queryInt monthQ in
  let year := queryInt yearQ in
  if falsy month || falsy year then None else
  match month, year with
  | Some m, Some y =>
      if (m <? 1) || (m >? 12) || (y <? 2020) then None
      else Some (Fetcher.toBlockDate m y)
  | _, _ => None
  end.

End LiveRoute.


(* ------------------------------------------------------------------ *)
(** ** The TAFB shown on the trip card ([TripDetail.tsx]) *)

Module TripDetail.

(** A number inside a template literal; [None] is [NaN]. *)
Definition showNumber (n : option Z) : string :=
  match n with
  | Some v => JS.numberToString v
  | None => "NaN"
  end.

Definition formatTafb (tafb : string) : string :=
  if negb (JS.truthy tafb) || (String.length tafb <? 4)%nat then tafb
  else
    let h := JS.parseInt (JS.substringTo (String.length tafb - 2) tafb) in
    let m := JS.substringFrom (String.length tafb - 2) tafb in
    (showNumber h ++ ":" ++ m)%string.

End TripDetail.

(** The value of a string of decimal digits. *)
Definition digitsValue (s : string) : Z := JS.digits_acc 0 s.

(** A trip block whose second row carries the time away from base. *)
Definition tripWithTafb : Dom.node :=
  Examples.table
    [Examples.tr [Examples.blueTd "O4031 : 01FEB"; Examples.td "EVERY DAY"];
     Examples.tr [Examples.td "Base/Equip: MCO/321";
                  Dom.Element "td" []
                    [Dom.Element "strong" [] [Dom.Text "T.A.F.B.: 2430"]]]].


(* ------------------------------------------------------------------ *)
(** ** Notions for the route of a leg *)

(** The number of dashes in a text. *)
Fixpoint dashes (s : string) : nat :=
  match s with
  | EmptyString => O
  | String c r => if Ascii.eqb c "-" then S (dashes r) else dashes r
  end.

Definition no_dash (s : string) : Prop := dashes s = O.

(* ================================================================== *)
(** * Proofs *)

(* ------------------------------------------------------------------ *)
(** ** The matcher only captures what the groups can match *)

Section RegexSound.
Import Regex RegexSpec.
Context {R : Type}.
Variable P : nat -> string -> Prop.

Lemma append_assoc (a b c : string) : ((a ++ b) ++ c = a ++ (b ++ c))%string.
Proof. induction a; cbn; congruence. Qed.

Lemma length_append (a b : string) :
  String.length (a ++ b) = (String.length a + String.length b)%nat.
Proof. induction a; cbn; congruence. Qed.

Lemma substringTo_append (a b : string) :
  JS.substringTo (String.length a) (a ++ b) = a.
Proof. induction a; cbn; [now destruct b|congruence]. Qed.

Lemma iterate_sound r body greedy :
  sound_at P r body ->
  forall fuel pos s caps (k : @cont R) x,
    caps_ok P caps ->
    iterate body greedy k fuel pos s caps = Some x ->
    exists pre s' caps',
      s = (pre ++ s')%string /\ matches (Star greedy r) pre /\ caps_ok P caps' /\
      (forall i, has i caps = true -> has i caps' = true) /\
      k (pos + String.length pre)%nat s' caps' = Some x.
Proof.
  intros Hbody. induction fuel as [|fuel IH]; intros pos s caps k x Hc H.
  - cbn in H. exists ""%string, s, caps. rewrite Nat.add_0_r.
    repeat split; auto. constructor.
  - cbn [iterate] in H.
    assert (Hstop : k pos s caps = Some x ->
      exists pre s' caps',
        s = (pre ++ s')%string /\ matches (Star greedy r) pre /\ caps_ok P caps' /\
        (forall i, has i caps = true -> has i caps' = true) /\
        k (pos + String.length pre)%nat s' caps' = Some x).
    { intros Hk. exists ""%string, s, caps. rewrite Nat.add_0_r.
      repeat split; auto. constructor. }
    set (again := body pos s caps _) in H.
    assert (Hagain : again = Some x ->
      exists pre s' caps',
        s = (pre ++ s')%string /\ matches (Star greedy r) pre /\ caps_ok P caps' /\
        (forall i, has i caps = true -> has i caps' = true) /\
        k (pos + String.length pre)%nat s' caps' = Some x).
    { intros Ha. apply Hbody in Ha; [|exact Hc].
      destruct Ha as (pre1 & s1 & caps1 & -> & Hm1 & Hc1 & Hh1 & Hk1).
      destruct (String.length s1 <? String.length (pre1 ++ s1))%nat; [|discriminate].
      apply IH in Hk1; [|exact Hc1].
      destruct Hk1 as (pre2 & s2 & caps2 & -> & Hm2 & Hc2 & Hh2 & Hk2).
      exists (pre1 ++ pre2)%string, s2, caps2.
      rewrite append_assoc, length_append, Nat.add_assoc.
      repeat split; auto.
      - now constructor.
      - intros i Hi. apply Hh2, Hh1. rewrite Hi. reflexivity. }
    destruct greedy; unfold orElse in H.
    + destruct again; [apply Hagain; exact H|apply Hstop; exact H].
    + destruct (k pos s caps); [apply Hstop; exact H|apply Hagain; exact H].
Qed.

Lemma has_cons i j v c : has i c = true -> has i ((j, v) :: c) = true.
Proof. unfold has. cbn. intros ->. apply orb_true_r. Qed.

Ltac no_group :=
  let i := fresh "i" in let Hi := fresh "Hi" in
  intros i Hi; cbn [must_capture] in Hi; rewrite orb_false_r in Hi; exact Hi.

Lemma run_sound (r : regex) :
  groups_ok P r -> sound_at P r (run (R:=R) r).
Proof.
  induction r as [| c | c | p | r1 IH1 r2 IH2 | r1 IH1 r2 IH2 | g r1 IH1
                 | j r1 IH1 | | m];
    intros Hg pos s caps k x Hc H; cbn [run] in H.
  - exists ""%string, s, caps. rewrite Nat.add_0_r.
    repeat split; auto; [constructor|no_group].
  - destruct s as [|d s']; [discriminate|].
    destruct (Ascii.eqb c d) eqn:E; [|discriminate]. apply Ascii.eqb_eq in E. subst d.
    exists (String c ""), s', caps. rewrite Nat.add_1_r.
    repeat split; auto; [constructor|no_group].
  - destruct s as [|d s']; [discriminate|].
    destruct (Ascii.eqb _ _) eqn:E; [|discriminate]. apply Ascii.eqb_eq in E.
    exists (String d ""), s', caps. rewrite Nat.add_1_r.
    repeat split; auto; [now constructor|no_group].
  - destruct s as [|d s']; [discriminate|].
    destruct (p d) eqn:E; [|discriminate].
    exists (String d ""), s', caps. rewrite Nat.add_1_r.
    repeat split; auto; [now constructor|no_group].
  - destruct Hg as [Hg1 Hg2].
    apply (IH1 Hg1) in H; [|exact Hc].
    destruct H as (pre1 & s1 & caps1 & -> & Hm1 & Hc1 & Hh1 & H).
    apply (IH2 Hg2) in H; [|exact Hc1].
    destruct H as (pre2 & s2 & caps2 & -> & Hm2 & Hc2 & Hh2 & H).
    exists (pre1 ++ pre2)%string, s2, caps2.
    rewrite append_assoc, length_append, Nat.add_assoc.
    repeat split; auto; [now constructor|].
    intros i Hi. cbn [must_capture] in Hi. apply Hh2.
    destruct (must_capture i r2); [apply orb_true_r|]. rewrite orb_false_r.
    apply Hh1. destruct (has i caps); [reflexivity|]. cbn in Hi |- *.
    now rewrite orb_false_r in Hi.
  - destruct Hg as [Hg1 Hg2]. unfold orElse in H.
    destruct (run r1 pos s caps k) eqn:E1.
    + rewrite <- E1 in H. apply (IH1 Hg1) in H; [|exact Hc].
      destruct H as (pre & s' & caps' & -> & Hm & Hc' & Hh & H).
      exists pre, s', caps'. repeat split; auto; [now apply M_AltL|].
      intros i Hi. apply Hh. cbn [must_capture] in Hi.
      destruct (has i caps); [reflexivity|]. cbn in Hi |- *.
      now apply andb_prop in Hi.
    + apply (IH2 Hg2) in H; [|exact Hc].
      destruct H as (pre & s' & caps' & -> & Hm & Hc' & Hh & H).
      exists pre, s', caps'. repeat split; auto; [now apply M_AltR|].
      intros i Hi. apply Hh. cbn [must_capture] in Hi.
      destruct (has i caps); [reflexivity|]. cbn in Hi |- *.
      now apply andb_prop in Hi.
  - apply (iterate_sound r1 (run r1) g (IH1 Hg)) in H; [|exact Hc].
    destruct H as (pre & s' & caps' & -> & Hm & Hc' & Hh & H).
    exists pre, s', caps'. repeat split; auto.
    intros i Hi. apply Hh. cbn [must_capture] in Hi. now rewrite orb_false_r in Hi.
  - destruct Hg as [Hg0 Hg1].
    apply (IH1 Hg1) in H; [|exact Hc].
    destruct H as (pre & s' & caps' & -> & Hm & Hc' & Hh & H).
    replace (pos + String.length pre - pos)%nat with (String.length pre) in H by lia.
    rewrite substringTo_append in H.
    exists pre, s', ((j, pre) :: caps'). repeat split; auto.
    + now constructor.
    + constructor; [cbn; now apply Hg0|exact Hc'].
    + intros i Hi. cbn [must_capture] in Hi. unfold has. cbn [existsb fst].
      destruct (Nat.eqb i j); [reflexivity|]. cbn [orb] in Hi |- *. now apply Hh.
  - destruct pos; [|discriminate].
    exists ""%string, s, caps. repeat split; auto; [constructor|no_group].
  - assert (Hk : k pos s caps = Some x).
    { destruct s as [|d s']; [exact H|].
      destruct (m && JS.is_line_terminator d); [exact H|discriminate]. }
    exists ""%string, s, caps. rewrite Nat.add_0_r.
    repeat split; auto; [constructor|no_group].
Qed.

Lemma lookup_ok (i : nat) (c : captures) :
  caps_ok P c -> has i c = true -> P i (lookup i c).
Proof.
  induction c as [|[j v] c IH]; intros Hc Hh; [discriminate|].
  inversion Hc as [|? ? Hjv Hc']; subst. cbn [lookup].
  unfold has in Hh. cbn [existsb fst] in Hh.
  destruct (Nat.eqb i j) eqn:E.
  - apply Nat.eqb_eq in E. subst j. exact Hjv.
  - apply IH; [exact Hc'|exact Hh].
Qed.

End RegexSound.

Section ExecSound.
Import Regex RegexSpec.

(** A successful [exec] leaves in group [i] a text that the group can
    match, when every match goes through the group. *)
Lemma exec_sound (P : nat -> string -> Prop) (r : regex) (i : nat) :
  groups_ok P r -> must_capture i r = true ->
  forall s pos m, exec_from r pos s = Some m -> P i (group i m).
Proof.
  intros Hg Hm s.
  assert (Hrun : forall pos s m,
            run r pos s [] (fun e _ c => Some (mkMatched pos e c)) = Some m ->
            P i (group i m)).
  { intros pos s0 m H. apply (run_sound P r Hg) in H; [|constructor].
    destruct H as (pre & s' & caps' & _ & _ & Hc & Hh & [= <-]).
    unfold group. cbn [m_caps]. apply lookup_ok; [exact Hc|].
    apply Hh. rewrite Hm. apply orb_true_r. }
  induction s as [|c s IH]; intros pos m H; cbn [exec_from] in H.
  - destruct (run r pos "" [] _) eqn:E; [|discriminate].
    injection H as <-. now apply Hrun in E.
  - destruct (run r pos (String c s) [] _) eqn:E.
    + injection H as <-. now apply Hrun in E.
    + now apply IH in H.
Qed.

Lemma matches_class (p : ascii -> bool) (t : string) :
  matches (Class p) t -> exists c, t = String c "" /\ p c = true.
Proof. intros H. inversion H; subst. eauto. Qed.

Lemma matches_class_cat (p : ascii -> bool) (r : regex) (t : string) :
  matches (Cat (Class p) r) t ->
  exists c t', t = String c t' /\ p c = true /\ matches r t'.
Proof.
  intros H. inversion H as [| | | |? ? a b Ha Hb| | | | | | |]; subst.
  apply matches_class in Ha as (c & -> & Hc). exists c, b. auto.
Qed.

Lemma matches_cat_class_cat (p : ascii -> bool) (r1 r2 : regex) (t : string) :
  matches (Cat (Cat (Class p) r1) r2) t ->
  exists c t', t = String c t' /\ p c = true /\ matches (Cat r1 r2) t'.
Proof.
  intros H. inversion H as [| | | |? ? a b Ha Hb| | | | | | |]; subst.
  apply matches_class_cat in Ha as (c & a' & -> & Hc & Ha').
  exists c, (a' ++ b)%string. repeat split; auto. now constructor.
Qed.

(** The second group of the trip header pattern is a date token. *)
Lemma trip_header_token (s : string) (m : matched) :
  exec Patterns.reTrip s = Some m -> is_date_token (group 2 m).
Proof.
  intros H0.
  assert (Hg : groups_ok (fun i t => i = 2%nat -> matches Patterns.dateToken t)
                 Patterns.reTrip) by (cbn; intuition discriminate).
  pose proof (exec_sound _ _ 2 Hg eq_refl _ _ _ H0 eq_refl) as H.
  unfold Patterns.dateToken in H. cbn [times] in H.
  apply matches_cat_class_cat in H as (d1 & t1 & -> & H1 & H).
  inversion H as [| | | |? ? a b Ha Hb| | | | | | |]; subst.
  apply matches_class in Ha as (d2 & -> & H2).
  apply matches_class_cat in Hb as (u1 & t2 & -> & H3 & Hb).
  apply matches_class_cat in Hb as (u2 & t3 & -> & H4 & Hb).
  apply matches_class in Hb as (u3 & -> & H5).
  exists d1, d2, u1, u2, u3. repeat split; assumption.
Qed.

Lemma digit_not_space (c : ascii) :
  JS.is_digit c = true ->
  JS.is_space c = false /\ Ascii.eqb c "-" = false /\ Ascii.eqb c "+" = false.
Proof.
  destruct c as [[] [] [] [] [] [] [] []]; vm_compute; intuition discriminate.
Qed.

(** The year pattern captures four digits, on which [parseInt] is a
    number: the default of the embedding is never used. *)
Lemma year_capture_is_number (s : string) (m : matched) :
  exec Patterns.reYear s = Some m ->
  exists y, JS.parseInt (group 1 m) = Some y.
Proof.
  intros H0.
  assert (Hg : groups_ok (fun i t => i = 1%nat -> matches (times 4 d) t)
                 Patterns.reYear) by (cbn; intuition discriminate).
  pose proof (exec_sound _ _ 1 Hg eq_refl _ _ _ H0 eq_refl) as H.
  cbn [times] in H.
  apply matches_class_cat in H as (d1 & t1 & -> & H1 & _).
  unfold JS.parseInt.
  destruct (digit_not_space d1 H1) as (Hs & Hm & Hp).
  cbn [JS.trimStart]. rewrite Hs, Hm, Hp, H1. eauto.
Qed.

End ExecSound.


(* ------------------------------------------------------------------ *)
(** ** Where the script reads a cell directly, the cell is there *)

Section CellAccess.
Import Dom.

Lemma webview_cellText_in_range (cells : list node) (i : nat) :
  (i < length cells)%nat ->
  WebView.cellText cells i = Some (Server.cellText cells i).
Proof.
  intros Hlt. unfold WebView.cellText, Server.cellText, Server.text.
  destruct (nth_error cells i) as [c|] eqn:E; [reflexivity|].
  apply nth_error_None in E. lia.
Qed.

Lemma webview_cellTextOr (cells : list node) (i : nat) :
  WebView.cellTextOr cells i = Server.cellText cells i.
Proof.
  unfold WebView.cellTextOr, Server.cellText, Server.text.
  destruct (nth_error cells i); reflexivity.
Qed.

Lemma webview_totalsCell cells ci cell acc :
  WebView.totalsCell cells ci cell acc = Server.totalsCell cells ci cell acc.
Proof.
  unfold WebView.totalsCell, Server.totalsCell.
  now rewrite !webview_cellTextOr.
Qed.

Lemma foldi_ext {A B : Type} (f g : nat -> B -> A -> A) :
  (forall i x a, f i x a = g i x a) ->
  forall l i a, foldi f i l a = foldi g i l a.
Proof.
  intros E l. induction l as [|x l IH]; intros i a; simpl; [reflexivity|].
  now rewrite E, IH.
Qed.

Lemma webview_legOfCells (cells : list node) :
  (10 <= length cells)%nat ->
  WebView.legOfCells cells = Some (Server.legOfCells cells).
Proof.
  intros Hlen. unfold WebView.legOfCells.
  rewrite !webview_cellText_in_range by lia. reflexivity.
Qed.

Lemma webview_hotelCell ci cell lay :
  WebView.hotelCell ci cell lay = Server.hotelCell ci cell lay.
Proof. reflexivity. Qed.

End CellAccess.

(* ------------------------------------------------------------------ *)
(** ** Both row loops are instances of the state machine *)

Section Instances.
Import Dom Patterns DutyMachine.

Lemma server_step st row :
  Server.dutyRow st row = step Server.hasClass st row.
Proof. reflexivity. Qed.

Lemma webview_step st row :
  WebView.dutyRow st row = Some (step WebView.hasClass st row).
Proof.
  unfold WebView.dutyRow, step.
  destruct (WebView.hasClass "main" row); [reflexivity|].
  destruct (WebView.hasClass "bold" row).
  - rewrite (foldi_ext _ _ (webview_totalsCell (find "td" row))). reflexivity.
  - destruct (WebView.hasClass "nowrap" row).
    + destruct (length (find "td" row) <? 10)%nat eqn:E; [reflexivity|].
      apply Nat.ltb_ge in E.
      rewrite (webview_legOfCells _ E). cbn [WebView.bind].
      rewrite webview_cellText_in_range by lia. cbn [WebView.bind].
      destruct (boundary st _); reflexivity.
    + destruct (Regex.exec reDend _); [|reflexivity].
      destruct (st_currentLayover st); reflexivity.
Qed.

Lemma server_fold rows st :
  fold_left Server.dutyRow rows st = fold_left (step Server.hasClass) rows st.
Proof. reflexivity. Qed.

Lemma webview_fold rows : forall st,
  WebView.foldM WebView.dutyRow rows st =
  Some (fold_left (step WebView.hasClass) rows st).
Proof.
  induction rows as [|r rows IH]; intros st; simpl; [reflexivity|].
  rewrite webview_step. cbn [WebView.bind]. apply IH.
Qed.

End Instances.


(* ------------------------------------------------------------------ *)
(** ** Properties of the duty-period state machine *)

Section DutyMachineFacts.
Import Dom Patterns DutyMachine.
Variable hasClass : string -> node -> bool.

Local Abbreviation step := (DutyMachine.step hasClass).
Local Abbreviation isLegRow := (DutyMachine.isLegRow hasClass).

(** What a flight-leg row does to the period list and the open leg list. *)
Lemma step_leg_row st row :
  isLegRow row = true ->
  let leg := Server.legOfCells (find "td" row) in
  st_lastDayOfMonth (step st row) = leg_dayOfMonth leg /\
  if boundary st (leg_dayOfMonth leg) then
    st_dutyPeriods (step st row) =
      st_dutyPeriods st ++
      [mkDutyPeriod (st_currentLegs st) "" "" "" "" (st_currentLayover st)]
    /\ st_currentLegs (step st row) = [leg]
  else
    st_dutyPeriods (step st row) = st_dutyPeriods st
    /\ st_currentLegs (step st row) = st_currentLegs st ++ [leg].
Proof.
  unfold DutyMachine.isLegRow, DutyMachine.step. intros H.
  apply andb_prop in H as [H H10]. apply andb_prop in H as [H Hn].
  apply andb_prop in H as [Hm Hb].
  apply negb_true_iff in Hm, Hb. rewrite Hm, Hb, Hn.
  apply Nat.leb_le in H10.
  destruct (length (find "td" row) <? 10)%nat eqn:E;
    [apply Nat.ltb_lt in E; lia|].
  cbv zeta.
  destruct (boundary st _); cbn; auto.
Qed.

(** Any other row leaves both lists alone. *)
Lemma step_other_row st row :
  isLegRow row = false ->
  st_dutyPeriods (step st row) = st_dutyPeriods st /\
  st_currentLegs (step st row) = st_currentLegs st.
Proof.
  unfold DutyMachine.isLegRow, DutyMachine.step. intros H.
  destruct (hasClass "main" row); [auto|].
  destruct (hasClass "bold" row); [auto|].
  destruct (hasClass "nowrap" row).
  - cbn [negb andb] in H. apply Nat.leb_gt in H.
    destruct (length (find "td" row) <? 10)%nat eqn:E; [auto|].
    apply Nat.ltb_ge in E. lia.
  - destruct (Regex.exec reDend _); [|auto].
    destruct (st_currentLayover st); auto.
Qed.

Lemma boundary_legs st d : boundary st d = true -> st_currentLegs st <> [].
Proof.
  unfold boundary. destruct (st_currentLegs st); [discriminate|easy].
Qed.

Lemma step_periods_have_legs st row :
  periods_have_legs (st_dutyPeriods st) ->
  periods_have_legs (st_dutyPeriods (step st row)).
Proof.
  intros Inv. destruct (isLegRow row) eqn:E.
  - destruct (step_leg_row st row E) as [_ H].
    destruct (boundary st _) eqn:B.
    + destruct H as [-> _]. apply Forall_app. split; [exact Inv|].
      constructor; [|constructor]. cbn. eapply boundary_legs; eauto.
    + destruct H as [-> _]. exact Inv.
  - destruct (step_other_row st row E) as [-> _]. exact Inv.
Qed.

Lemma fold_periods_have_legs rows : forall st,
  periods_have_legs (st_dutyPeriods st) ->
  periods_have_legs (st_dutyPeriods (fold_left step rows st)).
Proof.
  induction rows as [|r rows IH]; intros st Inv; simpl; [exact Inv|].
  apply IH, step_periods_have_legs, Inv.
Qed.

Lemma dpFinish_periods_have_legs st :
  periods_have_legs (st_dutyPeriods st) -> periods_have_legs (dpFinish st).
Proof.
  intros Inv. unfold dpFinish.
  destruct (st_currentLegs st) as [|l ls] eqn:E; [exact Inv|].
  apply Forall_app. split; [exact Inv|].
  constructor; [|constructor]. cbn. discriminate.
Qed.

Lemma run_periods_have_legs rows :
  periods_have_legs (dpFinish (fold_left step rows dpInit)).
Proof.
  apply dpFinish_periods_have_legs, fold_periods_have_legs. constructor.
Qed.

(** The output is empty exactly when no flight-leg row was read. *)
Lemma fold_output_nonempty rows : forall st,
  legs_before_periods st ->
  (dpFinish (fold_left step rows st) <> [] <->
   st_currentLegs st <> [] \/ existsb isLegRow rows = true).
Proof.
  induction rows as [|r rows IH]; intros st Inv; simpl.
  - unfold dpFinish. destruct (st_currentLegs st) as [|l ls] eqn:E.
    + rewrite (Inv E). split; [easy|]. intros [H|H]; [easy|discriminate].
    + split; [intros _; left; discriminate|].
      intros _. destruct (st_dutyPeriods st); discriminate.
  - destruct (isLegRow r) eqn:E.
    + destruct (step_leg_row st r E) as [_ H].
      assert (Hne : st_currentLegs (step st r) <> []).
      { destruct (boundary st _); destruct H as [_ ->];
          [discriminate|]. destruct (st_currentLegs st); discriminate. }
      rewrite IH; [|intros Hnil; contradiction]. simpl. tauto.
    + destruct (step_other_row st r E) as [Hp Hl].
      rewrite IH; [|unfold legs_before_periods; rewrite Hp, Hl; exact Inv].
      rewrite Hl. simpl. tauto.
Qed.

Lemma run_output_nonempty rows :
  dpFinish (fold_left step rows dpInit) <> [] <-> existsb isLegRow rows = true.
Proof.
  rewrite fold_output_nonempty; [|easy]. cbn. split; [|auto].
  intros [H|H]; [contradiction|exact H].
Qed.

End DutyMachineFacts.

(* ------------------------------------------------------------------ *)
(** ** The script never reads a missing cell *)

Section WebViewTotal.
Import Dom Patterns DutyMachine.

Lemma flatMapM_some {A B : Type} (f : A -> option (list B)) (g : A -> list B)
    (l : list A) :
  (forall x, In x l -> f x = Some (g x)) ->
  WebView.flatMapM f l = Some (flat_map g l).
Proof.
  induction l as [|x l IH]; intros H; simpl; [reflexivity|].
  rewrite (H x (or_introl eq_refl)). cbn [WebView.bind].
  rewrite IH by (intros y Hy; apply H; now right). reflexivity.
Qed.

Lemma foldM_some {A B : Type} (f : A -> B -> option A) (g : A -> B -> A)
    (l : list B) :
  (forall a x, f a x = Some (g a x)) ->
  forall a, WebView.foldM f l a = Some (fold_left g l a).
Proof.
  intros H. induction l as [|x l IH]; intros a; simpl; [reflexivity|].
  rewrite H. cbn [WebView.bind]. apply IH.
Qed.

Lemma webview_parseDutyPeriods (tripTable : node) :
  WebView.parseDutyPeriods tripTable =
  Some match WebView.flightTable tripTable with
       | None => []
       | Some ft => dpFinish (fold_left (step WebView.hasClass) (find "tr" ft) dpInit)
       end.
Proof.
  unfold WebView.parseDutyPeriods.
  destruct (WebView.flightTable tripTable); [|reflexivity].
  now rewrite webview_fold.
Qed.

Lemma webview_crewAt (cells : list node) (ci : nat) :
  (ci + 2 < length cells)%nat ->
  WebView.crewAt cells ci = Some (Server.crewAt cells ci).
Proof.
  intros H. unfold WebView.crewAt, Server.crewAt.
  rewrite !webview_cellText_in_range by lia. cbn [WebView.bind].
  destruct (_ || _); [|reflexivity].
  destruct (_ && _); reflexivity.
Qed.

Lemma webview_crewRow (row : node) :
  WebView.crewRow row = Some (Server.crewRow row).
Proof.
  unfold WebView.crewRow, Server.crewRow.
  apply flatMapM_some. intros i Hi. apply in_seq in Hi.
  apply webview_crewAt. lia.
Qed.

Lemma webview_parseCrew (tripTable : node) :
  WebView.parseCrew tripTable =
  Some match WebView.crewTable tripTable with
       | None => []
       | Some ct => flat_map Server.crewRow (find "tr" ct)
       end.
Proof.
  unfold WebView.parseCrew. destruct (WebView.crewTable tripTable); [|reflexivity].
  apply flatMapM_some. intros r _. apply webview_crewRow.
Qed.

Lemma webview_directRows (table : node) :
  WebView.directRows table = Server.directRows table.
Proof. reflexivity. Qed.

Lemma nth_error_nth_default {A : Type} (l : list A) (i : nat) (d : A) :
  (i < length l)%nat -> nth_error l i = Some (nth i l d).
Proof. intros H. now apply nth_error_nth'. Qed.

(** [parseTrip] of the script, with its possible throws resolved. *)
Lemma webview_parseTrip (table : node) (year monthNumber : Z) :
  exists r, WebView.parseTrip table year monthNumber = Some r /\
    (r = None <->
     (length (Server.directRows table) < 2)%nat \/
     Regex.exec reTrip (tripHeaderText table) = None) /\
    (forall t, r = Some t ->
       WebView.parseDutyPeriods table = Some (dutyPeriods t) /\
       date t = WebView.tripDate year monthNumber (dateStr t) /\
       RegexSpec.is_date_token (dateStr t)).
Proof.
  unfold WebView.parseTrip, tripHeaderText. rewrite webview_directRows.
  destruct (length (Server.directRows table) <? 2)%nat eqn:E.
  - exists None. apply Nat.ltb_lt in E. repeat split; auto; discriminate.
  - apply Nat.ltb_ge in E.
    rewrite (nth_error_nth_default _ 0 (Text "")) by lia. cbn [WebView.bind].
    rewrite webview_cellTextOr.
    destruct (Regex.exec reTrip _) as [tm|] eqn:Em.
    + rewrite (nth_error_nth_default _ 1 (Text "")) by lia. cbn [WebView.bind].
      set (detailCells := find "td" (nth 1 (Server.directRows table) (Text ""))).
      assert (Hex : exists e,
        (if (2 <? length detailCells)%nat
         then WebView.cellText detailCells 2 else Some "") = Some e).
      { destruct (2 <? length detailCells)%nat eqn:E2; [|eauto].
        apply Nat.ltb_lt in E2.
        rewrite webview_cellText_in_range by lia. eauto. }
      destruct Hex as [e ->]. cbn [WebView.bind].
      rewrite webview_parseDutyPeriods. cbn [WebView.bind].
      destruct (fold_left WebView.tafbRig _ _) as [tafb rig].
      rewrite webview_parseCrew. cbn [WebView.bind].
      eexists. split; [reflexivity|]. split.
      * split; [discriminate|]. intros [H|H]; [lia|discriminate].
      * intros t [= <-]. cbn. split; [reflexivity|]. split; [reflexivity|].
        exact (trip_header_token _ _ Em).
    + exists None. repeat split; auto; discriminate.
Qed.

Lemma server_parseTrip (table : node) (year monthNumber : Z) :
  (Server.parseTrip table year monthNumber = None <->
   (length (Server.directRows table) < 2)%nat \/
   Regex.exec reTrip (tripHeaderText table) = None) /\
  (forall t, Server.parseTrip table year monthNumber = Some t ->
     dutyPeriods t = Server.parseDutyPeriods table /\
     date t = Server.tripDate year monthNumber (dateStr t) /\
     RegexSpec.is_date_token (dateStr t)).
Proof.
  unfold Server.parseTrip, tripHeaderText.
  destruct (length (Server.directRows table) <? 2)%nat eqn:E.
  - apply Nat.ltb_lt in E. repeat split; auto; discriminate.
  - apply Nat.ltb_ge in E.
    destruct (Regex.exec reTrip _) as [tm|] eqn:Em.
    + destruct (fold_left Server.tafbRig _ _) as [tafb rig]. split.
      * split; [discriminate|]. intros [H|H]; [lia|discriminate].
      * intros t [= <-]. cbn. split; [reflexivity|]. split; [reflexivity|].
        exact (trip_header_token _ _ Em).
    + repeat split; auto; discriminate.
Qed.

End WebViewTotal.

(* ------------------------------------------------------------------ *)
(** ** Duty periods and trips *)

Section DutyPeriodClaims.
Import Dom Patterns DutyMachine.

Lemma strictNeq_differs a b : strictNeq a b = true <-> differs a b.
Proof.
  destruct a as [x|], b as [y|]; cbn; try tauto.
  rewrite negb_true_iff, Z.eqb_neq. tauto.
Qed.

Lemma boundary_spec st leg :
  boundary st (leg_dayOfMonth leg) = true <-> boundary_condition st leg.
Proof.
  unfold boundary, boundary_condition.
  rewrite !andb_true_iff, strictNeq_differs.
  destruct (st_currentLegs st), (st_currentLayover st); cbn;
    intuition (discriminate || congruence || auto).
Qed.

Lemma closes_not_joins st st' leg : closes_period st st' leg -> ~ joins_period st st' leg.
Proof.
  intros [H _] [H' _]. rewrite H' in H.
  apply (f_equal (@length _)) in H. rewrite length_app in H. cbn in H. lia.
Qed.

(** The boundary rule for the loop body over either class test. *)
Lemma step_boundary_rule hasClass st row :
  isLegRow hasClass row = true ->
  let leg := Server.legOfCells (find "td" row) in
  let st' := step hasClass st row in
  (closes_period st st' leg <-> boundary_condition st leg) /\
  (joins_period st st' leg <-> ~ boundary_condition st leg) /\
  (st_currentLayover st = None -> joins_period st st' leg).
Proof.
  intros Hrow leg st'.
  destruct (step_leg_row hasClass st row Hrow) as [_ H]. fold leg st' in H.
  assert (Hdec : if boundary st (leg_dayOfMonth leg)
                 then closes_period st st' leg /\ boundary_condition st leg
                 else joins_period st st' leg /\ ~ boundary_condition st leg).
  { destruct (boundary st (leg_dayOfMonth leg)) eqn:B.
    - split; [exact H|]. now apply boundary_spec.
    - split; [exact H|]. rewrite <- boundary_spec. congruence. }
  destruct (boundary st (leg_dayOfMonth leg)); destruct Hdec as [Hs Hc].
  - pose proof (closes_not_joins _ _ _ Hs) as Hn.
    split; [tauto|]. split; [tauto|].
    intros Hnone. destruct Hc as (_ & _ & Hl). contradiction.
  - assert (Hn : ~ closes_period st st' leg)
      by (intros Hcl; exact (closes_not_joins _ _ _ Hcl Hs)).
    split; [tauto|]. split; [tauto|]. intros _. exact Hs.
Qed.

(** C4. For a row that reaches the flight-leg branch ("nowrap", at least
    ten cells), the loop body closes the open duty period before
    appending the leg exactly when the open leg list is non-empty, the
    row's day-of-month differs (as [!==] on numbers) from the last-seen
    one, and a layover is open; otherwise the leg joins the open period,
    in particular whenever no layover is open.  This holds for the
    server parser and for the script, which never throws on such a row. *)
Theorem C4_boundary_rule (st : DPState) (row : node) :
  (isLegRow Server.hasClass row = true ->
   let leg := Server.legOfCells (find "td" row) in
   let st' := Server.dutyRow st row in
   (closes_period st st' leg <-> boundary_condition st leg) /\
   (joins_period st st' leg <-> ~ boundary_condition st leg) /\
   (st_currentLayover st = None -> joins_period st st' leg)) /\
  (isLegRow WebView.hasClass row = true ->
   let leg := Server.legOfCells (find "td" row) in
   exists st', WebView.dutyRow st row = Some st' /\
   (closes_period st st' leg <-> boundary_condition st leg) /\
   (joins_period st st' leg <-> ~ boundary_condition st leg) /\
   (st_currentLayover st = None -> joins_period st st' leg)).
Proof.
  split; intros Hrow.
  - rewrite server_step. now apply step_boundary_rule.
  - intros leg. rewrite webview_step. eexists. split; [reflexivity|].
    now apply step_boundary_rule.
Qed.

Lemma C4_boundary_rule_witness :
  isLegRow Server.hasClass (Examples.legRow "MO" "02" "BOS-MCO" "") = true /\
  closes_period Examples.afterDayOne
    (Server.dutyRow Examples.afterDayOne (Examples.legRow "MO" "02" "BOS-MCO" ""))
    (Server.legOfCells (find "td" (Examples.legRow "MO" "02" "BOS-MCO" ""))).
Proof.
  split; [reflexivity|].
  destruct (C4_boundary_rule Examples.afterDayOne
              (Examples.legRow "MO" "02" "BOS-MCO" "")) as [HS _].
  destruct (HS eq_refl) as [Hc _]. apply Hc.
  vm_compute. repeat split; discriminate.
Defined.

(** C5. Every duty period in the output of [parseDutyPeriods] has a
    non-empty leg list, for the server parser and for the script (which
    always returns a list). *)
Theorem C5_duty_periods_have_legs (tripTable : node) :
  periods_have_legs (Server.parseDutyPeriods tripTable) /\
  exists l, WebView.parseDutyPeriods tripTable = Some l /\ periods_have_legs l.
Proof.
  split.
  - unfold Server.parseDutyPeriods.
    destruct (Server.flightTable tripTable); [|constructor].
    rewrite server_fold. apply run_periods_have_legs.
  - rewrite webview_parseDutyPeriods. eexists. split; [reflexivity|].
    destruct (WebView.flightTable tripTable); [|constructor].
    apply run_periods_have_legs.
Qed.

Lemma script_parseDutyPeriods (quirks : bool) (tripTable : node) :
  Script.parseDutyPeriods quirks tripTable =
  Some match Script.flightTable quirks tripTable with
       | None => []
       | Some ft => dpFinish (fold_left (step WebView.hasClass) (find "tr" ft) dpInit)
       end.
Proof.
  unfold Script.parseDutyPeriods.
  destruct (Script.flightTable quirks tripTable); [|reflexivity].
  now rewrite webview_fold.
Qed.

Lemma script_parseTrip (quirks : bool) (table : node) (year monthNumber : Z) :
  exists r, Script.parseTrip quirks table year monthNumber = Some r /\
    (r = None <->
     (length (Server.directRows table) < 2)%nat \/
     Regex.exec reTrip (tripHeaderText table) = None) /\
    (forall t, r = Some t ->
       Script.parseDutyPeriods quirks table = Some (dutyPeriods t)).
Proof.
  unfold Script.parseTrip, tripHeaderText. rewrite webview_directRows.
  destruct (length (Server.directRows table) <? 2)%nat eqn:E.
  - exists None. apply Nat.ltb_lt in E. repeat split; auto; discriminate.
  - apply Nat.ltb_ge in E.
    rewrite (nth_error_nth_default _ 0 (Text "")) by lia. cbn [WebView.bind].
    rewrite webview_cellTextOr.
    destruct (Regex.exec reTrip _) as [tm|] eqn:Em.
    + rewrite (nth_error_nth_default _ 1 (Text "")) by lia. cbn [WebView.bind].
      set (detailCells := find "td" (nth 1 (Server.directRows table) (Text ""))).
      assert (Hex : exists e,
        (if (2 <? length detailCells)%nat
         then WebView.cellText detailCells 2 else Some "") = Some e).
      { destruct (2 <? length detailCells)%nat eqn:E2; [|eauto].
        apply Nat.ltb_lt in E2.
        rewrite webview_cellText_in_range by lia. eauto. }
      destruct Hex as [e ->]. cbn [WebView.bind].
      rewrite script_parseDutyPeriods. cbn [WebView.bind].
      destruct (fold_left WebView.tafbRig _ _) as [tafb rig].
      rewrite webview_parseCrew. cbn [WebView.bind].
      eexists. split; [reflexivity|]. split.
      * split; [discriminate|]. intros [H|H]; [lia|discriminate].
      * intros t [= <-]. reflexivity.
    + exists None. repeat split; auto; discriminate.
Qed.

Lemma server_dutyPeriods_nonempty (table : node) :
  Server.parseDutyPeriods table <> [] <->
  hasLegRow Server.hasClass (Server.flightTable table) = true.
Proof.
  unfold Server.parseDutyPeriods, hasLegRow.
  destruct (Server.flightTable table).
  - rewrite server_fold. apply run_output_nonempty.
  - split; [congruence|discriminate].
Qed.

Lemma script_dutyPeriods_nonempty (quirks : bool) (table : node) (l : list DutyPeriod) :
  Script.parseDutyPeriods quirks table = Some l ->
  (l <> [] <-> hasLegRow WebView.hasClass (Script.flightTable quirks table) = true).
Proof.
  rewrite script_parseDutyPeriods. intros [= <-]. unfold hasLegRow.
  destruct (Script.flightTable quirks table).
  - apply run_output_nonempty.
  - split; [congruence|discriminate].
Qed.

Lemma not_true_nil {A : Type} (l : list A) (b : bool) :
  (l <> [] <-> b = true) -> b = false -> l = [].
Proof.
  intros H Hb. destruct l as [|x l]; [reflexivity|].
  assert (b = true) by (apply H; discriminate). congruence.
Qed.

(** C2, as the code has it.  A Trip is emitted whether or not any leg was
    found.  [parseDutyPeriods] reads one table only, the flight table:
    the first table nested in the trip table that has a [tr.main] row.
    The [dutyPeriods] of an emitted Trip is non-empty exactly when there
    is such a table and one of its rows is a flight-leg row (class nowrap,
    neither main nor bold, at least ten cells).  This holds for the
    server parser, for the script in a no-quirks document and for the
    script in a document of either mode.  And a trip table with at least
    two direct rows and a matching header whose flight table is missing
    or has no flight-leg row is still emitted, with an empty
    [dutyPeriods], by the server parser and by the script. *)
Theorem C2_dutyPeriods_nonempty_iff_leg_row (table : node) (year monthNumber : Z) :
  (forall t, Server.parseTrip table year monthNumber = Some t ->
     (dutyPeriods t <> [] <->
      hasLegRow Server.hasClass (Server.flightTable table) = true)) /\
  (forall t, WebView.parseTrip table year monthNumber = Some (Some t) ->
     (dutyPeriods t <> [] <->
      hasLegRow WebView.hasClass (WebView.flightTable table) = true)) /\
  (forall quirks t, Script.parseTrip quirks table year monthNumber = Some (Some t) ->
     (dutyPeriods t <> [] <->
      hasLegRow WebView.hasClass (Script.flightTable quirks table) = true)) /\
  ((2 <= length (Server.directRows table))%nat ->
   Regex.exec reTrip (tripHeaderText table) <> None ->
   (hasLegRow Server.hasClass (Server.flightTable table) = false ->
    exists t, Server.parseTrip table year monthNumber = Some t /\
              dutyPeriods t = []) /\
   (forall quirks,
      hasLegRow WebView.hasClass (Script.flightTable quirks table) = false ->
      exists t, Script.parseTrip quirks table year monthNumber = Some (Some t) /\
                dutyPeriods t = [])).
Proof.
  assert (HS : forall t, Server.parseTrip table year monthNumber = Some t ->
            (dutyPeriods t <> [] <->
             hasLegRow Server.hasClass (Server.flightTable table) = true)).
  { intros t Ht. destruct (server_parseTrip table year monthNumber) as [_ H].
    destruct (H t Ht) as [-> _]. apply server_dutyPeriods_nonempty. }
  assert (HW : forall quirks t,
            Script.parseTrip quirks table year monthNumber = Some (Some t) ->
            (dutyPeriods t <> [] <->
             hasLegRow WebView.hasClass (Script.flightTable quirks table) = true)).
  { intros quirks t Ht.
    destruct (script_parseTrip quirks table year monthNumber) as (r & Hr & _ & H).
    rewrite Hr in Ht. injection Ht as ->.
    exact (script_dutyPeriods_nonempty quirks table _ (H t eq_refl)). }
  split; [exact HS|]. split; [exact (HW false)|]. split; [exact HW|].
  intros Hrows Hheader. split.
  - intros Hleg.
    destruct (Server.parseTrip table year monthNumber) as [t|] eqn:E.
    + exists t. split; [reflexivity|]. exact (not_true_nil _ _ (HS t eq_refl) Hleg).
    + apply (proj1 (server_parseTrip table year monthNumber)) in E.
      destruct E as [E|E]; [lia|contradiction].
  - intros quirks Hleg.
    destruct (script_parseTrip quirks table year monthNumber) as (r & Hr & Hnone & _).
    destruct r as [t|].
    + exists t. split; [exact Hr|]. exact (not_true_nil _ _ (HW quirks t Hr) Hleg).
    + destruct (proj1 Hnone eq_refl) as [E|E]; [lia|contradiction].
Qed.

Lemma C2_dutyPeriods_witness :
  (exists t, Server.parseTrip Examples.tripWithFlights 2026 2 = Some t /\
             dutyPeriods t <> []) /\
  (exists t, Script.parseTrip true Examples.tripWithoutFlights 2026 2 = Some (Some t) /\
             dutyPeriods t = []).
Proof.
  split.
  - destruct (Server.parseTrip Examples.tripWithFlights 2026 2) as [t|] eqn:E;
      [|vm_compute in E; discriminate].
    exists t. split; [reflexivity|].
    apply (proj1 (C2_dutyPeriods_nonempty_iff_leg_row
                    Examples.tripWithFlights 2026 2) t E).
    vm_compute. reflexivity.
  - apply (proj2 (proj2 (proj2 (C2_dutyPeriods_nonempty_iff_leg_row
                    Examples.tripWithoutFlights 2026 2)))).
    + vm_compute. lia.
    + vm_compute. discriminate.
    + vm_compute. reflexivity.
Defined.

(** Only the first nested table with a [tr.main] is read: the second
    flight table of [Examples.tripWithTwoFlightTables] holds a flight-leg
    row, the first none, and the trip is emitted without a duty period. *)
Lemma second_flight_table_not_read :
  (exists t, Server.parseTrip Examples.tripWithTwoFlightTables 2026 2 = Some t /\
             dutyPeriods t = []) /\
  (forall quirks, exists t,
     Script.parseTrip quirks Examples.tripWithTwoFlightTables 2026 2 = Some (Some t) /\
     dutyPeriods t = []).
Proof.
  split; [|intros []]; eexists; split; vm_compute; reflexivity.
Qed.

(** C2 as stated fails: a trip block with a good header and no flight
    table is emitted with no duty period, by both parsers. *)
Lemma C2_emitted_trip_without_duty_periods :
  (exists t, Server.parseTrip Examples.tripWithoutFlights 2026 2 = Some t /\
             dutyPeriods t = []) /\
  (exists t, WebView.parseTrip Examples.tripWithoutFlights 2026 2 = Some (Some t) /\
             dutyPeriods t = []).
Proof. split; eexists; split; vm_compute; reflexivity. Qed.

(** C3, as the code has it.  [parseTrip] returns no Trip exactly when the
    table has fewer than two direct rows or the header pattern fails on
    the first cell of the first row; the script never throws there. *)
Theorem C3_parseTrip_null_iff (table : node) (year monthNumber : Z) :
  (Server.parseTrip table year monthNumber = None <->
   (length (Server.directRows table) < 2)%nat \/
   Regex.exec reTrip (tripHeaderText table) = None) /\
  (WebView.parseTrip table year monthNumber = Some None <->
   (length (Server.directRows table) < 2)%nat \/
   Regex.exec reTrip (tripHeaderText table) = None) /\
  WebView.parseTrip table year monthNumber <> None.
Proof.
  split; [apply server_parseTrip|].
  destruct (webview_parseTrip table year monthNumber) as (r & -> & H & _).
  split; [|discriminate]. rewrite <- H. split; congruence.
Qed.

(** C3 as stated fails: the header pattern matches the first cell of
    the first row, yet no Trip is returned, because the table has a
    single direct row. *)
Lemma C3_header_matches_but_null :
  Regex.exec reTrip (tripHeaderText Examples.oneRowTrip) <> None /\
  Server.parseTrip Examples.oneRowTrip 2026 2 = None /\
  WebView.parseTrip Examples.oneRowTrip 2026 2 = Some None.
Proof. repeat split; vm_compute; (reflexivity || discriminate). Qed.

End DutyPeriodClaims.

(* ------------------------------------------------------------------ *)
(** ** Crew rows *)

Section CrewClaims.
Import Dom.

Lemma truthy_iff (s : string) : JS.truthy s = true <-> s <> "".
Proof. destruct s; cbn; split; congruence. Qed.

Lemma crewAt_member (cells : list node) (i : nat) (m : CrewMember) :
  In m (Server.crewAt cells i) <->
  (Server.cellText cells i = "CA" \/ Server.cellText cells i = "FO") /\
  Server.cellText cells (i + 1) <> "" /\
  Server.cellText cells (i + 2) <> "" /\
  m = mkCrewMember (Server.cellText cells i) (Server.cellText cells (i + 1))
        (Server.cellText cells (i + 2)).
Proof.
  unfold Server.crewAt.
  destruct (_ || _) eqn:Epos.
  - apply orb_true_iff in Epos. rewrite !String.eqb_eq in Epos.
    destruct (_ && _) eqn:Ev.
    + apply andb_true_iff in Ev. rewrite !truthy_iff in Ev. cbn.
      intuition congruence.
    + apply andb_false_iff in Ev. rewrite <- !not_true_iff_false, !truthy_iff in Ev.
      cbn. tauto.
  - apply orb_false_iff in Epos. rewrite !String.eqb_neq in Epos. cbn. tauto.
Qed.

(** C10. In a crew row, a CrewMember comes from a cell at index [i]
    exactly when two more cells follow it in the row ([i + 2] is still an
    index), its trimmed text is "CA" or "FO", and the trimmed texts of the
    two following cells are both non-empty; a position cell followed by
    an empty employee number or name yields nothing, and so does one in
    the last two cells of the row.  The script reads the same members and
    never reads a missing cell. *)
Theorem C10_crew_members_of_row (row : node) :
  let cells := find "td" row in
  (forall m, In m (Server.crewRow row) <->
     exists i, (i + 2 < length cells)%nat /\
       (Server.cellText cells i = "CA" \/ Server.cellText cells i = "FO") /\
       Server.cellText cells (i + 1) <> "" /\
       Server.cellText cells (i + 2) <> "" /\
       m = mkCrewMember (Server.cellText cells i) (Server.cellText cells (i + 1))
             (Server.cellText cells (i + 2))) /\
  (forall i, Server.cellText cells (i + 1) = "" \/ Server.cellText cells (i + 2) = "" ->
     Server.crewAt cells i = []) /\
  WebView.crewRow row = Some (Server.crewRow row).
Proof.
  intros cells. split; [|split].
  - intros m. unfold Server.crewRow. fold cells. rewrite in_flat_map. split.
    + intros (i & Hi & Hm). apply in_seq in Hi. apply crewAt_member in Hm.
      exists i. split; [lia|exact Hm].
    + intros (i & Hi & Hm). exists i. split; [apply in_seq; lia|].
      now apply crewAt_member.
  - intros i H. destruct (Server.crewAt cells i) as [|m l] eqn:E; [reflexivity|].
    assert (Hm : In m (Server.crewAt cells i)) by (rewrite E; now left).
    apply crewAt_member in Hm. tauto.
  - apply webview_crewRow.
Qed.

Lemma C10_crew_members_witness :
  In (mkCrewMember "FO" "76148" "Wendt, Brian") (Server.crewRow Examples.crewRowBoth) /\
  Server.crewAt (find "td" (Examples.tr [Examples.td "CA"; Examples.td "67948";
                                         Examples.td ""])) 0 = [].
Proof.
  split.
  - destruct (C10_crew_members_of_row Examples.crewRowBoth) as [H _].
    apply H. exists 5%nat.
    split; [cbn; lia|]. split; [right; reflexivity|].
    split; [discriminate|]. split; [discriminate|reflexivity].
  - destruct (C10_crew_members_of_row
                (Examples.tr [Examples.td "CA"; Examples.td "67948"; Examples.td ""]))
      as (_ & H & _).
    apply H. right. reflexivity.
Defined.

End CrewClaims.

(* ------------------------------------------------------------------ *)
(** ** The hotel fields of a layover *)

Section HotelClaims.
Import Dom Patterns DutyMachine.

Lemma last_cons {A : Type} (x : A) (l : list A) (d : A) :
  last (x :: l) d = last l x.
Proof.
  revert x d. induction l as [|y l IH]; intros x d; [reflexivity|].
  change (last (x :: y :: l) d) with (last (y :: l) d).
  now rewrite (IH y d), (IH y x).
Qed.

Lemma truthy_false (s : string) : JS.truthy s = false -> s = "".
Proof. destruct s; cbn; congruence. Qed.

(** The scan from an index past the first two cells. *)
Lemma hotel_scan_from (l : list node) : forall (i : nat) (lay : Layover),
  (2 <= i)%nat ->
  hotelScanned (repeat (Text "") 2 ++ l) lay (foldi Server.hotelCell i l lay) /\
  dutyEndLocal (foldi Server.hotelCell i l lay) = dutyEndLocal lay /\
  reportLocal (foldi Server.hotelCell i l lay) = reportLocal lay.
Proof.
  unfold hotelScanned, hotelNames, hotelPhones, hotelCandidates. cbn [repeat app skipn].
  induction l as [|c l IH]; intros i lay Hi.
  - cbn. destruct (JS.truthy (hotelName lay)) eqn:En; [auto 6|].
    apply truthy_false in En. auto 6.
  - cbn [foldi map filter].
    specialize (IH (S i) (Server.hotelCell i c lay) ltac:(lia)).
    destruct IH as ((IHn & IHp & IHa & IHr) & IHd & IHe).
    rewrite IHn, IHp, IHa, IHr, IHd, IHe. clear IHn IHp IHa IHr IHd IHe.
    unfold Server.hotelCell.
    assert (Hidx : (1 <? i)%nat = true) by (apply Nat.ltb_lt; lia).
    rewrite Hidx. cbn [andb].
    set (t := JS.trim (textContent c)).
    destruct (JS.truthy t && negb (JS.includes t "D-END")
              && negb (JS.includes t "T.A.F.B.")) eqn:Ec.
    + assert (Ht : JS.truthy t = true).
      { apply andb_true_iff in Ec as [Ec _]. now apply andb_true_iff in Ec. }
      cbn [filter].
      destruct (JS.startsWith t "(") eqn:Ep; cbn [negb andb filter].
      * cbn [hotelName hotelPhone airport restTime dutyEndLocal reportLocal].
        rewrite last_cons. auto 6.
      * destruct (JS.truthy (hotelName lay)) eqn:En;
          cbn [negb hotelName hotelPhone airport restTime dutyEndLocal reportLocal hd].
        -- rewrite En. auto 6.
        -- rewrite Ht. auto 6.
    + auto 6.
Qed.

Lemma hotel_scan (cells : list node) (lay : Layover) :
  hotelScanned cells lay (foldi Server.hotelCell 0 cells lay) /\
  dutyEndLocal (foldi Server.hotelCell 0 cells lay) = dutyEndLocal lay /\
  reportLocal (foldi Server.hotelCell 0 cells lay) = reportLocal lay.
Proof.
  destruct cells as [|c0 [|c1 l]].
  - exact (hotel_scan_from [] 2 lay (le_n 2)).
  - exact (hotel_scan_from [] 2 lay (le_n 2)).
  - change (foldi Server.hotelCell 0 (c0 :: c1 :: l) lay)
      with (foldi Server.hotelCell 2 l lay).
    exact (hotel_scan_from l 2 lay (le_n 2)).
Qed.

(** A D-END row while a layover is open, for either class test. *)
Lemma step_dend_row hasClass st row lay :
  isDendRow hasClass row = true ->
  st_currentLayover st = Some lay ->
  exists lay',
    st_currentLayover (step hasClass st row) = Some lay' /\
    hotelScanned (find "td" row) lay lay'.
Proof.
  unfold isDendRow, step, Regex.test. intros H Hlay.
  apply andb_prop in H as [H Hd]. apply andb_prop in H as [H Hn].
  apply andb_prop in H as [Hm Hb]. apply negb_true_iff in Hm, Hb, Hn.
  rewrite Hm, Hb, Hn, Hlay.
  destruct (Regex.exec reDend _) as [dm|]; [|discriminate].
  eexists. split; [reflexivity|].
  match goal with
  | |- hotelScanned _ _ (foldi _ 0 _ ?l1) =>
      destruct (hotel_scan (find "td" row) l1) as (Hs & _)
  end.
  exact Hs.
Qed.

(** C7, as the code has it.  When a D-END row is processed while a
    layover is open, the layover's hotelName becomes the first cell after
    the first two whose trimmed text is non-empty, contains neither
    "D-END" nor "T.A.F.B." and does not start with "(", unless a name is
    already set, which is kept; its hotelPhone becomes the last such cell
    that starts with "(" (every later one overwrites the earlier), and
    stays as it was when there is none. *)
Theorem C7_hotel_fields (st : DPState) (row : node) (lay : Layover) :
  st_currentLayover st = Some lay ->
  (isDendRow Server.hasClass row = true ->
   exists lay', st_currentLayover (Server.dutyRow st row) = Some lay' /\
                hotelScanned (find "td" row) lay lay') /\
  (isDendRow WebView.hasClass row = true ->
   exists st' lay', WebView.dutyRow st row = Some st' /\
                    st_currentLayover st' = Some lay' /\
                    hotelScanned (find "td" row) lay lay').
Proof.
  intros Hlay. split; intros Hrow.
  - rewrite server_step. now apply step_dend_row.
  - rewrite webview_step.
    destruct (step_dend_row WebView.hasClass st row lay Hrow Hlay) as (lay' & H1 & H2).
    eauto.
Qed.

Lemma C7_hotel_fields_witness :
  exists lay lay',
    st_currentLayover Examples.afterDayOne = Some lay /\
    st_currentLayover (Server.dutyRow Examples.afterDayOne Examples.dendRowTwoPhones)
      = Some lay' /\
    hotelScanned (find "td" Examples.dendRowTwoPhones) lay lay'.
Proof.
  destruct (st_currentLayover Examples.afterDayOne) as [lay|] eqn:E;
    [|vm_compute in E; discriminate].
  destruct (C7_hotel_fields Examples.afterDayOne Examples.dendRowTwoPhones lay E)
    as [HS _].
  destruct (HS eq_refl) as (lay' & H1 & H2).
  exists lay, lay'. auto.
Defined.

(** C7 as stated fails for the phone: with two cells that start with
    "(", the layover keeps the last one, not the first.  It fails for
    the name when a second D-END row arrives for the same layover: the
    name of the first row is kept. *)
Lemma C7_phone_is_last_not_first :
  hd "" (hotelPhones (find "td" Examples.dendRowTwoPhones)) = "(617) 555-0100" /\
  option_map hotelPhone
    (st_currentLayover
       (Server.dutyRow Examples.afterDayOne Examples.dendRowTwoPhones))
    = Some "(617) 555-0199" /\
  option_map (option_map hotelPhone)
    (option_map st_currentLayover
       (WebView.dutyRow Examples.afterDayOne Examples.dendRowTwoPhones))
    = Some (Some "(617) 555-0199") /\
  hd "" (hotelNames (find "td" Examples.dendRowOtherHotel)) = "Airport Inn" /\
  option_map hotelName
    (st_currentLayover
       (Server.dutyRow
          (Server.dutyRow Examples.afterDayOne Examples.dendRowTwoPhones)
          Examples.dendRowOtherHotel))
    = Some "Hilton Boston".
Proof. repeat split; vm_compute; reflexivity. Qed.

End HotelClaims.

(* ------------------------------------------------------------------ *)
(** ** The summary totals *)

Section SummaryClaims.
Import Dom.

Lemma webview_summaryRow acc row :
  WebView.summaryRow acc row = Some (Server.summaryRow acc row).
Proof.
  unfold WebView.summaryRow, Server.summaryRow.
  destruct (2 <=? length (find "td" row))%nat eqn:E; [|reflexivity].
  apply Nat.leb_le in E.
  rewrite !webview_cellText_in_range by lia. cbn [WebView.bind].
  destruct (JSNumber.parseFloat _); [|reflexivity].
  repeat (match goal with |- context [if ?b then _ else _] => destruct b end);
    reflexivity.
Qed.

(** A row without a parsed value changes nothing. *)
Lemma summaryRow_no_entry acc row :
  summaryEntry row = None -> Server.summaryRow acc row = acc.
Proof.
  unfold summaryEntry, Server.summaryRow.
  destruct (2 <=? length (find "td" row))%nat; [|reflexivity].
  destruct (JSNumber.parseFloat _); [discriminate|reflexivity].
Qed.

Lemma summaryRow_entry acc row l v :
  summaryEntry row = Some (l, v) ->
  Server.summaryRow acc row =
    if isBlockLabel l then mkScheduleSummary v (credit acc) (ytd acc) (daysOff acc)
    else if isCreditLabel l then mkScheduleSummary (block acc) v (ytd acc) (daysOff acc)
    else if isYtdLabel l then mkScheduleSummary (block acc) (credit acc) v (daysOff acc)
    else if isDaysOffLabel l then mkScheduleSummary (block acc) (credit acc) (ytd acc) v
    else acc.
Proof.
  unfold summaryEntry, Server.summaryRow.
  destruct (2 <=? length (find "td" row))%nat; [|discriminate].
  destruct (JSNumber.parseFloat _); [|discriminate].
  intros [= <- <-]. reflexivity.
Qed.

Lemma last_app_if {A : Type} (b : bool) (v d : A) (l : list A) :
  last ((if b then [v] else []) ++ l) d = last l (if b then v else d).
Proof. destruct b; [apply last_cons|reflexivity]. Qed.

Lemma fold_summary_last_wins rows : forall acc,
  lastWins rows acc (fold_left Server.summaryRow rows acc).
Proof.
  unfold lastWins, valuesFor.
  induction rows as [|r rows IH]; intros acc; [cbn; auto|].
  cbn [fold_left flat_map]. specialize (IH (Server.summaryRow acc r)).
  destruct IH as (Hb & Hc & Hy & Hd). rewrite Hb, Hc, Hy, Hd.
  destruct (summaryEntry r) as [[l v]|] eqn:E.
  - rewrite (summaryRow_entry acc r l v E), !last_app_if.
    unfold isBlockLabel, isCreditLabel, isYtdLabel, isDaysOffLabel.
    destruct (String.eqb l "block") eqn:E1.
    { apply String.eqb_eq in E1. subst l. repeat split; reflexivity. }
    destruct (String.eqb l "credit") eqn:E2.
    { apply String.eqb_eq in E2. subst l. repeat split; reflexivity. }
    destruct (String.eqb l "ytd") eqn:E3.
    { apply String.eqb_eq in E3. subst l. repeat split; reflexivity. }
    destruct (JS.includes l "days off"); repeat split; reflexivity.
  - rewrite (summaryRow_no_entry acc r E). cbn. auto.
Qed.

(** C8. Each of the four totals of the summary equals the value of the
    last sidebar row, in document order, whose lower-cased label is
    recognised for that total and whose value cell parses as a number
    (zero when there is none); a row whose value does not parse changes
    no field; and the extractor always returns: the server function is
    total, and the script never reads a missing cell. *)
Theorem C8_summary_last_row_wins (doc : node) :
  lastWins (Server.table2Rows doc) Server.summaryZero (Server.parseSummary doc) /\
  (forall acc row,
     JSNumber.parseFloat (Server.cellText (find "td" row) 1) = None ->
     Server.summaryRow acc row = acc /\ WebView.summaryRow acc row = Some acc) /\
  exists s, WebView.parseSummary doc = Some s /\
            lastWins (webviewTable2Rows doc) WebView.summaryZero s.
Proof.
  split; [apply fold_summary_last_wins|]. split.
  - intros acc row Hnan.
    assert (E : summaryEntry row = None).
    { unfold summaryEntry. rewrite Hnan. now destruct (2 <=? _)%nat. }
    rewrite webview_summaryRow, (summaryRow_no_entry acc row E). auto.
  - unfold WebView.parseSummary, webviewTable2Rows.
    destruct (WebView.table2 doc) as [t|].
    + rewrite (foldM_some _ Server.summaryRow) by apply webview_summaryRow.
      eexists. split; [reflexivity|]. apply fold_summary_last_wins.
    + eexists. split; [reflexivity|]. cbn. unfold lastWins. cbn. auto.
Qed.

Lemma C8_summary_witness :
  block (Server.parseSummary Examples.sidebarPage) = JSNumber.Finite (44 # 1) /\
  credit (Server.parseSummary Examples.sidebarPage) = JSNumber.zero.
Proof.
  destruct (C8_summary_last_row_wins Examples.sidebarPage) as [(Hb & Hc & _) _].
  rewrite Hb, Hc. vm_compute. split; reflexivity.
Defined.

End SummaryClaims.

(* ------------------------------------------------------------------ *)
(** ** Date reconstruction *)

Section DateClaims.

Lemma month_lookup_range (key : string) (v : Z) :
  month_lookup MONTH_MAP key = Some v -> 1 <= v <= 12.
Proof.
  unfold MONTH_MAP. cbn [month_lookup].
  repeat (destruct (String.eqb _ key); [intros [= <-]; lia|]).
  discriminate.
Qed.

Lemma pad_month (v : Z) :
  0 <= v <= 12 ->
  JS.padStart2 (JS.numberToString v) = twoDigits v /\ WebView.pad2 v = twoDigits v.
Proof.
  intros H.
  assert (E : v = 0 \/ v = 1 \/ v = 2 \/ v = 3 \/ v = 4 \/ v = 5 \/ v = 6 \/
              v = 7 \/ v = 8 \/ v = 9 \/ v = 10 \/ v = 11 \/ v = 12) by lia.
  repeat (destruct E as [->|E]; [split; reflexivity|]).
  subst v. split; reflexivity.
Qed.

Lemma server_tripDate_reconstructed (year monthNumber : Z) (token : string) :
  -1 <= monthNumber <= 12 ->
  (monthNumber = -1 ->
   month_lookup MONTH_MAP (JS.substringFrom 2 token) <> None) ->
  Server.tripDate year monthNumber token = reconstructed year monthNumber token.
Proof.
  intros Hm Hknown.
  unfold Server.tripDate, reconstructed, resolveMonth.
  destruct (month_lookup MONTH_MAP (JS.substringFrom 2 token)) as [v|] eqn:E.
  - apply month_lookup_range in E.
    destruct (pad_month v ltac:(lia)) as [-> _]. reflexivity.
  - assert (monthNumber <> -1) by (intros ->; now apply Hknown).
    destruct (pad_month monthNumber ltac:(lia)) as [-> _]. reflexivity.
Qed.

Lemma webview_tripDate_reconstructed (year monthNumber : Z) (token : string) :
  -1 <= monthNumber <= 12 ->
  (monthNumber = -1 ->
   month_lookup MONTH_MAP (JS.substringFrom 2 token) <> None) ->
  WebView.tripDate year monthNumber token = reconstructed year monthNumber token.
Proof.
  intros Hm Hknown.
  unfold WebView.tripDate, reconstructed, resolveMonth.
  destruct (month_lookup MONTH_MAP (JS.substringFrom 2 token)) as [v|] eqn:E.
  - apply month_lookup_range in E.
    destruct (pad_month v ltac:(lia)) as [_ ->]. reflexivity.
  - assert (monthNumber <> -1) by (intros ->; now apply Hknown).
    destruct (pad_month monthNumber ltac:(lia)) as [_ ->]. reflexivity.
Qed.

(** X27: the date of a trip, where the month resolves.  With a
    reference month number from -1 to 12, and unless the reference month
    is -1 (the heading's month word is no month name) while the token's
    letters are no month abbreviation either, both date builders return
    the year, "-", the resolved month as two zero-padded digits, "-" and
    the token's first two characters; the year is the reference year
    plus one when the resolved month number is below the reference month
    number and the reference year otherwise. *)
Theorem X27_trip_date (year monthNumber : Z) (token : string) :
  -1 <= monthNumber <= 12 ->
  (monthNumber = -1 ->
   month_lookup MONTH_MAP (JS.substringFrom 2 token) <> None) ->
  Server.tripDate year monthNumber token = reconstructed year monthNumber token /\
  WebView.tripDate year monthNumber token = reconstructed year monthNumber token.
Proof.
  intros Hm Hknown. split.
  - now apply server_tripDate_reconstructed.
  - now apply webview_tripDate_reconstructed.
Qed.

Lemma X27_trip_date_witness :
  Server.tripDate 2026 2 "01MAR" = "2026-03-01" /\
  WebView.tripDate 2025 12 "03JAN" = "2026-01-03".
Proof.
  split.
  - rewrite (proj1 (X27_trip_date 2026 2 "01MAR" ltac:(lia) ltac:(discriminate))).
    reflexivity.
  - rewrite (proj2 (X27_trip_date 2025 12 "03JAN" ltac:(lia) ltac:(discriminate))).
    reflexivity.
Defined.

(** The dates of emitted trips: the token is two digits and three
    capitals, so the day of the date is the token's two digits and the
    month table is asked for three capitals. *)
Lemma emitted_trip_date (table : Dom.node) (year monthNumber : Z) (t : Trip) :
  Server.parseTrip table year monthNumber = Some t \/
  WebView.parseTrip table year monthNumber = Some (Some t) ->
  -1 <= monthNumber <= 12 ->
  (monthNumber = -1 ->
   month_lookup MONTH_MAP (JS.substringFrom 2 (dateStr t)) <> None) ->
  date t = reconstructed year monthNumber (dateStr t) /\
  RegexSpec.is_date_token (dateStr t).
Proof.
  intros [H|H] Hm Hk.
  - destruct (server_parseTrip table year monthNumber) as [_ Ht].
    destruct (Ht t H) as (_ & -> & Htok). split; [|exact Htok].
    now apply server_tripDate_reconstructed.
  - destruct (webview_parseTrip table year monthNumber) as (r & Hr & _ & Ht).
    rewrite Hr in H. injection H as ->.
    destruct (Ht t eq_refl) as (_ & -> & Htok). split; [|exact Htok].
    now apply webview_tripDate_reconstructed.
Qed.

(** C6 fails on the code.  The heading of [Examples.foreignPage] has a
    month word that is no English month name, so the reference month
    number is -1, and the letters of the trip's date token 01ENE are no
    month abbreviation, so the month resolves to -1.  The trip is emitted
    all the same, and its date is not of the form YYYY-MM-DD: the server
    pads -1 with [padStart] to "-1" and emits 2026--1-01, the script's
    [pad2] gives "0-1" and it emits 2026-0-1-01.  Neither month field is
    two digits. *)
Theorem C6_month_field_not_two_digits :
  h_year (Server.parseHeader 2026 Examples.foreignPage) = 2026 /\
  h_monthNumber (Server.parseHeader 2026 Examples.foreignPage) = -1 /\
  month_lookup MONTH_MAP (JS.substringFrom 2 "01ENE") = None /\
  tripDates (items (Server.parseScheduleDetail 2026 Examples.foreignPage))
    = ["2026--1-01"] /\
  option_map (fun r => tripDates (items r))
    (WebView.parseScheduleDetail 2026 Examples.foreignPage)
    = Some ["2026-0-1-01"] /\
  Server.tripDate 2026 (-1) "01ENE" = "2026--1-01" /\
  WebView.tripDate 2026 (-1) "01ENE" = "2026-0-1-01" /\
  ~ (exists d1 d2 : ascii,
       JS.is_digit d1 = true /\ JS.is_digit d2 = true /\
       (Server.tripDate 2026 (-1) "01ENE"
        = ("2026-" ++ String d1 (String d2 "-01"))%string \/
        WebView.tripDate 2026 (-1) "01ENE"
        = ("2026-" ++ String d1 (String d2 "-01"))%string)).
Proof.
  do 7 (split; [vm_compute; reflexivity|]).
  intros (d1 & d2 & H1 & _ & [H|H]); vm_compute in H.
  - injection H as H _. rewrite <- H in H1. discriminate H1.
  - discriminate H.
Qed.

End DateClaims.

(* ------------------------------------------------------------------ *)
(** ** Degraded documents *)

Section DegradedDocuments.
Import Dom Patterns.

Lemma webview_calendarRow row :
  WebView.calendarRow row = Some (Server.calendarRow row).
Proof.
  unfold WebView.calendarRow, Server.calendarRow.
  destruct (length (find "td" row) <? 4)%nat eqn:E; [reflexivity|].
  apply Nat.ltb_ge in E.
  rewrite !webview_cellText_in_range by lia. cbn [WebView.bind].
  destruct (_ || _); [reflexivity|].
  destruct (JS.parseInt _); [|reflexivity].
  destruct (getAttribute "bgcolor" row); reflexivity.
Qed.

Lemma webview_activityRow type acc row :
  WebView.activityRow type acc row = Some (Server.activityRow type acc row).
Proof.
  unfold WebView.activityRow, Server.activityRow.
  destruct (6 <=? length (find "td" row))%nat eqn:E; [|reflexivity].
  apply Nat.leb_le in E.
  rewrite !webview_cellText_in_range by lia. cbn [WebView.bind].
  destruct (String.eqb _ type); reflexivity.
Qed.

Lemma webview_parseActivity table :
  WebView.parseActivity table = Some (Server.parseActivity table).
Proof.
  unfold WebView.parseActivity, Server.parseActivity.
  replace (match first (find "font" table) with
           | Some e => JS.trim (textContent e)
           | None => ""
           end)
    with (JS.trim (Server.text (first (find "font" table))))
    by (destruct (first (find "font" table)); reflexivity).
  destruct (Regex.exec reActivity _) as [m|]; [|reflexivity].
  rewrite (foldM_some _ (Server.activityRow (Regex.group 1 m)))
    by (intros; apply webview_activityRow).
  cbn [WebView.bind].
  destruct (fold_left _ _ _) as [[[[a b] c] d0] e]. reflexivity.
Qed.

Lemma webview_scheduleItem_total year monthNumber tbl :
  exists l, WebView.scheduleItem year monthNumber tbl = Some l /\
            (webviewClassify tbl <> TripBlock ->
             webviewClassify tbl <> ActivityBlock -> l = []).
Proof.
  unfold WebView.scheduleItem, webviewClassify.
  destruct (WebView.isSeparator tbl); [eauto|].
  destruct (WebView.isTripTable tbl).
  - destruct (webview_parseTrip tbl year monthNumber) as (r & -> & _).
    cbn [WebView.bind]. destruct r; eexists; (split; [reflexivity|]); congruence.
  - destruct (WebView.isActivityTable tbl); [|eauto].
    rewrite webview_parseActivity. cbn [WebView.bind].
    destruct (Server.parseActivity tbl); eexists; (split; [reflexivity|]); congruence.
Qed.

Lemma webview_items_total year monthNumber (tables : list node) :
  exists l, WebView.flatMapM (WebView.scheduleItem year monthNumber) tables = Some l /\
            (noBlocks webviewClassify tables -> l = []).
Proof.
  induction tables as [|t tables IH]; [cbn; eauto|].
  destruct (webview_scheduleItem_total year monthNumber t) as (l1 & H1 & E1).
  destruct IH as (l2 & H2 & E2).
  cbn [WebView.flatMapM]. rewrite H1. cbn [WebView.bind]. rewrite H2.
  cbn [WebView.bind]. eexists. split; [reflexivity|].
  intros Hno. rewrite E1, E2; [reflexivity| |apply (Hno t); now left
                                |apply (Hno t); now left].
  intros t' Ht'. apply Hno. now right.
Qed.

Lemma server_items_none year monthNumber (tables : list node) :
  noBlocks serverClassify tables ->
  flat_map (Server.scheduleItem year monthNumber) tables = [].
Proof.
  induction tables as [|t tables IH]; intros Hno; [reflexivity|].
  cbn [flat_map]. rewrite IH by (intros t' Ht'; apply Hno; now right).
  destruct (Hno t (or_introl eq_refl)) as [Ht Ha].
  unfold serverClassify in Ht, Ha. unfold Server.scheduleItem.
  destruct (Server.isSeparator t); [reflexivity|].
  destruct (Server.isTripTable t); [congruence|].
  destruct (Server.isActivityTable t); [congruence|reflexivity].
Qed.

Lemma summary_no_hits rows : forall acc,
  noSummaryHits rows -> fold_left Server.summaryRow rows acc = acc.
Proof.
  induction rows as [|r rows IH]; intros acc Hno; [reflexivity|].
  cbn [fold_left].
  assert (Hr : Server.summaryRow acc r = acc).
  { pose proof (Hno r (or_introl eq_refl)) as H. unfold summaryHit in H.
    destruct (summaryEntry r) as [[l v]|] eqn:E.
    - rewrite (summaryRow_entry acc r l v E).
      apply orb_false_iff in H as [H H4]. apply orb_false_iff in H as [H H3].
      apply orb_false_iff in H as [H1 H2]. now rewrite H1, H2, H3, H4.
    - now apply summaryRow_no_entry. }
  rewrite Hr. apply IH. intros r' Hr'. apply Hno. now right.
Qed.

Lemma header_without_heading currentYear doc :
  noHeading doc ->
  Server.parseHeader currentYear doc = mkHeaderInfo "" 0 currentYear "" "" "".
Proof.
  unfold noHeading, Server.parseHeader. intros ->. reflexivity.
Qed.

Lemma webview_parseHeader currentYear doc :
  WebView.parseHeader currentYear doc = Server.parseHeader currentYear doc.
Proof. reflexivity. Qed.

(** C9, as the code has it.  [parseScheduleDetail] always returns a
    record (the server function is total; the script never throws).  For
    a document with no heading element, month, crewMemberName,
    employeeNumber and lastUpdated are empty strings.  For a document in
    which no content table classifies as a trip or activity block, the
    items list is empty.  The summary comes from the sidebar, not from
    the content tables: it is all zeros when no sidebar row sets a
    total. *)
Theorem C9_degraded_documents (currentYear : Z) (doc : node) :
  (noHeading doc -> headerFieldsEmpty (Server.parseScheduleDetail currentYear doc)) /\
  (noBlocks serverClassify (Server.allTables doc) ->
   items (Server.parseScheduleDetail currentYear doc) = []) /\
  (noSummaryHits (Server.table2Rows doc) ->
   summary (Server.parseScheduleDetail currentYear doc) = Server.summaryZero) /\
  exists r, WebView.parseScheduleDetail currentYear doc = Some r /\
    (noHeading doc -> headerFieldsEmpty r) /\
    (noBlocks webviewClassify (WebView.allTables doc) -> items r = []) /\
    (noSummaryHits (webviewTable2Rows doc) -> summary r = WebView.summaryZero).
Proof.
  split; [|split; [|split]].
  - intros H. unfold Server.parseScheduleDetail, headerFieldsEmpty.
    rewrite (header_without_heading currentYear doc H). cbn. auto.
  - intros H. cbn. now apply server_items_none.
  - intros H. cbn. unfold Server.parseSummary. now apply summary_no_hits.
  - unfold WebView.parseScheduleDetail.
    assert (Hc : exists c, WebView.parseCalendar doc = Some c).
    { unfold WebView.parseCalendar. destruct (WebView.table2 doc); [|eauto].
      rewrite (flatMapM_some _ Server.calendarRow)
        by (intros; apply webview_calendarRow). eauto. }
    destruct Hc as [c ->]. cbn [WebView.bind].
    unfold WebView.parseScheduleItems.
    destruct (webview_items_total
                (h_year (WebView.parseHeader currentYear doc))
                (h_monthNumber (WebView.parseHeader currentYear doc))
                (WebView.allTables doc)) as (l & -> & Hl).
    cbn [WebView.bind].
    assert (Hs : WebView.parseSummary doc =
                 Some (fold_left Server.summaryRow (webviewTable2Rows doc)
                         WebView.summaryZero)).
    { unfold WebView.parseSummary, webviewTable2Rows.
      destruct (WebView.table2 doc); [|reflexivity].
      apply foldM_some, webview_summaryRow. }
    rewrite Hs. cbn [WebView.bind]. eexists. split; [reflexivity|].
    split; [|split].
    + intros H. rewrite webview_parseHeader, (header_without_heading _ _ H).
      unfold headerFieldsEmpty. cbn. auto.
    + exact Hl.
    + intros H. cbn. now apply summary_no_hits.
Qed.

Lemma C9_degraded_documents_witness :
  headerFieldsEmpty (Server.parseScheduleDetail 2026 Examples.emptyPage) /\
  items (Server.parseScheduleDetail 2026 Examples.emptyPage) = [] /\
  summary (Server.parseScheduleDetail 2026 Examples.emptyPage) = Server.summaryZero.
Proof.
  destruct (C9_degraded_documents 2026 Examples.emptyPage) as (Hh & Hi & Hs & _).
  split; [apply Hh; reflexivity|].
  split; [apply Hi; intros t []|apply Hs; intros r []].
Defined.

(** C9 as stated fails in its last part: a page whose content panel has
    no trip or activity block at all, but whose sidebar carries totals,
    yields a summary that is not all zeros. *)
Lemma C9_summary_not_zero_without_blocks :
  noBlocks serverClassify (Server.allTables Examples.sidebarPage) /\
  items (Server.parseScheduleDetail 2026 Examples.sidebarPage) = [] /\
  block (summary (Server.parseScheduleDetail 2026 Examples.sidebarPage))
    = JSNumber.Finite (44 # 1) /\
  summary (Server.parseScheduleDetail 2026 Examples.sidebarPage)
    <> Server.summaryZero.
Proof.
  split; [intros t []|]. split; [reflexivity|]. split; [reflexivity|].
  intros H. apply (f_equal block) in H. vm_compute in H. discriminate H.
Qed.

End DegradedDocuments.

(* ------------------------------------------------------------------ *)
(** ** The two parsers compared *)

Section TwoParsers.
Import Dom.

(** C1 fails on the code.  On [Examples.foreignPage] the heading's month
    word is not in [MONTH_NAMES] (month number -1) and the trip's month
    letters are not in [MONTH_MAP], so the month of the date is -1: the
    server pads it with [padStart] to "-1", the script's [pad2] to "0-1".
    The two records differ in the trip's [date]. *)
Theorem C1_parsers_differ_on_date (currentYear : Z) :
  tripDates (items (Server.parseScheduleDetail currentYear Examples.foreignPage))
    = ["2026--1-01"] /\
  option_map (fun r => tripDates (items r))
    (WebView.parseScheduleDetail currentYear Examples.foreignPage)
    = Some ["2026-0-1-01"] /\
  WebView.parseScheduleDetail currentYear Examples.foreignPage
    <> Some (Server.parseScheduleDetail currentYear Examples.foreignPage).
Proof.
  assert (HS : tripDates (items (Server.parseScheduleDetail currentYear
                                   Examples.foreignPage)) = ["2026--1-01"])
    by (vm_compute; reflexivity).
  assert (HW : option_map (fun r => tripDates (items r))
                 (WebView.parseScheduleDetail currentYear Examples.foreignPage)
               = Some ["2026-0-1-01"])
    by (vm_compute; reflexivity).
  split; [exact HS|]. split; [exact HW|].
  intros E. rewrite E in HW. cbn [option_map] in HW. rewrite HS in HW.
  discriminate HW.
Qed.

(** A second difference: the server reads the rows of every table that
    has the id or the name "table2", the script those of the first
    element with that id only. *)
Lemma parsers_differ_on_sidebar (currentYear : Z) :
  block (summary (Server.parseScheduleDetail currentYear Examples.twoSidebarsPage))
    = JSNumber.Finite (2159 # 50) /\
  option_map (fun r => block (summary r))
    (WebView.parseScheduleDetail currentYear Examples.twoSidebarsPage)
    = Some JSNumber.zero.
Proof. split; vm_compute; reflexivity. Qed.

(** Where the two agree by construction: the duty-period loop bodies are
    the same function of the class test, and on rows whose class
    attribute has no vertical tab or no-break space the two tests agree. *)
Lemma duty_rows_agree (st : DPState) (row : node) :
  (forall cls, Server.hasClass cls row = WebView.hasClass cls row) ->
  WebView.dutyRow st row = Some (Server.dutyRow st row).
Proof.
  intros H. rewrite webview_step, server_step.
  unfold DutyMachine.step. now rewrite !H.
Qed.

End TwoParsers.

(* ================================================================== *)
(** * Further properties *)

(* ------------------------------------------------------------------ *)
(** ** The duty-period loop: legs, shape and layovers *)

Section DutyLoopMore.
Import Dom Patterns DutyMachine.
Variable hasClass : string -> node -> bool.

Local Abbreviation step := (DutyMachine.step hasClass).
Local Abbreviation isLegRow := (DutyMachine.isLegRow hasClass).





(** The shape of the state: the periods emitted so far were all closed at
    a boundary. *)
Lemma step_closed st row :
  Forall closed_at_boundary (st_dutyPeriods st) ->
  Forall closed_at_boundary (st_dutyPeriods (step st row)).
Proof.
  intros Inv. destruct (isLegRow row) eqn:E.
  - destruct (step_leg_row hasClass st row E) as [_ H].
    destruct (boundary st _) eqn:B; destruct H as [-> _]; [|exact Inv].
    apply Forall_app. split; [exact Inv|]. constructor; [|constructor].
    unfold closed_at_boundary. cbn. repeat split; auto.
    unfold boundary in B. apply andb_prop in B as [_ B].
    destruct (st_currentLayover st); [discriminate|discriminate].
  - destruct (step_other_row hasClass st row E) as [-> _]. exact Inv.
Qed.

Lemma step_legs_before_periods st row :
  legs_before_periods st -> legs_before_periods (step st row).
Proof.
  unfold legs_before_periods. intros Inv. destruct (isLegRow row) eqn:E.
  - destruct (step_leg_row hasClass st row E) as [_ H].
    destruct (boundary st _); destruct H as [_ ->]; [discriminate|].
    intros Hnil. apply app_eq_nil in Hnil as [_ Hnil]. discriminate.
  - destruct (step_other_row hasClass st row E) as [-> ->]. exact Inv.
Qed.

Lemma fold_shape rows : forall st,
  Forall closed_at_boundary (st_dutyPeriods st) -> legs_before_periods st ->
  periods_shape (dpFinish (fold_left step rows st)).
Proof.
  induction rows as [|r rows IH]; intros st Hc Hl; cbn [fold_left].
  - unfold dpFinish, periods_shape.
    destruct (st_currentLegs st) as [|l ls] eqn:E.
    + left. now apply Hl.
    + right. eexists _, _. split; [reflexivity|]. split; [reflexivity|exact Hc].
  - apply IH; [now apply step_closed|now apply step_legs_before_periods].
Qed.

Lemma run_shape rows : periods_shape (dpFinish (fold_left step rows dpInit)).
Proof. apply fold_shape; [constructor|easy]. Qed.

End DutyLoopMore.

Section DutyLoopExtras.
Import Dom Patterns DutyMachine.


(** X2. In the emitted list every duty period but the last carries a
    layover and empty totals (it was closed at a boundary), and the last
    one has no layover: the four duty-period totals read from "Total:"
    rows only ever reach the last period, and a layover opened by the
    last leg is dropped.  For both parsers. *)
Theorem X2_periods_shape (tripTable : node) :
  periods_shape (Server.parseDutyPeriods tripTable) /\
  exists l, WebView.parseDutyPeriods tripTable = Some l /\ periods_shape l.
Proof.
  split.
  - unfold Server.parseDutyPeriods.
    destruct (Server.flightTable tripTable); [|now left].
    rewrite server_fold. apply run_shape.
  - rewrite webview_parseDutyPeriods. eexists. split; [reflexivity|].
    destruct (WebView.flightTable tripTable); [|now left]. apply run_shape.
Qed.

Lemma trimEnd_single (t : string) (c : ascii) :
  JS.trimEnd t = String c "" -> JS.is_space c = false.
Proof.
  induction t as [|a r IH]; [discriminate|]. cbn [JS.trimEnd].
  destruct (JS.trimEnd r) as [|x y].
  - destruct (JS.is_space a) eqn:E; [discriminate|]. now intros [= <-].
  - discriminate.
Qed.

(** The trimmed text of a cell is never a lone no-break space. *)
Lemma trim_not_nbsp (s : string) : JS.trim s <> String (ascii_of_nat 160) "".
Proof.
  intros H. apply trimEnd_single in H. discriminate H.
Qed.

(** X3. A leg is a deadhead exactly when the trimmed text of its third
    cell is non-empty.  The source's second test, against a lone
    no-break space, never decides: trimming has already removed it, so a
    marker cell holding only [&nbsp;] is not a deadhead.  The script
    builds the same leg from a row of at least ten cells. *)
Theorem X3_deadhead_flag (cells : list node) :
  leg_isDeadhead (Server.legOfCells cells) = JS.truthy (Server.cellText cells 2) /\
  ((10 <= length cells)%nat ->
   WebView.legOfCells cells = Some (Server.legOfCells cells)).
Proof.
  split; [|apply webview_legOfCells].
  unfold Server.legOfCells. cbn [leg_isDeadhead].
  set (dh := Server.cellText cells 2).
  assert (Hn : String.eqb dh (String (ascii_of_nat 160) "") = false).
  { apply String.eqb_neq. apply trim_not_nbsp. }
  rewrite Hn, andb_true_r. now destruct dh.
Qed.

Lemma X3_deadhead_flag_witness :
  leg_isDeadhead (Server.legOfCells (find "td" Examples.nbspLegRow)) = false /\
  WebView.legOfCells (find "td" Examples.nbspLegRow)
    = Some (Server.legOfCells (find "td" Examples.nbspLegRow)).
Proof.
  split.
  - rewrite (proj1 (X3_deadhead_flag _)). reflexivity.
  - apply (proj2 (X3_deadhead_flag _)). cbn. lia.
Defined.

End DutyLoopExtras.

(* ------------------------------------------------------------------ *)
(** ** Layovers are well formed *)

Section LayoverShape.
Import Dom Patterns DutyMachine Regex RegexSpec.

Lemma matches_four_digits (t : string) : matches (times 4 d) t -> is_hhmm t.
Proof.
  cbn [times]. intros H.
  apply matches_class_cat in H as (a & t1 & -> & Ha & H).
  apply matches_class_cat in H as (b & t2 & -> & Hb & H).
  apply matches_class_cat in H as (c & t3 & -> & Hc & H).
  apply matches_class in H as (e & -> & He).
  exists a, b, c, e. auto.
Qed.

Lemma matches_three_capitals (t : string) : matches (times 3 AZ) t -> is_airport t.
Proof.
  cbn [times]. intros H.
  apply matches_class_cat in H as (a & t1 & -> & Ha & H).
  apply matches_class_cat in H as (b & t2 & -> & Hb & H).
  apply matches_class in H as (c & -> & Hc).
  exists a, b, c. auto.
Qed.

Lemma matches_local_time (t : string) :
  matches localTime t -> exists h, is_hhmm h /\ (t = h \/ t = (h ++ "L")%string).
Proof.
  unfold localTime, opt. intros H.
  inversion H as [| | | |? ? a b Ha Hb| | | | | | |]; subst.
  apply matches_four_digits in Ha. exists a. split; [exact Ha|].
  inversion Hb as [| | | | |? ? ? HL|? ? ? HE| | | | |]; subst.
  - inversion HL; subst. now right.
  - inversion HE; subst. left.
    destruct Ha as (x & y & z & w & -> & _). reflexivity.
Qed.

Lemma layover_groups (s : string) (m : matched) :
  exec reLayover s = Some m -> is_airport (group 1 m) /\ is_hhmm (group 2 m).
Proof.
  intros H.
  assert (Hg : groups_ok (fun i t => (i = 1%nat -> is_airport t) /\
                                     (i = 2%nat -> is_hhmm t)) reLayover).
  { cbn. repeat split; auto; try discriminate; intros _.
    - now apply matches_three_capitals.
    - now apply matches_four_digits. }
  split.
  - exact (proj1 (exec_sound _ _ 1 Hg eq_refl _ _ _ H) eq_refl).
  - exact (proj2 (exec_sound _ _ 2 Hg eq_refl _ _ _ H) eq_refl).
Qed.

Lemma dend_group (s : string) (m : matched) :
  exec reDend s = Some m -> is_local_time_or_empty (group 1 m).
Proof.
  intros H. right. apply matches_local_time.
  assert (Hg : groups_ok (fun i t => i = 1%nat -> matches localTime t) reDend)
    by (cbn; intuition auto).
  exact (exec_sound _ _ 1 Hg eq_refl _ _ _ H eq_refl).
Qed.

Lemma rept_group (s : string) :
  is_local_time_or_empty (Server.groupOr 1 (exec reRept s)).
Proof.
  destruct (exec reRept s) as [m|] eqn:H; [|now left].
  right. apply matches_local_time.
  assert (Hg : groups_ok (fun i t => i = 1%nat -> matches localTime t) reRept)
    by (cbn; intuition auto).
  exact (exec_sound _ _ 1 Hg eq_refl _ _ _ H eq_refl).
Qed.

Variable hasClass : string -> node -> bool.
Local Abbreviation step := (DutyMachine.step hasClass).

Lemma step_layovers_ok st row : layovers_ok st -> layovers_ok (step st row).
Proof.
  unfold layovers_ok. intros [Hc Hp]. unfold DutyMachine.step.
  destruct (hasClass "main" row); [auto|].
  destruct (hasClass "bold" row); [auto|].
  destruct (hasClass "nowrap" row).
  - destruct (length (find "td" row) <? 10)%nat; [auto|]. cbv zeta.
    set (lastText := Server.cellText _ _).
    assert (Hnew : forall cur, option_layover_well_formed cur ->
              option_layover_well_formed
                match exec reLayover lastText with
                | Some m => Some (mkLayover (group 1 m) (group 2 m) "" "" "" "")
                | None => cur
                end).
    { intros cur Hcur. destruct (exec reLayover lastText) as [m|] eqn:E; [|exact Hcur].
      destruct (layover_groups _ _ E) as [Ha Hr].
      cbn. unfold layover_well_formed. cbn. repeat split; auto; now left. }
    destruct (boundary st _); cbn [st_currentLayover st_dutyPeriods].
    + split; [apply Hnew; exact I|].
      apply Forall_app. split; [exact Hp|]. constructor; [exact Hc|constructor].
    + split; [apply Hnew; exact Hc|exact Hp].
  - destruct (exec reDend _) as [dm|] eqn:E; [|auto].
    destruct (st_currentLayover st) as [lay|] eqn:El; [|rewrite El; auto].
    cbn [st_currentLayover st_dutyPeriods]. split; [|exact Hp].
    match goal with
    | |- option_layover_well_formed (Some (foldi _ 0 ?cells ?l1)) =>
        destruct (hotel_scan cells l1) as ((_ & _ & Ha & Hr) & Hd & He)
    end.
    unfold option_layover_well_formed, layover_well_formed.
    rewrite Ha, Hr, Hd, He. cbn [airport restTime dutyEndLocal reportLocal].
    destruct Hc as (Hc1 & Hc2 & _). repeat split; auto.
    + exact (dend_group _ _ E).
    + apply rept_group.
Qed.

Lemma run_layovers_ok rows :
  Forall (fun dp => option_layover_well_formed (layover dp))
         (dpFinish (fold_left step rows dpInit)).
Proof.
  assert (H : forall st, layovers_ok st -> layovers_ok (fold_left step rows st)).
  { induction rows as [|r rows IH]; intros st Hst; [exact Hst|].
    cbn [fold_left]. apply IH, step_layovers_ok, Hst. }
  specialize (H dpInit (conj I (Forall_nil _))).
  unfold dpFinish. destruct H as [_ H].
  destruct (st_currentLegs _); [exact H|].
  apply Forall_app. split; [exact H|]. constructor; [exact I|constructor].
Qed.

End LayoverShape.

Section LayoverExtras.
Import Dom.

(** X4. Every layover attached to an emitted duty period is well formed:
    its airport is three capital letters and its restTime four digits
    (the two groups of the layover pattern), and its dutyEndLocal and
    reportLocal are each either empty or four digits with an optional
    "L".  For both parsers. *)
Theorem X4_layovers_well_formed (tripTable : node) :
  Forall (fun dp => option_layover_well_formed (layover dp))
         (Server.parseDutyPeriods tripTable) /\
  exists l, WebView.parseDutyPeriods tripTable = Some l /\
            Forall (fun dp => option_layover_well_formed (layover dp)) l.
Proof.
  split.
  - unfold Server.parseDutyPeriods.
    destruct (Server.flightTable tripTable); [|constructor].
    rewrite server_fold. apply run_layovers_ok.
  - rewrite webview_parseDutyPeriods. eexists. split; [reflexivity|].
    destruct (WebView.flightTable tripTable); [|constructor].
    apply run_layovers_ok.
Qed.

End LayoverExtras.

(* ------------------------------------------------------------------ *)
(** ** The header *)

Section HeaderExtras.
Import Dom Patterns Regex RegexSpec.

Lemma matches_star_class g (p : ascii -> bool) (t : string) :
  matches (Star g (Class p)) t -> string_forall p t = true.
Proof.
  intros H. remember (Star g (Class p)) as r eqn:E.
  induction H as [| | | | | | | |g' r' a b Ha _ Hb IHb| | |]; try discriminate E.
  - reflexivity.
  - injection E as -> ->. apply matches_class in Ha as (c & -> & Hc).
    cbn. rewrite Hc. now apply IHb.
Qed.

Lemma matches_plus_class (p : ascii -> bool) (t : string) :
  matches (plus (Class p)) t -> nonempty_run p t.
Proof.
  unfold plus. intros H.
  apply matches_class_cat in H as (c & t' & -> & Hc & H).
  apply matches_star_class in H. split; [discriminate|]. cbn. now rewrite Hc, H.
Qed.

Lemma indexOf_month (x : string) :
  -1 <= JS.indexOf MONTH_NAMES x <= 12 /\
  (JS.indexOf MONTH_NAMES x = 0 <-> x = "") /\
  (0 <= JS.indexOf MONTH_NAMES x ->
   nth (Z.to_nat (JS.indexOf MONTH_NAMES x)) MONTH_NAMES "" = x).
Proof.
  unfold JS.indexOf, MONTH_NAMES. cbn [JS.indexOf_from].
  destruct (String.eqb "" x) eqn:E0.
  { apply String.eqb_eq in E0. subst x.
    split; [cbn; lia|]. split; [cbn; tauto|intros _; reflexivity]. }
  apply String.eqb_neq in E0.
  repeat (match goal with
          | |- context [String.eqb ?a x] =>
              let E := fresh "E" in
              destruct (String.eqb a x) eqn:E;
              [apply String.eqb_eq in E; subst x; cbn;
               (split; [lia|]); (split;
                 [split; intros; (lia || discriminate)|intros _; reflexivity])|]
          end).
  split; [lia|]. split; [split; intros; (lia || congruence)|intros; lia].
Qed.

Lemma digit_val_range (c : ascii) : JS.is_digit c = true -> 0 <= JS.digit_val c <= 9.
Proof.
  destruct c as [[] [] [] [] [] [] [] []]; vm_compute; intros H;
    try discriminate H; split; discriminate.
Qed.

Lemma hhmm_number (t : string) :
  is_hhmm t -> exists y, JS.parseInt t = Some y /\ 0 <= y <= 9999.
Proof.
  intros (a & b & c & e & -> & Ha & Hb & Hc & He).
  unfold JS.parseInt. destruct (digit_not_space a Ha) as (Hs & Hm & Hp).
  cbn [JS.trimStart]. rewrite Hs, Hm, Hp, Ha. eexists. split; [reflexivity|].
  cbn [JS.digits_acc]. rewrite Ha, Hb, Hc, He.
  pose proof (digit_val_range a Ha). pose proof (digit_val_range b Hb).
  pose proof (digit_val_range c Hc). pose proof (digit_val_range e He). lia.
Qed.

Lemma year_group (s : string) (m : matched) :
  exec reYear s = Some m -> is_hhmm (group 1 m).
Proof.
  intros H.
  assert (Hg : groups_ok (fun i t => i = 1%nat -> matches (times 4 d) t) reYear)
    by (cbn; intuition auto).
  apply matches_four_digits.
  exact (exec_sound _ _ 1 Hg eq_refl _ _ _ H eq_refl).
Qed.

Lemma month_group (s : string) (m : matched) :
  exec reMonth s = Some m -> nonempty_run JS.is_word (group 1 m).
Proof.
  intros H.
  assert (Hg : groups_ok (fun i t => i = 1%nat -> matches (plus w) t) reMonth)
    by (cbn; intuition auto).
  apply matches_plus_class.
  exact (exec_sound _ _ 1 Hg eq_refl _ _ _ H eq_refl).
Qed.

Lemma name_group (s : string) (m : matched) :
  exec reName s = Some m -> nonempty_run JS.is_digit (group 2 m).
Proof.
  intros H.
  assert (Hg : groups_ok (fun i t => i = 2%nat -> matches (plus d) t) reName)
    by (cbn; intuition (auto; discriminate)).
  apply matches_plus_class.
  exact (exec_sound _ _ 2 Hg eq_refl _ _ _ H eq_refl).
Qed.

(** X5. The header extractor always returns a well-formed header: the
    month number is between -1 and 12 (so the range the date builder is
    proved for is the one it is called with), it is 0 exactly when no
    month word was found, and when it is not -1 the entry of MONTH_NAMES
    at that index is the month; the year is the current year or the
    number of four digits (0..9999); the month is made of word characters
    and the employee number of digits.  The script computes the same
    header. *)
Theorem X5_header_well_formed (currentYear : Z) (doc : node) :
  header_well_formed currentYear (Server.parseHeader currentYear doc) /\
  WebView.parseHeader currentYear doc = Server.parseHeader currentYear doc.
Proof.
  split; [|reflexivity].
  unfold header_well_formed, Server.parseHeader.
  cbn [h_monthNumber h_month h_year h_employeeNumber].
  set (h3Text := Server.text _).
  destruct (indexOf_month (Server.groupOr 1 (exec reMonth h3Text))) as (H1 & H2 & H3).
  split; [exact H1|]. split; [exact H2|]. split; [exact H3|]. split; [|split].
  - destruct (exec reYear _) as [m|] eqn:E; [|now left]. right.
    destruct (hhmm_number _ (year_group _ _ E)) as (y & -> & Hy). exact Hy.
  - destruct (exec reMonth h3Text) as [m|] eqn:E; [|reflexivity].
    exact (proj2 (month_group _ _ E)).
  - destruct (exec reName h3Text) as [m|] eqn:E; [|reflexivity].
    exact (proj2 (name_group _ _ E)).
Qed.

End HeaderExtras.

(* ------------------------------------------------------------------ *)
(** ** The calendar *)

Section CalendarExtras.
Import Dom.

Lemma calendarRow_entry (row : node) (day : CalendarDay) :
  In day (Server.calendarRow row) -> calendar_entry_of_row row day.
Proof.
  unfold Server.calendarRow, calendar_entry_of_row.
  destruct (length (find "td" row) <? 4)%nat eqn:E; [intros []|].
  apply Nat.ltb_ge in E.
  destruct (negb _ || negb _) eqn:Et; [intros []|].
  apply orb_false_iff in Et as [Et1 Et2].
  apply negb_false_iff in Et1, Et2. apply truthy_iff in Et1.
  destruct (JS.parseInt _) as [n|]; [|intros []].
  intros [<-|[]]. cbn. repeat split; auto.
  - destruct (getAttribute "bgcolor" row) as [v|]; [|discriminate].
    intros H. apply String.eqb_eq in H. eauto.
  - intros (v & -> & Hv). now apply String.eqb_eq.
Qed.

Lemma calendarRow_at_most_one (row : node) : (length (Server.calendarRow row) <= 1)%nat.
Proof.
  unfold Server.calendarRow.
  destruct (_ <? _)%nat; [cbn; lia|]. destruct (_ || _); [cbn; lia|].
  destruct (JS.parseInt _); cbn; lia.
Qed.

Lemma flat_map_length_le {A B : Type} (f : A -> list B) (l : list A) :
  (forall x, (length (f x) <= 1)%nat) -> (length (flat_map f l) <= length l)%nat.
Proof.
  intros H. induction l as [|x l IH]; [cbn; lia|].
  cbn [flat_map]. rewrite length_app. specialize (H x). cbn [length]. lia.
Qed.

Lemma calendar_entries (rows : list node) (day : CalendarDay) :
  In day (flat_map Server.calendarRow rows) ->
  exists row, In row rows /\ calendar_entry_of_row row day.
Proof.
  intros H. apply in_flat_map in H as (row & Hr & Hd).
  exists row. split; [exact Hr|now apply calendarRow_entry].
Qed.

(** X6. Every calendar entry comes from a sidebar row with at least four
    cells: its dayOfWeek is the row's first cell and is not empty, its
    dayOfMonth is the integer parsed from the second cell, activity and
    layoverAirport are the third and fourth cells, and isWeekend holds
    exactly when the row's bgcolor attribute is "lightsteelblue" up to
    case.  There is at most one entry per row.  The script returns the
    entries of the rows it scans, read the same way, and never throws. *)
Theorem X6_calendar_entries (doc : node) :
  (forall day, In day (Server.parseCalendar doc) ->
     exists row, In row (Server.table2Rows doc) /\ calendar_entry_of_row row day) /\
  (length (Server.parseCalendar doc) <= length (Server.table2Rows doc))%nat /\
  exists cal, WebView.parseCalendar doc = Some cal /\
    cal = flat_map Server.calendarRow (webviewTable2Rows doc) /\
    (forall day, In day cal ->
       exists row, In row (webviewTable2Rows doc) /\ calendar_entry_of_row row day).
Proof.
  split; [intros day; apply calendar_entries|].
  split; [apply flat_map_length_le, calendarRow_at_most_one|].
  unfold WebView.parseCalendar, webviewTable2Rows.
  destruct (WebView.table2 doc) as [t|].
  - rewrite (flatMapM_some _ Server.calendarRow)
      by (intros; apply webview_calendarRow).
    eexists. split; [reflexivity|]. split; [reflexivity|].
    intros day. apply calendar_entries.
  - exists []. split; [reflexivity|]. split; [reflexivity|]. intros day [].
Qed.

Lemma X6_calendar_entries_witness :
  exists row, In row (Server.table2Rows Examples.sidebarPage) /\
              calendar_entry_of_row row (mkCalendarDay "SU" 1 "O4031" "BOS" false).
Proof.
  apply (proj1 (X6_calendar_entries Examples.sidebarPage)).
  vm_compute. left. reflexivity.
Defined.

End CalendarExtras.

(* ------------------------------------------------------------------ *)
(** ** Activities *)

Section ActivityExtras.
Import Dom Patterns Regex RegexSpec.

Lemma activityRow_spec type acc row :
  Server.activityRow type acc row =
  if isActivityDataRow type row then activityFields row else acc.
Proof.
  unfold Server.activityRow, isActivityDataRow, activityFields.
  destruct (6 <=? _)%nat; [|reflexivity]. cbn [andb].
  destruct (String.eqb _ type); reflexivity.
Qed.

Lemma fold_activity_last type rows : forall acc,
  fold_left (Server.activityRow type) rows acc =
  last (map activityFields (filter (isActivityDataRow type) rows)) acc.
Proof.
  induction rows as [|r rows IH]; intros acc; [reflexivity|].
  cbn [fold_left filter]. rewrite IH, activityRow_spec.
  destruct (isActivityDataRow type r); [|reflexivity].
  cbn [map]. now rewrite last_cons.
Qed.

Lemma activity_groups (s : string) (m : matched) :
  exec reActivity s = Some m ->
  nonempty_run JS.is_word (group 1 m) /\ is_date_token (group 2 m).
Proof.
  intros H.
  assert (Hg : groups_ok (fun i t => (i = 1%nat -> matches (plus w) t) /\
                                     (i = 2%nat -> matches dateToken t)) reActivity)
    by (cbn; intuition (auto; discriminate)).
  split.
  - apply matches_plus_class.
    exact (proj1 (exec_sound _ _ 1 Hg eq_refl _ _ _ H) eq_refl).
  - pose proof (proj2 (exec_sound _ _ 2 Hg eq_refl _ _ _ H) eq_refl) as Ht.
    unfold dateToken in Ht. cbn [times] in Ht.
    apply matches_cat_class_cat in Ht as (d1 & t1 & -> & H1 & Ht).
    inversion Ht as [| | | |? ? a b Ha Hb| | | | | | |]; subst.
    apply matches_class in Ha as (d2 & -> & H2).
    apply matches_class_cat in Hb as (u1 & t2 & -> & H3 & Hb).
    apply matches_class_cat in Hb as (u2 & t3 & -> & H4 & Hb).
    apply matches_class in Hb as (u3 & -> & H5).
    exists d1, d2, u1, u2, u3. repeat split; assumption.
Qed.

(** X7. [parseActivity] returns nothing exactly when the header pattern
    fails on the trimmed text of the table's first [font] element (no
    row count is asked for).  An emitted Activity has a non-empty type of
    word characters and a date token of two digits and three capitals;
    its start date, start time, end date, end time and credit are cells
    2 to 6 of the last row that has at least six cells and whose first
    cell is the type, and are all empty when there is no such row.  The
    script returns the same value and never throws. *)
Theorem X7_activity (table : node) :
  (Server.parseActivity table = None <->
   exec reActivity (activityHeaderText table) = None) /\
  (forall a, Server.parseActivity table = Some a ->
     nonempty_run JS.is_word (act_type a) /\
     is_date_token (act_dateStr a) /\
     (startDate a, startTime a, endDate a, endTime a, act_credit a)
     = last (map activityFields
               (filter (isActivityDataRow (act_type a)) (find "tr" table)))
            ("", "", "", "", "")) /\
  WebView.parseActivity table = Some (Server.parseActivity table).
Proof.
  split; [|split; [|apply webview_parseActivity]].
  - unfold Server.parseActivity, activityHeaderText.
    destruct (exec reActivity _); [|tauto].
    destruct (fold_left _ _ _) as [[[[a b] c] d0] e]. split; discriminate.
  - intros a. unfold Server.parseActivity. fold (activityHeaderText table).
    destruct (exec reActivity _) as [m|] eqn:E; [|discriminate].
    destruct (activity_groups _ _ E) as [Ht Hd].
    rewrite fold_activity_last.
    destruct (last _ _) as [[[[sd st] ed] et] cr] eqn:El.
    intros [= <-]. cbn. rewrite El. auto.
Qed.

Lemma X7_activity_witness :
  exists a, Server.parseActivity Examples.activityTable = Some a /\
            nonempty_run JS.is_word (act_type a) /\
            (startDate a, startTime a, endDate a, endTime a, act_credit a)
            = ("06FEB", "05:15", "07FEB", "11:02", "1039").
Proof.
  destruct (Server.parseActivity Examples.activityTable) as [a|] eqn:E;
    [|vm_compute in E; discriminate].
  exists a. split; [reflexivity|].
  destruct (proj1 (proj2 (X7_activity Examples.activityTable)) a E) as (Ht & _ & Hf).
  split; [exact Ht|]. rewrite Hf.
  vm_compute in E. injection E as <-. reflexivity.
Defined.

End ActivityExtras.

(* ------------------------------------------------------------------ *)
(** ** Trips: the script's result from the server's, and field shapes *)

Section TripExtras.
Import Dom Patterns Regex RegexSpec.

Lemma webview_parseTrip_explicit (table : node) (year monthNumber : Z) :
  WebView.parseTrip table year monthNumber =
  Some (option_map (webviewTripOf table year monthNumber)
          (Server.parseTrip table year monthNumber)).
Proof.
  unfold WebView.parseTrip, Server.parseTrip. rewrite webview_directRows.
  destruct (length (Server.directRows table) <? 2)%nat eqn:E; [reflexivity|].
  apply Nat.ltb_ge in E.
  rewrite (nth_error_nth_default _ 0 (Text "")) by lia. cbn [WebView.bind].
  rewrite !webview_cellTextOr.
  destruct (exec reTrip _) as [tm|] eqn:Em; [|reflexivity].
  rewrite (nth_error_nth_default _ 1 (Text "")) by lia. cbn [WebView.bind].
  rewrite !webview_cellTextOr.
  set (detailCells := find "td" (nth 1 (Server.directRows table) (Text ""))).
  assert (Hex :
    (if (2 <? length detailCells)%nat
     then WebView.cellText detailCells 2 else Some "") =
    Some (if (2 <? length detailCells)%nat
          then Server.cellText detailCells 2 else "")).
  { destruct (2 <? length detailCells)%nat eqn:E2; [|reflexivity].
    apply Nat.ltb_lt in E2. now rewrite webview_cellText_in_range by lia. }
  rewrite Hex. cbn [WebView.bind].
  rewrite webview_parseDutyPeriods. cbn [WebView.bind].
  change WebView.tafbRig with Server.tafbRig.
  destruct (fold_left Server.tafbRig _ _) as [tafb rig].
  rewrite webview_parseCrew. cbn [WebView.bind]. reflexivity.
Qed.

Lemma trip_number_group (s : string) (m : matched) :
  exec reTrip s = Some m ->
  exists ds, group 1 m = String "O" ds /\ nonempty_run JS.is_digit ds.
Proof.
  intros H.
  assert (Hg : groups_ok (fun i t => i = 1%nat -> matches (Cat (Lit "O") (plus d)) t)
                 reTrip) by (cbn; intuition (auto; discriminate)).
  pose proof (exec_sound _ _ 1 Hg eq_refl _ _ _ H eq_refl) as Ht.
  inversion Ht as [| | | |? ? a b Ha Hb| | | | | | |]; subst.
  inversion Ha; subst. exists b. split; [reflexivity|].
  now apply matches_plus_class.
Qed.

Lemma report_group (s : string) :
  is_local_time_or_empty (Server.groupOr 1 (exec reReport s)).
Proof.
  destruct (exec reReport s) as [m|] eqn:H; [|now left].
  right. apply matches_local_time.
  assert (Hg : groups_ok (fun i t => i = 1%nat -> matches localTime t) reReport)
    by (cbn; intuition auto).
  exact (exec_sound _ _ 1 Hg eq_refl _ _ _ H eq_refl).
Qed.

Lemma digits_group (r : regex) (s : string) (m : matched) :
  groups_ok (fun i t => i = 1%nat -> matches (plus d) t) r ->
  must_capture 1 r = true ->
  exec r s = Some m -> string_forall JS.is_digit (group 1 m) = true.
Proof.
  intros Hg Hm H.
  exact (proj2 (matches_plus_class _ _ (exec_sound _ _ 1 Hg Hm _ _ _ H eq_refl))).
Qed.

Lemma tafbRig_digits (els : list node) : forall acc,
  string_forall JS.is_digit (fst acc) = true ->
  string_forall JS.is_digit (snd acc) = true ->
  string_forall JS.is_digit (fst (fold_left Server.tafbRig els acc)) = true /\
  string_forall JS.is_digit (snd (fold_left Server.tafbRig els acc)) = true.
Proof.
  induction els as [|el els IH]; intros acc H1 H2; [auto|].
  cbn [fold_left]. apply IH; unfold Server.tafbRig; cbn [fst snd].
  - destruct (exec reTafb _) as [m|] eqn:E; [|exact H1].
    eapply (digits_group reTafb); [cbn; intuition auto|reflexivity|exact E].
  - destruct (exec reRig _) as [m|] eqn:E; [|exact H2].
    eapply (digits_group reRig); [cbn; intuition auto|reflexivity|exact E].
Qed.

Lemma base_equip_groups (s : string) :
  string_forall JS.is_word (Server.groupOr 1 (exec reBaseEquip s)) = true /\
  string_forall JS.is_word (Server.groupOr 2 (exec reBaseEquip s)) = true.
Proof.
  destruct (exec reBaseEquip s) as [m|] eqn:H; [|auto].
  assert (Hg : groups_ok (fun i t => (i = 1%nat \/ i = 2%nat) -> matches (plus w) t)
                 reBaseEquip) by (cbn; intuition auto).
  split; cbn [Server.groupOr].
  - exact (proj2 (matches_plus_class _ _
             (exec_sound _ _ 1 Hg eq_refl _ _ _ H (or_introl eq_refl)))).
  - exact (proj2 (matches_plus_class _ _
             (exec_sound _ _ 2 Hg eq_refl _ _ _ H (or_intror eq_refl)))).
Qed.

Lemma server_trip_fields (table : node) (year monthNumber : Z) (t : Trip) :
  Server.parseTrip table year monthNumber = Some t -> trip_fields_well_formed t.
Proof.
  unfold Server.parseTrip.
  destruct (_ <? 2)%nat; [discriminate|].
  destruct (exec reTrip _) as [tm|] eqn:Em; [|discriminate].
  destruct (fold_left Server.tafbRig _ _) as [tafb rig] eqn:Ef.
  intros [= <-]. unfold trip_fields_well_formed. cbn.
  destruct (tafbRig_digits (find "strong" table) ("", "") eq_refl eq_refl) as [H1 H2].
  rewrite Ef in H1, H2. cbn in H1, H2.
  destruct (base_equip_groups
              (Server.cellText (find "td" (nth 1 (Server.directRows table) (Text ""))) 0))
    as [Hb He].
  repeat split; auto.
  - exact (trip_number_group _ _ Em).
  - exact (trip_header_token _ _ Em).
  - apply report_group.
Qed.

(** X8. The pattern-read fields of every emitted Trip are well formed,
    whichever parser emitted it: the trip number is "O" followed by at
    least one digit, the date token is two digits and three capitals,
    the base report time is empty or four digits with an optional "L",
    tafb and tripRig hold only digits, base and equipment only word
    characters. *)
Theorem X8_trip_fields (table : node) (year monthNumber : Z) (t : Trip) :
  Server.parseTrip table year monthNumber = Some t \/
  WebView.parseTrip table year monthNumber = Some (Some t) ->
  trip_fields_well_formed t.
Proof.
  intros [H|H]; [now apply server_trip_fields in H|].
  rewrite webview_parseTrip_explicit in H.
  destruct (Server.parseTrip table year monthNumber) as [t0|] eqn:E;
    [|discriminate].
  cbn in H. injection H as <-. apply server_trip_fields in E.
  exact E.
Qed.

Lemma X8_trip_fields_witness :
  exists t, Server.parseTrip Examples.tripWithFlights 2026 2 = Some t /\
            trip_fields_well_formed t.
Proof.
  destruct (Server.parseTrip Examples.tripWithFlights 2026 2) as [t|] eqn:E;
    [|vm_compute in E; discriminate].
  exists t. split; [reflexivity|].
  exact (X8_trip_fields Examples.tripWithFlights 2026 2 t (or_introl E)).
Defined.

End TripExtras.

(* ------------------------------------------------------------------ *)
(** ** Where the two parsers agree *)

Section Agreement.
Import Dom Patterns.

Lemma existsb_filter {A : Type} (p : A -> bool) (l : list A) :
  existsb p l = (0 <? length (filter p l))%nat.
Proof.
  induction l as [|x l IH]; [reflexivity|]. cbn. destruct (p x); [reflexivity|exact IH].
Qed.

Lemma webview_isSeparator t : WebView.isSeparator t = Server.isSeparator t.
Proof.
  unfold WebView.isSeparator, Server.isSeparator. f_equal.
  now destruct (find "hr" t).
Qed.

Lemma webview_isTripTable t : WebView.isTripTable t = Server.isTripTable t.
Proof. apply existsb_filter. Qed.

Lemma webview_isActivityTable t : WebView.isActivityTable t = Server.isActivityTable t.
Proof. apply existsb_filter. Qed.

Lemma webview_scheduleItem_explicit year monthNumber t :
  WebView.scheduleItem year monthNumber t =
  Some (if Server.isSeparator t then []
        else if Server.isTripTable t then
          match Server.parseTrip t year monthNumber with
          | Some trip => [ItemTrip (webviewTripOf t year monthNumber trip)]
          | None => []
          end
        else Server.scheduleItem year monthNumber t).
Proof.
  unfold WebView.scheduleItem, Server.scheduleItem.
  rewrite webview_isSeparator, webview_isTripTable, webview_isActivityTable.
  destruct (Server.isSeparator t); [reflexivity|].
  destruct (Server.isTripTable t).
  - rewrite webview_parseTrip_explicit. cbn [WebView.bind].
    now destruct (Server.parseTrip t year monthNumber).
  - destruct (Server.isActivityTable t); [|reflexivity].
    rewrite webview_parseActivity. cbn [WebView.bind].
    now destruct (Server.parseActivity t).
Qed.

(** X9. Both parsers classify every content table the same way
    (separator, trip block, activity block or neither), and for every
    table that is not a trip block they emit the same items; the script
    never throws on it. *)
Theorem X9_same_classification (t : node) :
  webviewClassify t = serverClassify t /\
  (serverClassify t <> TripBlock ->
   forall year monthNumber,
     WebView.scheduleItem year monthNumber t
     = Some (Server.scheduleItem year monthNumber t)).
Proof.
  split.
  - unfold webviewClassify, serverClassify.
    now rewrite webview_isSeparator, webview_isTripTable, webview_isActivityTable.
  - intros H year monthNumber. rewrite webview_scheduleItem_explicit.
    unfold serverClassify in H. unfold Server.scheduleItem.
    destruct (Server.isSeparator t); [reflexivity|].
    destruct (Server.isTripTable t); [congruence|reflexivity].
Qed.

Lemma X9_same_classification_witness :
  WebView.scheduleItem 2026 2 Examples.activityTable
  = Some (Server.scheduleItem 2026 2 Examples.activityTable).
Proof.
  apply (proj2 (X9_same_classification Examples.activityTable)).
  vm_compute. discriminate.
Defined.

(** Induction over the tree. *)
Lemma node_induction (P : node -> Prop) :
  (forall s, P (Text s)) ->
  (forall t a kids, Forall P kids -> P (Element t a kids)) ->
  forall n, P n.
Proof.
  intros Ht He.
  refine (fix IH (n : node) : P n :=
            match n with
            | Text s => Ht s
            | Element t a kids =>
                He t a kids
                  ((fix go (l : list node) : Forall P l :=
                      match l with
                      | [] => Forall_nil P
                      | k :: r => Forall_cons k (IH k) (go r)
                      end) kids)
            end).
Qed.

(** The elements below an element: its child elements and what is below
    them. *)
Lemma in_descendants (x : node) (t : string) (a : list (string * string))
    (kids : list node) :
  In x (descendants (Element t a kids)) <->
  exists k, In k kids /\ ((x = k /\ exists t' a' c', k = Element t' a' c') \/
                          In x (descendants k)).
Proof.
  cbn [descendants].
  induction kids as [|k kids IH].
  - split; [intros []|intros (k & [] & _)].
  - destruct k as [s|t' a' c'].
    + rewrite IH. split.
      * intros (k & Hk & H). exists k. split; [now right|exact H].
      * intros (k & [<-|Hk] & H).
        -- destruct H as [(_ & t' & a' & c' & E)|H]; [discriminate E|destruct H].
        -- exists k. auto.
    + cbn [In]. rewrite in_app_iff, IH. split.
      * intros [<-|[H|(k & Hk & H)]].
        -- eexists. split; [now left|]. left. eauto.
        -- eexists. split; [now left|]. now right.
        -- exists k. split; [now right|exact H].
      * intros (k & [<-|Hk] & H).
        -- destruct H as [(-> & _)|H]; [now left|right; now left].
        -- right. right. exists k. auto.
Qed.

Lemma descendants_trans (c : node) :
  forall a b, In a (descendants b) -> In b (descendants c) -> In a (descendants c).
Proof.
  induction c as [s|t at' kids IH] using node_induction; intros a b Hab Hbc;
    [destruct Hbc|].
  apply in_descendants in Hbc as (k & Hk & H). apply in_descendants.
  exists k. split; [exact Hk|]. right. destruct H as [(-> & _)|H]; [exact Hab|].
  rewrite Forall_forall in IH. exact (IH k Hk a b Hab H).
Qed.

Lemma find_descendant (t : string) (n x : node) : In x (find t n) -> In x (descendants n).
Proof. unfold find. intros H. now apply filter_In in H. Qed.

Lemma tokens_ext (sp1 sp2 : ascii -> bool) (v : string) :
  string_forall (fun c => Bool.eqb (sp1 c) (sp2 c)) v = true ->
  tokens sp1 v = tokens sp2 v.
Proof.
  induction v as [|c v IH]; [reflexivity|]. cbn. intros H.
  apply andb_prop in H as [Hc Hv]. apply Bool.eqb_prop in Hc.
  rewrite Hc, (IH Hv). reflexivity.
Qed.

Lemma plain_class_hasClass (el : node) (cls : string) :
  plain_class el = true -> WebView.hasClass cls el = Server.hasClass cls el.
Proof.
  unfold plain_class, WebView.hasClass, Server.hasClass, hasClassBy.
  destruct (getAttribute "class" el) as [v|]; [|reflexivity].
  intros H. now rewrite (tokens_ext _ _ v H).
Qed.

Lemma step_ext (hc1 hc2 : string -> node -> bool) (st : DPState) (row : node) :
  (forall cls, hc1 cls row = hc2 cls row) ->
  DutyMachine.step hc1 st row = DutyMachine.step hc2 st row.
Proof. intros H. unfold DutyMachine.step. now rewrite !H. Qed.

Lemma fold_step_ext (hc1 hc2 : string -> node -> bool) (rows : list node) :
  (forall row cls, In row rows -> hc1 cls row = hc2 cls row) ->
  forall st, fold_left (DutyMachine.step hc1) rows st
             = fold_left (DutyMachine.step hc2) rows st.
Proof.
  induction rows as [|r rows IH]; intros H st; [reflexivity|].
  cbn [fold_left]. rewrite (step_ext hc1 hc2 st r) by (intros; apply H; now left).
  apply IH. intros row cls Hr. apply H. now right.
Qed.

Lemma existsb_ext_in {A : Type} (p q : A -> bool) (l : list A) :
  (forall x, In x l -> p x = q x) -> existsb p l = existsb q l.
Proof.
  induction l as [|x l IH]; intros H; [reflexivity|]. cbn.
  rewrite (H x (or_introl eq_refl)), IH; [reflexivity|].
  intros y Hy. apply H. now right.
Qed.

Section OneTable.
Variable table : node.
Hypothesis Halike : table_read_alike table.

Lemma alike_hasClass (row : node) (cls : string) :
  In row (descendants table) -> WebView.hasClass cls row = Server.hasClass cls row.
Proof. intros H. apply plain_class_hasClass. now apply (proj1 Halike). Qed.

Lemma alike_flightTable : WebView.flightTable table = Server.flightTable table.
Proof.
  unfold WebView.flightTable, Server.flightTable. f_equal.
  apply filter_ext_in. intros el Hel. apply existsb_ext_in. intros r Hr.
  apply alike_hasClass.
  exact (descendants_trans table r el (find_descendant _ _ _ Hr)
           (find_descendant _ _ _ Hel)).
Qed.

Lemma first_In {A : Type} (l : list A) (x : A) : first l = Some x -> In x l.
Proof. destruct l; [discriminate|]. intros [= <-]. now left. Qed.

Lemma alike_dutyPeriods : webviewDutyPeriods table = Server.parseDutyPeriods table.
Proof.
  unfold webviewDutyPeriods, Server.parseDutyPeriods. rewrite alike_flightTable.
  destruct (Server.flightTable table) as [ft|] eqn:E; [|reflexivity].
  rewrite server_fold. f_equal. apply fold_step_ext. intros row cls Hr.
  apply alike_hasClass.
  apply (descendants_trans table row ft (find_descendant _ _ _ Hr)).
  unfold Server.flightTable in E. apply first_In in E.
  apply filter_In in E as [E _]. exact (find_descendant _ _ _ E).
Qed.

Lemma alike_tripTotals : WebView.parseTripTotals table = Server.parseTripTotals table.
Proof.
  unfold WebView.parseTripTotals, Server.parseTripTotals.
  replace (filter (WebView.hasClass "bold") (find "tr" table))
    with (filter (Server.hasClass "bold") (find "tr" table))
    by (apply filter_ext_in; intros r Hr; symmetry; apply alike_hasClass;
        exact (find_descendant _ _ _ Hr)).
  set (bold := filter (Server.hasClass "bold") (find "tr" table)).
  assert (Hlast : forall l : list node, l <> [] ->
            last (map Some l) None = Some (last l (Text ""))).
  { induction l as [|x [|y l] IH]; intros Hl; [congruence|reflexivity|].
    change (last (map Some (x :: y :: l)) None) with (last (map Some (y :: l)) None).
    change (last (x :: y :: l) (Text "")) with (last (y :: l) (Text "")).
    apply IH. discriminate. }
  destruct bold as [|b bs] eqn:Eb; [reflexivity|].
  rewrite Hlast by discriminate.
  apply foldi_ext. intros. apply webview_totalsCell.
Qed.

Lemma alike_crew : webviewCrew table = Server.parseCrew table.
Proof.
  unfold webviewCrew, Server.parseCrew.
  replace (WebView.crewTable table) with (Server.crewTable table); [reflexivity|].
  unfold WebView.crewTable, Server.crewTable. f_equal.
  apply filter_ext_in. intros el Hel. exact (proj2 Halike el Hel).
Qed.

End OneTable.

Lemma server_trip_parts (table : node) (year monthNumber : Z) (t : Trip) :
  Server.parseTrip table year monthNumber = Some t ->
  dutyPeriods t = Server.parseDutyPeriods table /\
  totals t = Server.parseTripTotals table /\
  crew t = Server.parseCrew table /\
  date t = Server.tripDate year monthNumber (dateStr t).
Proof.
  unfold Server.parseTrip.
  destruct (_ <? 2)%nat; [discriminate|].
  destruct (Regex.exec reTrip _); [|discriminate].
  destruct (fold_left Server.tafbRig _ _). intros [= <-]. cbn. auto.
Qed.

Lemma alike_parseTrip (table : node) (year monthNumber : Z) :
  table_read_alike table -> date_read_alike table year monthNumber ->
  WebView.parseTrip table year monthNumber
  = Some (Server.parseTrip table year monthNumber).
Proof.
  intros Ha [Hm Hk]. rewrite webview_parseTrip_explicit. f_equal.
  destruct (Server.parseTrip table year monthNumber) as [t|] eqn:E; [|reflexivity].
  cbn [option_map]. f_equal. unfold webviewTripOf.
  rewrite (alike_dutyPeriods table Ha), (alike_tripTotals table Ha),
    (alike_crew table Ha).
  destruct (server_trip_parts table year monthNumber t E) as (Hd & Ht & Hc & Hdate).
  assert (Hknown : monthNumber = -1 ->
            month_lookup MONTH_MAP (JS.substringFrom 2 (dateStr t)) <> None)
    by (intros Hneg; exact (Hk Hneg t eq_refl)).
  rewrite (webview_tripDate_reconstructed year monthNumber (dateStr t) Hm Hknown),
    <- (server_tripDate_reconstructed year monthNumber (dateStr t) Hm Hknown),
    <- Hdate, <- Hd, <- Ht, <- Hc.
  now destruct t.
Qed.

End Agreement.

(* ------------------------------------------------------------------ *)
(** ** The script in a document of either mode *)

Section ScriptMode.
Import Dom Patterns.

Lemma matchesClass_no_quirks (cls : string) (el : node) :
  Script.matchesClass false cls el = WebView.hasClass cls el.
Proof. reflexivity. Qed.

Lemma exact_matchesClass (el : node) :
  exact_class_names el = true ->
  Script.matchesClass true "main" el = WebView.hasClass "main" el /\
  Script.matchesClass true "bold" el = WebView.hasClass "bold" el.
Proof.
  unfold exact_class_names, Script.matchesClass, WebView.hasClass, hasClassBy.
  destruct (getAttribute "class" el) as [v|]; [|now split].
  intros H. rewrite forallb_forall in H.
  split; apply existsb_ext_in; intros t Ht; specialize (H t Ht);
    apply andb_prop in H as [H1 H2].
  - now apply Bool.eqb_prop.
  - now apply Bool.eqb_prop.
Qed.

Section OneTableMode.
Variable quirks : bool.
Variable table : node.
Hypothesis Hmode : mode_makes_no_difference quirks table.

Lemma mode_matchesClass (el : node) :
  In el (descendants table) ->
  Script.matchesClass quirks "main" el = WebView.hasClass "main" el /\
  Script.matchesClass quirks "bold" el = WebView.hasClass "bold" el.
Proof.
  intros Hel. destruct quirks.
  - apply exact_matchesClass. now apply Hmode.
  - now split.
Qed.

Lemma mode_flightTable : Script.flightTable quirks table = WebView.flightTable table.
Proof.
  unfold Script.flightTable, WebView.flightTable. f_equal.
  apply filter_ext_in. intros el Hel. apply existsb_ext_in. intros r Hr.
  apply mode_matchesClass.
  exact (descendants_trans table r el (find_descendant _ _ _ Hr)
           (find_descendant _ _ _ Hel)).
Qed.

Lemma mode_parseDutyPeriods :
  Script.parseDutyPeriods quirks table = WebView.parseDutyPeriods table.
Proof.
  unfold Script.parseDutyPeriods, WebView.parseDutyPeriods.
  now rewrite mode_flightTable.
Qed.

Lemma mode_parseTripTotals :
  Script.parseTripTotals quirks table = WebView.parseTripTotals table.
Proof.
  unfold Script.parseTripTotals, WebView.parseTripTotals.
  replace (filter (Script.matchesClass quirks "bold") (find "tr" table))
    with (filter (WebView.hasClass "bold") (find "tr" table)); [reflexivity|].
  apply filter_ext_in. intros r Hr. symmetry. apply mode_matchesClass.
  exact (find_descendant _ _ _ Hr).
Qed.

Lemma mode_parseTrip (year monthNumber : Z) :
  Script.parseTrip quirks table year monthNumber
  = WebView.parseTrip table year monthNumber.
Proof.
  unfold Script.parseTrip, WebView.parseTrip.
  now rewrite mode_parseDutyPeriods, mode_parseTripTotals.
Qed.

End OneTableMode.

Lemma mode_scheduleItem (quirks : bool) (t : node) (year monthNumber : Z) :
  (serverClassify t = TripBlock -> mode_makes_no_difference quirks t) ->
  Script.scheduleItem quirks year monthNumber t
  = WebView.scheduleItem year monthNumber t.
Proof.
  intros Ht. unfold Script.scheduleItem, WebView.scheduleItem.
  unfold serverClassify in Ht.
  rewrite <- webview_isSeparator, <- webview_isTripTable in Ht.
  destruct (WebView.isSeparator t); [reflexivity|].
  destruct (WebView.isTripTable t); [|reflexivity].
  now rewrite (mode_parseTrip quirks t (Ht eq_refl)).
Qed.

Lemma flatMapM_ext_in {A B : Type} (f g : A -> option (list B)) (l : list A) :
  (forall x, In x l -> f x = g x) -> WebView.flatMapM f l = WebView.flatMapM g l.
Proof.
  induction l as [|x l IH]; intros H; [reflexivity|].
  cbn. rewrite (H x (or_introl eq_refl)), IH; [reflexivity|].
  intros y Hy. apply H. now right.
Qed.

Lemma mode_parseScheduleDetail (quirks : bool) (currentYear : Z) (doc : node) :
  WebView.allTables doc = Server.allTables doc ->
  trip_blocks_mode_free quirks doc ->
  Script.parseScheduleDetail quirks currentYear doc
  = WebView.parseScheduleDetail currentYear doc.
Proof.
  intros Htabs Hfree.
  unfold Script.parseScheduleDetail, WebView.parseScheduleDetail.
  replace (Script.parseScheduleItems quirks doc
             (h_year (WebView.parseHeader currentYear doc))
             (h_monthNumber (WebView.parseHeader currentYear doc)))
    with (WebView.parseScheduleItems doc
             (h_year (WebView.parseHeader currentYear doc))
             (h_monthNumber (WebView.parseHeader currentYear doc))); [reflexivity|].
  unfold Script.parseScheduleItems, WebView.parseScheduleItems.
  apply flatMapM_ext_in. intros t Ht. symmetry. apply mode_scheduleItem.
  intros Hcls. apply Hfree; [|exact Hcls]. now rewrite <- Htabs.
Qed.

End ScriptMode.

Section AgreementTheorems.
Import Dom Patterns.

(** X10. In a document of either mode, [parseTrip] of the script returns
    exactly what [parseTrip] of the server returns (and does not throw)
    for every trip table whose elements have plain class attributes (no
    vertical tab or no-break space), on whose nested tables the two
    crew-table tests agree, whose date is not built from an unknown
    heading month together with unknown month letters, and, if the
    document is in quirks mode, whose class names are exact: no class
    token equals "main" or "bold" only up to ASCII case, so that the
    script's two class selectors ([tr.main], [tr.bold]) select what the
    server's select. *)
Theorem X10_parseTrip_agree (quirks : bool) (table : node) (year monthNumber : Z) :
  table_read_alike table -> date_read_alike table year monthNumber ->
  mode_makes_no_difference quirks table ->
  Script.parseTrip quirks table year monthNumber
  = Some (Server.parseTrip table year monthNumber).
Proof.
  intros Ha Hd Hm. rewrite (mode_parseTrip quirks table Hm).
  now apply alike_parseTrip.
Qed.

Lemma forallb_In {A : Type} (p : A -> bool) (l : list A) :
  forallb p l = true -> forall x, In x l -> p x = true.
Proof. intros H x Hx. rewrite forallb_forall in H. now apply H. Qed.

Lemma X10_parseTrip_agree_witness :
  Script.parseTrip true Examples.tripWithFlights 2026 2
  = Some (Server.parseTrip Examples.tripWithFlights 2026 2).
Proof.
  apply X10_parseTrip_agree.
  - split.
    + apply forallb_In. vm_compute. reflexivity.
    + intros el Hel. apply Bool.eqb_prop. revert el Hel.
      apply (forallb_In (fun el => Bool.eqb (serverCrewTest el) (webviewCrewTest el))).
      vm_compute. reflexivity.
  - split; [lia|]. intros H. discriminate H.
  - intros _. unfold class_names_exact. apply forallb_In. vm_compute. reflexivity.
Defined.

(** Where the class names are not exact the mode matters: in a quirks-mode
    document [tr.main] selects the flight table of
    [Examples.upperCaseTrip], whose header row has class MAIN, and the
    script reads a duty period from it; in a no-quirks document, and on
    the server, no flight table is found. *)
Lemma quirks_mode_reads_upper_case_main :
  (option_map (option_map (fun t => length (dutyPeriods t)))
     (Script.parseTrip true Examples.upperCaseTrip 2026 2) = Some (Some 1%nat)) /\
  (option_map (option_map (fun t => length (dutyPeriods t)))
     (Script.parseTrip false Examples.upperCaseTrip 2026 2) = Some (Some 0%nat)) /\
  (option_map (fun t => length (dutyPeriods t))
     (Server.parseTrip Examples.upperCaseTrip 2026 2) = Some 0%nat) /\
  table_read_alike Examples.upperCaseTrip /\
  ~ class_names_exact Examples.upperCaseTrip.
Proof.
  split; [vm_compute; reflexivity|]. split; [vm_compute; reflexivity|].
  split; [vm_compute; reflexivity|]. split.
  - split.
    + apply forallb_In. vm_compute. reflexivity.
    + intros el Hel. apply Bool.eqb_prop. revert el Hel.
      apply (forallb_In (fun el => Bool.eqb (serverCrewTest el) (webviewCrewTest el))).
      vm_compute. reflexivity.
  - intros H.
    pose proof (proj2 (forallb_forall exact_class_names _) H) as Hb.
    vm_compute in Hb. discriminate Hb.
Qed.

Lemma alike_scheduleItem (t : node) (year monthNumber : Z) :
  (serverClassify t = TripBlock -> table_read_alike t) ->
  0 <= monthNumber <= 12 ->
  WebView.scheduleItem year monthNumber t = Some (Server.scheduleItem year monthNumber t).
Proof.
  intros Ht Hm. rewrite webview_scheduleItem_explicit.
  unfold serverClassify in Ht. unfold Server.scheduleItem.
  destruct (Server.isSeparator t); [reflexivity|].
  destruct (Server.isTripTable t); [|reflexivity].
  destruct (Server.parseTrip t year monthNumber) as [trip|] eqn:E; [|reflexivity].
  assert (Hd : date_read_alike t year monthNumber) by (split; [lia|intros; lia]).
  pose proof (alike_parseTrip t year monthNumber (Ht eq_refl) Hd) as H.
  rewrite webview_parseTrip_explicit, E in H. cbn in H. injection H as ->.
  reflexivity.
Qed.

Lemma agree_from_selection (currentYear : Z) (doc : node) :
  webviewTable2Rows doc = Server.table2Rows doc ->
  WebView.allTables doc = Server.allTables doc ->
  h_monthNumber (Server.parseHeader currentYear doc) <> -1 ->
  trip_blocks_read_alike doc ->
  WebView.parseScheduleDetail currentYear doc
  = Some (Server.parseScheduleDetail currentYear doc).
Proof.
  intros Hrows Htabs Hmonth Htrips.
  unfold WebView.parseScheduleDetail, Server.parseScheduleDetail.
  rewrite webview_parseHeader.
  assert (Hc : WebView.parseCalendar doc = Some (Server.parseCalendar doc)).
  { unfold WebView.parseCalendar, Server.parseCalendar. rewrite <- Hrows.
    unfold webviewTable2Rows. destruct (WebView.table2 doc); [|reflexivity].
    apply flatMapM_some. intros; apply webview_calendarRow. }
  rewrite Hc. cbn [WebView.bind].
  assert (Hm : 0 <= h_monthNumber (Server.parseHeader currentYear doc) <= 12).
  { unfold Server.parseHeader in *. cbn [h_monthNumber] in *.
    match goal with
    | |- context [JS.indexOf MONTH_NAMES ?x] =>
        destruct (indexOf_month x) as (Hr & _)
    end. lia. }
  assert (Hi : WebView.parseScheduleItems doc
                 (h_year (Server.parseHeader currentYear doc))
                 (h_monthNumber (Server.parseHeader currentYear doc))
               = Some (Server.parseScheduleItems doc
                         (h_year (Server.parseHeader currentYear doc))
                         (h_monthNumber (Server.parseHeader currentYear doc)))).
  { unfold WebView.parseScheduleItems, Server.parseScheduleItems. rewrite Htabs.
    apply flatMapM_some. intros t Ht. apply alike_scheduleItem; [|exact Hm].
    intros Hcls. now apply Htrips. }
  rewrite Hi. cbn [WebView.bind].
  assert (Hs : WebView.parseSummary doc = Some (Server.parseSummary doc)).
  { unfold WebView.parseSummary, Server.parseSummary. rewrite <- Hrows.
    unfold webviewTable2Rows. destruct (WebView.table2 doc); [|reflexivity].
    apply foldM_some, webview_summaryRow. }
  rewrite Hs. reflexivity.
Qed.

Lemma script_agree_from_selection (quirks : bool) (currentYear : Z) (doc : node) :
  webviewTable2Rows doc = Server.table2Rows doc ->
  WebView.allTables doc = Server.allTables doc ->
  h_monthNumber (Server.parseHeader currentYear doc) <> -1 ->
  trip_blocks_read_alike doc ->
  trip_blocks_mode_free quirks doc ->
  Script.parseScheduleDetail quirks currentYear doc
  = Some (Server.parseScheduleDetail currentYear doc).
Proof.
  intros Hrows Htabs Hmonth Htrips Hfree.
  rewrite (mode_parseScheduleDetail quirks currentYear doc Htabs Hfree).
  now apply agree_from_selection.
Qed.

(** X11. In a document of either mode, the two parsers return the same
    record (and the script posts a schedule, not an error) for every
    document where: they select the same sidebar rows and the same
    content tables (neither selection names a class), the heading's month
    word is an English month name or is missing, every trip block has
    plain class attributes and agreeing crew-table tests, and, if the
    document is in quirks mode, the class names in every trip block are
    exact (no class token equals "main" or "bold" only up to ASCII
    case). *)
Theorem X11_parsers_agree (quirks : bool) (currentYear : Z) (doc : node) :
  webviewTable2Rows doc = Server.table2Rows doc ->
  WebView.allTables doc = Server.allTables doc ->
  h_monthNumber (Server.parseHeader currentYear doc) <> -1 ->
  trip_blocks_read_alike doc ->
  trip_blocks_mode_free quirks doc ->
  Script.parseScheduleDetail quirks currentYear doc
  = Some (Server.parseScheduleDetail currentYear doc).
Proof. exact (script_agree_from_selection quirks currentYear doc). Qed.

Lemma X11_parsers_agree_witness :
  Script.parseScheduleDetail true 2026 ordinaryPage
  = Some (Server.parseScheduleDetail 2026 ordinaryPage).
Proof.
  apply X11_parsers_agree.
  - vm_compute. reflexivity.
  - vm_compute. reflexivity.
  - vm_compute. discriminate.
  - intros t Ht Hcls. vm_compute in Ht.
    destruct Ht as [<-|[<-|[<-|[]]]]; try (vm_compute in Hcls; discriminate Hcls).
    split.
    + apply forallb_In. vm_compute. reflexivity.
    + intros el Hel. apply Bool.eqb_prop. revert el Hel.
      apply (forallb_In (fun el => Bool.eqb (serverCrewTest el) (webviewCrewTest el))).
      vm_compute. reflexivity.
  - intros t Ht Hcls _. vm_compute in Ht.
    destruct Ht as [<-|[<-|[<-|[]]]]; try (vm_compute in Hcls; discriminate Hcls).
    unfold class_names_exact. apply forallb_In. vm_compute. reflexivity.
Defined.

End AgreementTheorems.

(* ------------------------------------------------------------------ *)
(** ** The script's [trim] is [String.prototype.trim] *)

Section ScriptTrimProof.
Import Regex ScriptTrim.

Lemma iterate_class_greedy {R : Type} (p : ascii -> bool) (k : cont (R:=R)) :
  forall fuel pos t caps,
    (String.length t < fuel)%nat ->
    iterate (run (Class p)) true k fuel pos t caps = star_spec p k pos t caps.
Proof.
  induction fuel as [|fuel IH]; intros pos t caps Hf; [lia|].
  cbn [iterate run]. destruct t as [|c t'].
  - reflexivity.
  - cbn [star_spec]. destruct (p c); [|reflexivity].
    assert (Hlt : (String.length t' <? String.length (String c t'))%nat = true)
      by (apply Nat.ltb_lt; cbn; lia).
    rewrite Hlt, IH by (cbn in Hf; lia). reflexivity.
Qed.

(** With a continuation that accepts only at the end of the input, the
    star succeeds exactly on an input of white space. *)
Lemma star_to_end {R : Type} (k : cont (R:=R)) (ok : nat -> captures -> R)
    (Hk : forall pos' s' caps',
        k pos' s' caps'
        = match s' with
          | EmptyString => Some (ok pos' caps')
          | String _ _ => None
          end) :
  forall t pos caps,
    star_spec JS.is_space k pos t caps
    = if string_forall JS.is_space t
      then Some (ok (pos + String.length t)%nat caps) else None.
Proof.
  induction t as [|c t IH]; intros pos caps.
  - cbn. now rewrite Hk, Nat.add_0_r.
  - cbn [star_spec string_forall String.length]. rewrite Hk.
    destruct (JS.is_space c); [|reflexivity].
    rewrite IH. cbn [andb]. destruct (string_forall JS.is_space t).
    + cbn. f_equal. f_equal. lia.
    + reflexivity.
Qed.

(** With a continuation that always accepts, the star takes the whole
    run of white space. *)
Lemma star_to_any (pos0 : nat) : forall t pos caps,
  star_spec JS.is_space (fun e _ c => Some (mkMatched pos0 e c)) pos t caps
  = Some (mkMatched pos0
            (pos + (String.length t - String.length (JS.trimStart t))) caps).
Proof.
  induction t as [|c t IH]; intros pos caps.
  - cbn. now rewrite Nat.add_0_r.
  - cbn [star_spec JS.trimStart]. destruct (JS.is_space c).
    + rewrite IH. cbn [orElse String.length]. f_equal. f_equal.
      assert (String.length (JS.trimStart t) <= String.length t)%nat.
      { clear. induction t as [|a t IH]; cbn; [lia|].
        destruct (JS.is_space a); cbn; lia. }
      lia.
    + f_equal. f_equal. lia.
Qed.

Lemma trimStart_drop (t : string) :
  JS.substringFrom (String.length t - String.length (JS.trimStart t)) t = JS.trimStart t.
Proof.
  induction t as [|c t IH]; [reflexivity|]. cbn [JS.trimStart].
  destruct (JS.is_space c).
  - assert (String.length (JS.trimStart t) <= String.length t)%nat.
    { clear. induction t as [|a t IH]; cbn; [lia|].
      destruct (JS.is_space a); cbn; lia. }
    replace (String.length (String c t) - String.length (JS.trimStart t))%nat
      with (S (String.length t - String.length (JS.trimStart t)))
      by (cbn [String.length]; lia).
    exact IH.
  - now rewrite Nat.sub_diag.
Qed.

Lemma trimEnd_all_space (t : string) :
  string_forall JS.is_space t = true -> JS.trimEnd t = "".
Proof.
  induction t as [|c t IH]; [reflexivity|]. cbn. intros H.
  apply andb_prop in H as [Hc Ht]. now rewrite (IH Ht), Hc.
Qed.

Lemma trimEnd_cons_not_all (c : ascii) (t : string) :
  string_forall JS.is_space (String c t) = false ->
  JS.trimEnd (String c t) = String c (JS.trimEnd t).
Proof.
  cbn. intros H. destruct (JS.trimEnd t) as [|x y] eqn:E; [|reflexivity].
  destruct (JS.is_space c) eqn:Ec; [|reflexivity]. cbn in H.
  assert (Ht : string_forall JS.is_space t = true).
  { clear H. revert E. induction t as [|a t IH]; [reflexivity|]. cbn.
    destruct (JS.trimEnd t); [|discriminate].
    destruct (JS.is_space a); [|discriminate]. intros _. now apply IH. }
  congruence.
Qed.

(** One attempt of the pattern at an offset past the start. *)
Lemma run_reTrim_later (pos : nat) (t : string) :
  run reTrim (S pos) t [] (fun e _ c => Some (mkMatched (S pos) e c))
  = match t with
    | String _ _ =>
        if string_forall JS.is_space t
        then Some (mkMatched (S pos) (S pos + String.length t) [])
        else None
    | EmptyString => None
    end.
Proof.
  unfold reTrim, plus, Regex.s. cbn [run orElse].
  destruct t as [|c t]; [reflexivity|].
  cbn [string_forall]. destruct (JS.is_space c) eqn:Ec; [|reflexivity].
  match goal with
  | |- iterate _ true ?k ?f ?p ?u ?cs = _ =>
      change (iterate (run (Class JS.is_space)) true k f p u cs = 
              (if true && string_forall JS.is_space t
               then Some (mkMatched (S pos) (S pos + String.length (String c t)) [])
               else None))
  end.
  rewrite iterate_class_greedy by lia.
  rewrite (star_to_end _ (fun e c => mkMatched (S pos) e c)).
  - cbn [andb String.length].
    destruct (string_forall JS.is_space t); [|reflexivity].
    f_equal. f_equal. lia.
  - intros pos' [|d s'] caps'; reflexivity.
Qed.

(** The search from an offset past the start finds the trailing run of
    white space, if there is one. *)
Lemma exec_reTrim_later : forall t pos,
  match exec_from reTrim (S pos) t with
  | Some m =>
      (S pos <= m_index m)%nat /\ (m_index m < m_end m)%nat /\
      m_end m = (S pos + String.length t)%nat /\
      JS.substringTo (m_index m - S pos) t = JS.trimEnd t
  | None => JS.trimEnd t = t
  end.
Proof.
  induction t as [|c t IH]; intros pos.
  - cbn. reflexivity.
  - cbn [exec_from]. rewrite run_reTrim_later.
    destruct (string_forall JS.is_space (String c t)) eqn:Ea.
    + cbn [m_index m_end]. rewrite Nat.sub_diag, (trimEnd_all_space _ Ea).
      cbn [String.length]. repeat split; lia.
    + specialize (IH (S pos)). rewrite (trimEnd_cons_not_all c t Ea).
      destruct (exec_from reTrim (S (S pos)) t) as [m|].
      * destruct IH as (H1 & H2 & H3 & H4). cbn [String.length].
        repeat split; try lia.
        replace (m_index m - S pos)%nat with (S (m_index m - S (S pos))) by lia.
        cbn [JS.substringTo]. now rewrite H4.
      * now rewrite IH.
Qed.

Lemma substringFrom_length (t : string) : JS.substringFrom (String.length t) t = "".
Proof. induction t; [reflexivity|exact IHt]. Qed.

Lemma append_empty_r (t : string) : (t ++ "")%string = t.
Proof. induction t; cbn; congruence. Qed.

(** Past the start, one round of the global replace cuts the trailing
    white space. *)
Lemma remove_all_later (fuel pos : nat) (t : string) :
  remove_all reTrim (S fuel) (S pos) t = JS.trimEnd t.
Proof.
  cbn [remove_all]. pose proof (exec_reTrim_later t pos) as H.
  destruct (exec_from reTrim (S pos) t) as [m|]; [|now rewrite H].
  destruct H as (H1 & H2 & H3 & H4).
  destruct (m_end m - S pos <=? m_index m - S pos)%nat eqn:E;
    [apply Nat.leb_le in E; lia|].
  rewrite H4.
  replace (m_end m - S pos)%nat with (String.length t) by lia.
  rewrite substringFrom_length.
  assert (Hnil : forall f p, remove_all reTrim f p "" = "").
  { intros [|f] p; [reflexivity|]. cbn [remove_all exec_from].
    unfold reTrim, plus, Regex.s. cbn [run orElse].
    destruct p; reflexivity. }
  now rewrite Hnil, append_empty_r.
Qed.

(** One attempt of the pattern at the start of the input. *)
Lemma run_reTrim_start (c : ascii) (t : string) :
  run reTrim 0 (String c t) [] (fun e _ cs => Some (mkMatched 0 e cs))
  = if JS.is_space c
    then Some (mkMatched 0 (String.length (String c t)
                            - String.length (JS.trimStart (String c t))) [])
    else None.
Proof.
  unfold reTrim, plus, Regex.s. cbn [run orElse Nat.eqb].
  destruct (JS.is_space c) eqn:Ec; [|reflexivity].
  match goal with
  | |- orElse (iterate _ true ?k ?f ?p ?u ?cs) ?o = ?rhs =>
      change (orElse (iterate (run (Class JS.is_space)) true k f p u cs) o = rhs)
  end.
  rewrite iterate_class_greedy by lia.
  rewrite (star_to_any 0). cbn [orElse JS.trimStart]. rewrite Ec.
  f_equal. f_equal.
  assert (String.length (JS.trimStart t) <= String.length t)%nat.
  { clear. induction t as [|a t IH]; cbn; [lia|].
    destruct (JS.is_space a); cbn; lia. }
  cbn [String.length]. lia.
Qed.

Lemma trimStart_length (t : string) :
  (String.length (JS.trimStart t) <= String.length t)%nat.
Proof.
  induction t as [|a t IH]; cbn; [lia|]. destruct (JS.is_space a); cbn; lia.
Qed.

(** X12: on every string the script's [trim], a global replace of
    [/^\s+|\s+$/] by the empty string, returns what
    [String.prototype.trim], used by the server parser, returns. *)
Theorem X12_script_trim (s : string) : ScriptTrim.trim s = JS.trim s.
Proof.
  unfold ScriptTrim.trim, JS.trim. destruct s as [|c t]; [reflexivity|].
  cbn [remove_all exec_from]. rewrite run_reTrim_start.
  destruct (JS.is_space c) eqn:Ec.
  - cbn [m_index m_end]. rewrite !Nat.sub_0_r.
    pose proof (trimStart_length (String c t)) as Hl.
    assert (Hw : (String.length (String c t)
                  - String.length (JS.trimStart (String c t)))%nat
                 = S (String.length t - String.length (JS.trimStart t))).
    { cbn [JS.trimStart]. rewrite Ec. pose proof (trimStart_length t).
      cbn [String.length]. lia. }
    rewrite trimStart_drop. rewrite Hw. cbn [Nat.leb JS.substringTo append].
    change (String.length (String c t)) with (S (String.length t)).
    apply remove_all_later.
  - cbn [JS.trimStart]. rewrite Ec.
    pose proof (exec_reTrim_later t 0) as H.
    assert (Hns : string_forall JS.is_space (String c t) = false)
      by (cbn; now rewrite Ec).
    rewrite (trimEnd_cons_not_all c t Hns).
    destruct (exec_from reTrim 1 t) as [m|]; [|now rewrite H].
    destruct H as (H1 & H2 & H3 & H4). rewrite !Nat.sub_0_r.
    destruct (m_end m <=? m_index m)%nat eqn:E;
      [apply Nat.leb_le in E; lia|].
    replace (m_index m) with (S (m_index m - 1)) at 1 by lia.
    cbn [JS.substringTo append]. rewrite H4.
    replace (m_end m) with (String.length (String c t)) at 2
      by (cbn [String.length]; lia).
    rewrite substringFrom_length.
    assert (Hnil : forall f p, remove_all reTrim f p "" = "").
    { intros [|f] p; [reflexivity|]. cbn [remove_all exec_from].
      unfold reTrim, plus, Regex.s. cbn [run orElse].
      destruct p; reflexivity. }
    now rewrite Hnil, append_empty_r.
Qed.

End ScriptTrimProof.

(* ------------------------------------------------------------------ *)
(** ** The session store *)

Section SessionStore.
Import Regex.

Lemma run_times_class {R : Type} (p : ascii -> bool) (k : cont (R:=R)) :
  forall n pos t caps,
    run (times n (Class p)) pos t caps k
    = match take_n p n t with
      | Some rest => k (pos + n)%nat rest caps
      | None => None
      end.
Proof.
  induction n as [|n IH]; intros pos t caps.
  - cbn. now rewrite Nat.add_0_r.
  - destruct n as [|n].
    + cbn. destruct t as [|c r]; [reflexivity|].
      destruct (p c); [|reflexivity]. now rewrite Nat.add_1_r.
    + change (times (S (S n)) (Class p)) with (Cat (Class p) (times (S n) (Class p))).
      destruct t as [|c r]; [reflexivity|].
      change (take_n p (S (S n)) (String c r))
        with (if p c then take_n p (S n) r else None).
      cbn [run]. destruct (p c); [|reflexivity]. rewrite IH.
      destruct (take_n p (S n) r); [|reflexivity]. f_equal. lia.
Qed.

Lemma take_n_all (p : ascii -> bool) : forall n t,
  take_n p n t = Some ""
  <-> String.length t = n /\ string_forall p t = true.
Proof.
  induction n as [|n IH]; intros t.
  - cbn. split.
    + intros [= ->]. now split.
    + intros [H _]. destruct t; [reflexivity|discriminate].
  - destruct t as [|c r]; cbn.
    + split; [discriminate|intros [H _]; discriminate].
    + destruct (p c); cbn.
      * rewrite IH. split; intros [H1 H2]; split; congruence || lia.
      * split; [discriminate|intros [_ H]; discriminate].
Qed.

(** A pattern anchored with [^] matches at the start or nowhere. *)
Lemma exec_from_bol (r : regex) : forall t pos,
  exec_from (Cat Bol r) (S pos) t = None.
Proof.
  induction t as [|c t IH]; intros pos; cbn [exec_from run]; [reflexivity|].
  apply IH.
Qed.

Lemma token_regex_spec (t : string) : test Session.TOKEN_REGEX t = is_token t.
Proof.
  unfold test, exec, Session.TOKEN_REGEX, is_token.
  change (seq [Bol; times 32 (Class Session.is_hex); Eol false])
    with (Cat Bol (Cat (times 32 (Class Session.is_hex)) (Eol false))).
  assert (Hrun :
    run (Cat Bol (Cat (times 32 (Class Session.is_hex)) (Eol false))) 0 t []
        (fun e _ c => Some (mkMatched 0 e c))
    = match take_n Session.is_hex 32 t with
      | Some "" => Some (mkMatched 0 32 [])
      | _ => None
      end).
  { cbn [run]. rewrite run_times_class.
    destruct (take_n Session.is_hex 32 t) as [[|d rest]|]; reflexivity. }
  pose proof (take_n_all Session.is_hex 32 t) as Hspec.
  destruct t as [|c r].
  - reflexivity.
  - cbn [exec_from]. rewrite Hrun, exec_from_bol.
    destruct (take_n Session.is_hex 32 (String c r)) as [[|d rest]|] eqn:E.
    + destruct Hspec as [H _]. destruct (H eq_refl) as [Hl Hh].
      rewrite Hl, Hh. reflexivity.
    + destruct (Nat.eqb_spec (String.length (String c r)) 32) as [Hl|Hl];
        [|reflexivity].
      destruct (string_forall Session.is_hex (String c r)) eqn:Hh; [|reflexivity].
      destruct Hspec as [_ H]. now specialize (H (conj Hl eq_refl)).
    + destruct (Nat.eqb_spec (String.length (String c r)) 32) as [Hl|Hl];
        [|reflexivity].
      destruct (string_forall Session.is_hex (String c r)) eqn:Hh; [|reflexivity].
      destruct Hspec as [_ H]. now specialize (H (conj Hl eq_refl)).
Qed.

Lemma hex_not_space (c : ascii) : Session.is_hex c = true -> JS.is_space c = false.
Proof.
  destruct c as [[] [] [] [] [] [] [] []]; vm_compute; congruence.
Qed.

Lemma trimEnd_no_space (t : string) :
  string_forall (fun c => negb (JS.is_space c)) t = true -> JS.trimEnd t = t.
Proof.
  induction t as [|c t IH]; [reflexivity|]. cbn. intros H.
  apply andb_prop in H as [Hc Ht]. rewrite (IH Ht).
  destruct t; [|reflexivity]. apply negb_true_iff in Hc. now rewrite Hc.
Qed.

Lemma trim_token (t : string) : is_token t = true -> JS.trim t = t.
Proof.
  unfold is_token. intros H. apply andb_prop in H as [_ H].
  assert (Hn : string_forall (fun c => negb (JS.is_space c)) t = true).
  { induction t as [|c t IH]; [reflexivity|]. cbn in *.
    apply andb_prop in H as [Hc Ht]. now rewrite (hex_not_space _ Hc), IH. }
  unfold JS.trim.
  assert (Hs : JS.trimStart t = t).
  { destruct t as [|c t]; [reflexivity|]. cbn in *.
    apply andb_prop in Hn as [Hc _]. apply negb_true_iff in Hc. now rewrite Hc. }
  rewrite Hs. now apply trimEnd_no_space.
Qed.

Lemma trimStart_head (s : string) :
  match JS.trimStart s with
  | String c _ => JS.is_space c = false
  | EmptyString => True
  end.
Proof.
  induction s as [|c s IH]; [exact I|]. cbn.
  destruct (JS.is_space c) eqn:E; [exact IH|exact E].
Qed.

Lemma trimEnd_idem (s : string) : JS.trimEnd (JS.trimEnd s) = JS.trimEnd s.
Proof.
  induction s as [|c s IH]; [reflexivity|]. cbn.
  destruct (JS.trimEnd s) as [|d r] eqn:E.
  - destruct (JS.is_space c) eqn:Ec; [reflexivity|]. cbn. now rewrite Ec.
  - cbn [JS.trimEnd]. cbn [JS.trimEnd] in IH. rewrite IH. reflexivity.
Qed.

Lemma trim_idem (s : string) : JS.trim (JS.trim s) = JS.trim s.
Proof.
  unfold JS.trim. pose proof (trimStart_head s) as H.
  destruct (JS.trimStart s) as [|c r] eqn:E; [reflexivity|].
  assert (Hs : JS.trimStart (JS.trimEnd (String c r)) = JS.trimEnd (String c r)).
  { cbn. destruct (JS.trimEnd r); rewrite ?H; cbn; now rewrite H. }
  rewrite Hs. apply trimEnd_idem.
Qed.

Lemma setSession_spec (s : Session.FlicaSession) (st : Session.state) :
  match Session.setSession s st with
  | inr st' =>
      is_token (JS.trim (Session.token s)) = true /\
      st' = Some (Session.mkSession (JS.trim (Session.token s))
                                    (JS.trim (Session.cookies s)))
  | inl _ => is_token (JS.trim (Session.token s)) = false
  end.
Proof.
  unfold Session.setSession. rewrite token_regex_spec.
  destruct (is_token (JS.trim (Session.token s))); cbn; auto.
Qed.

Lemma setSession_ok (s : Session.FlicaSession) (st : Session.state) :
  session_ok st ->
  session_ok match Session.setSession s st with inr st' => st' | inl _ => st end.
Proof.
  intros Hst. pose proof (setSession_spec s st) as H.
  destruct (Session.setSession s st) as [e|st']; [exact Hst|].
  destruct H as [Ht ->]. cbn. split; [exact Ht|apply trim_idem].
Qed.

Lemma parseCurlCommand_spec (url : string -> option (option string))
    (input : string) (p : CurlParser.ParsedCredentials) :
  CurlParser.parseCurlCommand url input = inr p ->
  is_token (Session.token p) = true /\
  JS.trim (Session.cookies p) = Session.cookies p.
Proof.
  unfold CurlParser.parseCurlCommand, CurlParser.TOKEN_REGEX.
  rewrite token_regex_spec.
  destruct (is_token (JS.trim input)) eqn:Ht.
  - intros [= <-]. cbn. now split.
  - destruct (JS.startsWith (JS.trim input) "curl "); cbn [negb]; [|discriminate].
    destruct (exec CurlParser.reUrl (JS.trim input)) as [m|]; [|discriminate].
    destruct (url (group 1 m)) as [[tok|]|]; try discriminate.
    rewrite token_regex_spec.
    destruct (JS.truthy tok); cbn [negb orb]; [|discriminate].
    destruct (is_token tok) eqn:Htok; cbn [negb]; [|discriminate].
    intros [= <-]. cbn. split; [exact Htok|apply trim_idem].
Qed.

Lemma curl_then_session (url : string -> option (option string))
    (input : string) (p : CurlParser.ParsedCredentials) (st : Session.state) :
  CurlParser.parseCurlCommand url input = inr p ->
  Session.setSession p st = inr (Some p).
Proof.
  intros H. apply parseCurlCommand_spec in H as [Ht Hc].
  unfold Session.setSession. rewrite token_regex_spec, (trim_token _ Ht), Ht, Hc.
  cbn. now destruct p.
Qed.

Lemma perform_ok (url : string -> option (option string))
    (st : Session.state) (c : sessionCall) :
  session_ok st -> session_ok (perform url st c).
Proof.
  intros Hst. destruct c as [s|t| |c t]; cbn [perform].
  - now apply setSession_ok.
  - now apply setSession_ok.
  - exact I.
  - unfold CurlParser.postSession.
    assert (Htok : forall t0,
      session_ok (snd (match Session.setSession (Session.mkSession t0 "") st with
                       | inr st' => (CurlParser.JsonOk, st')
                       | inl m => (CurlParser.Status400 m, st)
                       end))).
    { intros t0. pose proof (setSession_ok (Session.mkSession t0 "") st Hst) as H.
      destruct (Session.setSession _ st); exact H. }
    assert (Hfall :
      session_ok (snd match t with
                      | Some t0 =>
                          if JS.truthy t0
                          then match Session.setSession (Session.mkSession t0 "") st with
                               | inr st' => (CurlParser.JsonOk, st')
                               | inl m => (CurlParser.Status400 m, st)
                               end
                          else (CurlParser.Status400 CurlParser.errMissing, st)
                      | None => (CurlParser.Status400 CurlParser.errMissing, st)
                      end)).
    { destruct t as [t0|]; [|exact Hst].
      destruct (JS.truthy t0); [apply Htok|exact Hst]. }
    destruct c as [c|]; [|exact Hfall].
    destruct (JS.truthy c); [|exact Hfall].
    destruct (CurlParser.parseCurlCommand url c) as [e|p] eqn:E; [exact Hst|].
    rewrite (curl_then_session url c p st E). cbn.
    exact (parseCurlCommand_spec url c p E).
Qed.

(** X13: whatever calls are made on the session store, through
    [setSession], [setToken], [clearSession] or the route
    [POST /api/session], and whether they throw or not, a stored session
    always has a token of exactly 32 hexadecimal digits and cookies
    without white space around them. *)
Theorem X13_session_invariant (url : string -> option (option string))
    (calls : list sessionCall) :
  session_ok (fold_left (perform url) calls Session.initial).
Proof.
  assert (H : forall st, session_ok st -> session_ok (fold_left (perform url) calls st)).
  { induction calls as [|c calls IH]; intros st Hst; [exact Hst|].
    cbn [fold_left]. apply IH. now apply perform_ok. }
  apply H. exact I.
Qed.

(** X14: credentials that [parseCurlCommand] returns are accepted by
    [setSession] and stored as they are: the token is 32 hexadecimal
    digits, and neither the token nor the cookies are changed by the
    trimming in [setSession].  So when the route answers 400 for a cURL
    command, it is the parser that refused it. *)
Theorem X14_curl_then_session (url : string -> option (option string))
    (input : string) (p : CurlParser.ParsedCredentials) (st : Session.state) :
  CurlParser.parseCurlCommand url input = inr p ->
  is_token (Session.token p) = true /\
  Session.setSession p st = inr (Some p) /\
  (JS.truthy input = true ->
   CurlParser.postSession url (Some input) None st = (CurlParser.JsonOk, Some p)).
Proof.
  intros H. split; [exact (proj1 (parseCurlCommand_spec url input p H))|].
  split; [exact (curl_then_session url input p st H)|].
  intros Ht. unfold CurlParser.postSession.
  now rewrite Ht, H, (curl_then_session url input p st H).
Qed.

Lemma X14_curl_then_session_witness :
  CurlParser.parseCurlCommand exampleUrlToken exampleCurl
  = inr (Session.mkSession "0123456789abcdefABCDEF0123456789" "a=b; c=d") /\
  Session.setSession (Session.mkSession "0123456789abcdefABCDEF0123456789" "a=b; c=d")
    Session.initial
  = inr (Some (Session.mkSession "0123456789abcdefABCDEF0123456789" "a=b; c=d")).
Proof.
  split; [vm_compute; reflexivity|].
  exact (proj1 (proj2 (X14_curl_then_session exampleUrlToken exampleCurl
                         (Session.mkSession "0123456789abcdefABCDEF0123456789" "a=b; c=d")
                         Session.initial ltac:(vm_compute; reflexivity)))).
Defined.

End SessionStore.

(* ------------------------------------------------------------------ *)
(** ** Decimal numerals *)

Section Decimals.

Lemma to_uint_normal (p : positive) :
  Decimal.unorm (Pos.to_uint p) = Pos.to_uint p.
Proof.
  rewrite <- (DecimalPos.Unsigned.to_of (Pos.to_uint p)).
  now rewrite DecimalPos.Unsigned.of_to.
Qed.

Lemma to_uint_head (p : positive) :
  match Pos.to_uint p with
  | Decimal.Nil | Decimal.D0 _ => False
  | _ => True
  end.
Proof.
  pose proof (to_uint_normal p) as Hn.
  pose proof (DecimalPos.Unsigned.to_uint_nonzero p) as Hz.
  pose proof (DecimalPos.Unsigned.to_uint_nonnil p) as Hnil.
  destruct (Pos.to_uint p) as [|u|u|u|u|u|u|u|u|u|u]; try exact I.
  - now apply Hnil.
  - rewrite DecimalFacts.unorm_D0 in Hn. unfold Decimal.unorm in Hn.
    pose proof (DecimalFacts.nzhead_nonzero u) as Hh.
    destruct (Decimal.nzhead u) eqn:E; try discriminate Hn.
    + injection Hn as Hn. apply Hz. now rewrite <- Hn.
    + exact (Hh _ eq_refl).
Qed.

Lemma unorm_app_head (u v : Decimal.uint) :
  match u with Decimal.Nil | Decimal.D0 _ => False | _ => True end ->
  Decimal.unorm (Decimal.app u v) = Decimal.app u v.
Proof.
  intros H.
  assert (E : forall w, DecimalFacts.to_list w = DecimalFacts.to_list u ++ DecimalFacts.to_list v ->
                        w = Decimal.app u v).
  { intros w Hw. apply DecimalFacts.to_list_inj.
    now rewrite DecimalFacts.app_spec. }
  destruct u as [|u|u|u|u|u|u|u|u|u|u]; try contradiction;
    match goal with
    | |- Decimal.unorm (Decimal.app (?D u) v) = _ =>
        rewrite <- (E (D (Decimal.app u v)))
          by (cbn; now rewrite DecimalFacts.app_spec);
        reflexivity
    end.
Qed.

Lemma of_uint_snoc (u : Decimal.uint) (d : Z) :
  0 <= d <= 9 ->
  Pos.of_uint (Decimal.app u (digitUint d)) = (10 * Pos.of_uint u + Z.to_N d)%N.
Proof.
  intros Hd. rewrite !DecimalPos.Unsigned.of_uint_alt.
  assert (E : forall w, DecimalFacts.to_list w
                        = List.rev (DecimalFacts.to_list u ++ DecimalFacts.to_list (digitUint d)) ->
                        Decimal.rev (Decimal.app u (digitUint d)) = w).
  { intros w Hw. apply DecimalFacts.to_list_inj.
    now rewrite DecimalFacts.rev_spec, DecimalFacts.app_spec. }
  assert (Hc : d = 0 \/ d = 1 \/ d = 2 \/ d = 3 \/ d = 4 \/ d = 5 \/ d = 6 \/
               d = 7 \/ d = 8 \/ d = 9) by lia.
  repeat (destruct Hc as [->|Hc];
    [match goal with
     | |- context [digitUint ?k] =>
         let D := eval cbv in (digitUint k) in
         match D with
         | ?C Decimal.Nil =>
             rewrite (E (C (Decimal.rev u)))
               by (cbn [digitUint DecimalFacts.to_list];
                   rewrite List.rev_app_distr, <- DecimalFacts.rev_spec; reflexivity)
         end
     end;
     cbn [DecimalPos.Unsigned.of_lu Z.to_N]; lia|]).
  subst d.
  rewrite (E (Decimal.D9 (Decimal.rev u)))
    by (cbn [digitUint DecimalFacts.to_list];
        rewrite List.rev_app_distr, <- DecimalFacts.rev_spec; reflexivity).
  cbn [DecimalPos.Unsigned.of_lu Z.to_N]. lia.
Qed.

Lemma string_of_uint_app (u v : Decimal.uint) :
  NilEmpty.string_of_uint (Decimal.app u v)
  = (NilEmpty.string_of_uint u ++ NilEmpty.string_of_uint v)%string.
Proof.
  assert (Hs : forall w, NilEmpty.string_of_uint w = digitsString (DecimalFacts.to_list w)).
  { intros w. unfold digitsString. now rewrite DecimalFacts.of_list_to_list. }
  rewrite (Hs (Decimal.app u v)), DecimalFacts.app_spec, (Hs u), (Hs v).
  unfold digitsString.
  induction (DecimalFacts.to_list u) as [|a l IH]; [reflexivity|].
  destruct a; cbn; now rewrite IH.
Qed.

(** [String(10 * n + d)] is [String(n)] followed by the digit [d]. *)
Lemma numberToString_snoc (n d : Z) :
  0 < n -> 0 <= d <= 9 ->
  JS.numberToString (10 * n + d)
  = (JS.numberToString n ++ String (digitChar d) "")%string.
Proof.
  intros Hn Hd. unfold JS.numberToString.
  destruct n as [|p|p]; try lia.
  destruct (10 * Z.pos p + d) as [|q|q] eqn:Eq; try lia.
  cbn [Z.to_int NilEmpty.string_of_int].
  assert (Hq : Pos.to_uint q = Decimal.app (Pos.to_uint p) (digitUint d)).
  { rewrite <- (unorm_app_head _ (digitUint d) (to_uint_head p)).
    rewrite <- DecimalPos.Unsigned.to_of, (of_uint_snoc _ d Hd).
    rewrite DecimalPos.Unsigned.of_to.
    replace (10 * N.pos p + Z.to_N d)%N with (N.pos q) by lia.
    reflexivity. }
  rewrite Hq, string_of_uint_app. f_equal.
  assert (Hc : d = 0 \/ d = 1 \/ d = 2 \/ d = 3 \/ d = 4 \/ d = 5 \/ d = 6 \/
               d = 7 \/ d = 8 \/ d = 9) by lia.
  repeat (destruct Hc as [->|Hc]; [reflexivity|]). subst d. reflexivity.
Qed.

Lemma numberToString_digit (d : Z) :
  0 <= d <= 9 -> JS.numberToString d = String (digitChar d) "".
Proof.
  intros Hd.
  assert (Hc : d = 0 \/ d = 1 \/ d = 2 \/ d = 3 \/ d = 4 \/ d = 5 \/ d = 6 \/
               d = 7 \/ d = 8 \/ d = 9) by lia.
  repeat (destruct Hc as [->|Hc]; [reflexivity|]). subst d. reflexivity.
Qed.

(** From 10 on, [String(y)] ends with the two digits of [y mod 100]. *)
Lemma numberToString_last2 (y : Z) :
  10 <= y ->
  exists pre, JS.numberToString y = (pre ++ twoDigits (y mod 100))%string.
Proof.
  intros Hy.
  assert (E1 : y = 10 * (y / 10) + y mod 10) by (apply Z.div_mod; lia).
  assert (H1 : 0 < y / 10) by (apply Z.div_str_pos; lia).
  assert (H2 : 0 <= y mod 10 <= 9) by (pose proof (Z.mod_pos_bound y 10); lia).
  assert (Ea : (y mod 100) / 10 = (y / 10) mod 10).
  { pose proof (Z.mod_pos_bound y 100). pose proof (Z.mod_pos_bound (y / 10) 10).
    pose proof (Z.div_mod y 100). pose proof (Z.div_mod (y / 10) 10).
    pose proof (Z.div_mod (y mod 100) 10). pose proof (Z.mod_pos_bound (y mod 100) 10).
    nia. }
  assert (Eb : (y mod 100) mod 10 = y mod 10).
  { pose proof (Z.mod_pos_bound y 100). 
    pose proof (Z.div_mod y 100). pose proof (Z.mod_pos_bound (y mod 100) 10).
    pose proof (Z.div_mod (y mod 100) 10). 
    pose proof (Z.div_mod y 10). nia. }
  unfold twoDigits. rewrite Ea, Eb.
  rewrite (f_equal JS.numberToString E1), (numberToString_snoc _ _ H1 H2).
  assert (H3 : 0 <= (y / 10) mod 10 <= 9)
    by (pose proof (Z.mod_pos_bound (y / 10) 10); lia).
  destruct (Z_lt_le_dec (y / 10) 10) as [Hs|Hl].
  - exists "". rewrite (Z.mod_small (y / 10) 10) by lia.
    now rewrite (numberToString_digit (y / 10)) by lia.
  - exists (JS.numberToString (y / 10 / 10)).
    assert (E2 : y / 10 = 10 * (y / 10 / 10) + (y / 10) mod 10)
      by (apply Z.div_mod; lia).
    assert (H4 : 0 < y / 10 / 10) by (apply Z.div_str_pos; lia).
    rewrite (f_equal JS.numberToString E2), (numberToString_snoc _ _ H4 H3).
    now rewrite append_assoc.
Qed.

End Decimals.

(* ------------------------------------------------------------------ *)
(** ** The fetcher *)

Section FetcherFacts.

Lemma substringFrom_append (a b : string) :
  JS.substringFrom (String.length a) (a ++ b) = b.
Proof. induction a as [|c a IH]; [now destruct b|exact IH]. Qed.

Lemma block_date_digits (month year : Z) :
  1 <= month <= 12 -> 10 <= year ->
  Fetcher.toBlockDate month year
  = (twoDigits month ++ twoDigits (year mod 100))%string.
Proof.
  intros Hm Hy. unfold Fetcher.toBlockDate, Fetcher.sliceLast2.
  rewrite (proj1 (pad_month month ltac:(lia))). f_equal.
  destruct (numberToString_last2 year Hy) as [pre ->].
  rewrite length_append.
  replace (String.length pre + String.length (twoDigits (year mod 100)) - 2)%nat
    with (String.length pre) by (cbn; lia).
  apply substringFrom_append.
Qed.

(** X15: for a month from 1 to 12 and a year from 10 on (and below
    2^53, where a JS number is the integer itself), the block date of
    [toBlockDate] (and of the same expression in the mobile WebView) is
    four decimal digits: the month, zero-padded to two digits, then the
    last two digits of the year. *)
Theorem X15_block_date (month year : Z) :
  1 <= month <= 12 -> 10 <= year < 9007199254740992 ->
  Fetcher.toBlockDate month year
  = (twoDigits month ++ twoDigits (year mod 100))%string /\
  String.length (Fetcher.toBlockDate month year) = 4%nat.
Proof.
  intros Hm Hy. rewrite block_date_digits by lia. now split.
Qed.

Lemma X15_block_date_witness :
  Fetcher.toBlockDate 2 2026 = "0226" /\
  String.length (Fetcher.toBlockDate 2 2026) = 4%nat.
Proof. exact (X15_block_date 2 2026 ltac:(lia) ltac:(lia)). Defined.

Lemma attemptOutcome_return (attempt : nat) (f : Fetcher.fetched) (html : string) :
  Fetcher.attemptOutcome attempt f = Fetcher.Return html ->
  exists r, f = Fetcher.Resolved r /\ Fetcher.body r = html /\
            200 <= Fetcher.status r <= 299 /\
            forall m, In m errorMarkers -> JS.includes html m = false.
Proof.
  destruct f as [|r]; [discriminate|]. cbn [Fetcher.attemptOutcome].
  destruct ((300 <=? Fetcher.status r) && (Fetcher.status r <? 400)).
  { destruct (_ || _); discriminate. }
  unfold Fetcher.ok.
  destruct ((200 <=? Fetcher.status r) && (Fetcher.status r <=? 299)) eqn:Eok;
    cbn [negb]; [|discriminate].
  destruct (JS.includes (Fetcher.body r) "g-recaptcha") eqn:E1; [discriminate|].
  destruct (JS.includes (Fetcher.body r) "recaptcha") eqn:E2; [discriminate|].
  destruct (JS.includes (Fetcher.body r) "CAPTCHA") eqn:E3; [discriminate|].
  destruct (JS.includes (Fetcher.body r) "Sign In to FLICA") eqn:E4; [discriminate|].
  destruct (JS.includes (Fetcher.body r) "login/index.html") eqn:E5; [discriminate|].
  destruct (JS.includes (Fetcher.body r) "InitializeSessionData") eqn:E6; [discriminate|].
  destruct (JS.includes (Fetcher.body r) "Application Error") eqn:E7; [discriminate|].
  destruct (JS.includes (Fetcher.body r) "Updating schedule in progress") eqn:E8.
  { cbn [orb]. destruct (_ =? _)%nat; discriminate. }
  cbn [orb]. intros H.
  assert (Hh : Fetcher.body r = html) by (destruct (_ || _); congruence).
  exists r. split; [reflexivity|]. split; [exact Hh|].
  apply andb_prop in Eok as [Ha Hb]. split; [lia|].
  subst html. intros m Hm. cbn [errorMarkers In] in Hm.
  repeat (destruct Hm as [<-|Hm]; [assumption|]). contradiction.
Qed.

Lemma attemptOutcome_continue (attempt : nat) (f : Fetcher.fetched) :
  Fetcher.attemptOutcome attempt f = Fetcher.Continue ->
  updatingPage f /\ attempt <> Fetcher.MAX_UPDATE_RETRIES.
Proof.
  destruct f as [|r]; [discriminate|]. cbn [Fetcher.attemptOutcome updatingPage].
  destruct ((300 <=? Fetcher.status r) && (Fetcher.status r <? 400)).
  { destruct (_ || _); discriminate. }
  unfold Fetcher.ok.
  destruct ((200 <=? Fetcher.status r) && (Fetcher.status r <=? 299)) eqn:Eok;
    cbn [negb]; [|discriminate].
  destruct (_ || _ || _); [discriminate|].
  destruct (_ || _); [discriminate|].
  destruct (_ || _); [discriminate|].
  destruct (JS.includes (Fetcher.body r) "Updating schedule in progress") eqn:E8.
  - destruct (Nat.eqb_spec attempt Fetcher.MAX_UPDATE_RETRIES); [discriminate|].
    intros _. apply andb_prop in Eok as [Ha Hb]. repeat split; try lia; assumption.
  - destruct (_ || _); discriminate.
Qed.

Lemma attemptOutcome_not_rate_limited (attempt : nat) (f : Fetcher.fetched) :
  Fetcher.attemptOutcome attempt f <> Fetcher.Throw Fetcher.RATE_LIMITED.
Proof.
  destruct f as [|r]; [discriminate|]. cbn [Fetcher.attemptOutcome].
  repeat match goal with
         | |- context [if ?b then _ else _] => destruct b
         end; discriminate.
Qed.

Lemma attempts_return (network : nat -> Fetcher.fetched) (html : string) :
  forall remaining attempt,
    Fetcher.attempts network attempt remaining = inr html ->
    exists k r,
      (attempt <= k < attempt + remaining)%nat /\
      network k = Fetcher.Resolved r /\ Fetcher.body r = html /\
      200 <= Fetcher.status r <= 299 /\
      (forall m, In m errorMarkers -> JS.includes html m = false) /\
      (forall j, (attempt <= j < k)%nat -> updatingPage (network j)).
Proof.
  induction remaining as [|remaining IH]; intros attempt; [discriminate|].
  cbn [Fetcher.attempts].
  destruct (Fetcher.attemptOutcome attempt (network attempt)) as [c| |h] eqn:E.
  - discriminate.
  - intros H. destruct (IH _ H) as (k & r & Hk & Hn & Hb & Hs & Hm & Hu).
    exists k, r. split; [lia|]. do 4 (split; [assumption|]).
    intros j Hj. destruct (Nat.eq_dec j attempt) as [->|Hne].
    + exact (proj1 (attemptOutcome_continue _ _ E)).
    + apply Hu. lia.
  - intros [= ->].
    destruct (attemptOutcome_return _ _ _ E) as (r & Hn & Hb & Hs & Hm).
    exists attempt, r. split; [lia|]. do 4 (split; [assumption|]).
    intros j Hj. lia.
Qed.

Lemma attempts_not_rate_limited (network : nat -> Fetcher.fetched) :
  forall remaining attempt,
    Fetcher.attempts network attempt remaining <> inl Fetcher.RATE_LIMITED.
Proof.
  induction remaining as [|remaining IH]; intros attempt; [discriminate|].
  cbn [Fetcher.attempts].
  pose proof (attemptOutcome_not_rate_limited attempt (network attempt)) as H.
  destruct (Fetcher.attemptOutcome attempt (network attempt)) as [c| |h].
  - intros [= ->]. now apply H.
  - apply IH.
  - discriminate.
Qed.

(** X16: a page that [fetchScheduleHtml] returns is the body of a
    response with a 2xx status, received at one of the at most seven
    attempts, that holds none of the markers of a CAPTCHA, login,
    session-failure or updating page; and every attempt before it got a
    2xx updating page. *)
Theorem X16_fetched_page (st st' : Fetcher.state) (now now' : Z)
    (network : nat -> Fetcher.fetched) (html : string) :
  Fetcher.fetchScheduleHtml st now now' network = (inr html, st') ->
  exists k r,
    (k <= Fetcher.MAX_UPDATE_RETRIES)%nat /\
    network k = Fetcher.Resolved r /\ Fetcher.body r = html /\
    200 <= Fetcher.status r <= 299 /\
    (forall m, In m errorMarkers -> JS.includes html m = false) /\
    (forall j, (j < k)%nat -> updatingPage (network j)).
Proof.
  unfold Fetcher.fetchScheduleHtml.
  destruct (Fetcher.requestInFlight st); [discriminate|].
  destruct (_ && _); [discriminate|].
  intros H.
  assert (H0 : Fetcher.attempts network 0 (S Fetcher.MAX_UPDATE_RETRIES) = inr html)
    by congruence.
  clear H.
  destruct (attempts_return _ _ _ _ H0) as (k & r & Hk & Hn & Hb & Hs & Hm & Hu).
  exists k, r. unfold Fetcher.MAX_UPDATE_RETRIES in *.
  split; [lia|]. do 4 (split; [assumption|]).
  intros j Hj. apply Hu. lia.
Qed.

Lemma X16_fetched_page_witness :
  exists k r,
    (k <= Fetcher.MAX_UPDATE_RETRIES)%nat /\
    exampleNetwork k = Fetcher.Resolved r /\ Fetcher.body r = examplePageHtml /\
    200 <= Fetcher.status r <= 299 /\
    (forall m, In m errorMarkers -> JS.includes examplePageHtml m = false) /\
    (forall j, (j < k)%nat -> updatingPage (exampleNetwork j)).
Proof.
  exact (X16_fetched_page Fetcher.initial (Fetcher.mkState 1001 false) 1000 1001
           exampleNetwork examplePageHtml ltac:(vm_compute; reflexivity)).
Defined.

(** A call on a store with no request in flight is either refused by the
    interval guard, and changes nothing, or let through. *)
Lemma fetch_cases (st : Fetcher.state) (now now' : Z)
    (network : nat -> Fetcher.fetched) :
  Fetcher.requestInFlight st = false ->
  let (r, st') := Fetcher.fetchScheduleHtml st now now' network in
  (letThrough r = false /\ st' = st) \/
  (letThrough r = true /\ st' = Fetcher.mkState now' false /\
   (Fetcher.lastRequestTime st + 5000 <= now \/ Fetcher.lastRequestTime st <= 0)).
Proof.
  intros Hf. unfold Fetcher.fetchScheduleHtml. rewrite Hf.
  unfold Fetcher.MIN_REQUEST_INTERVAL_MS.
  destruct (now - Fetcher.lastRequestTime st <? 5000) eqn:E1; cbn [andb].
  - destruct (0 <? Fetcher.lastRequestTime st) eqn:E2.
    + left. now split.
    + right. split; [|split; [reflexivity|right; lia]].
      pose proof (attempts_not_rate_limited network (S Fetcher.MAX_UPDATE_RETRIES) 0) as H.
      destruct (Fetcher.attempts network 0 (S Fetcher.MAX_UPDATE_RETRIES)) as [[]|];
        try reflexivity. now elim H.
  - right. split; [|split; [reflexivity|left; lia]].
    pose proof (attempts_not_rate_limited network (S Fetcher.MAX_UPDATE_RETRIES) 0) as H.
    destruct (Fetcher.attempts network 0 (S Fetcher.MAX_UPDATE_RETRIES)) as [[]|];
      try reflexivity. now elim H.
Qed.

Lemma gap_from : forall calls st t j cj rj,
  Fetcher.requestInFlight st = false ->
  Fetcher.lastRequestTime st <= t ->
  clock_ok t calls ->
  nth_error calls j = Some cj ->
  nth_error (fetchAll st calls) j = Some rj ->
  letThrough rj = true ->
  0 < Fetcher.lastRequestTime st ->
  Fetcher.lastRequestTime st + 5000 <= fst (fst cj).
Proof.
  induction calls as [|[[now now'] network] rest IH];
    intros st t j cj rj Hf Ht Hc Hj Hr Hl Hp.
  - destruct j; discriminate.
  - cbn [clock_ok] in Hc. destruct Hc as (H1 & H2 & H3 & Hc).
    cbn [fetchAll] in Hr. pose proof (fetch_cases st now now' network Hf) as Hcase.
    destruct (Fetcher.fetchScheduleHtml st now now' network) as [r st'].
    destruct j as [|j]; cbn [nth_error] in Hj, Hr.
    + injection Hj as <-. injection Hr as <-. cbn [fst].
      destruct Hcase as [[Hn _]|(_ & _ & Hg)]; [congruence|lia].
    + destruct Hcase as [[_ ->]|(_ & -> & _)].
      * apply (IH st now' j cj rj); try assumption. lia.
      * pose proof (IH (Fetcher.mkState now' false) now' j cj rj eq_refl
                       ltac:(cbn; lia) Hc Hj Hr Hl ltac:(cbn; lia)) as H.
        cbn [Fetcher.lastRequestTime] in H. lia.
Qed.

Lemma gap_between : forall calls st t i j ci cj ri rj,
  Fetcher.requestInFlight st = false ->
  Fetcher.lastRequestTime st <= t ->
  clock_ok t calls ->
  (i < j)%nat ->
  nth_error calls i = Some ci -> nth_error calls j = Some cj ->
  nth_error (fetchAll st calls) i = Some ri ->
  nth_error (fetchAll st calls) j = Some rj ->
  letThrough ri = true -> letThrough rj = true ->
  snd (fst ci) + 5000 <= fst (fst cj).
Proof.
  induction calls as [|[[now now'] network] rest IH];
    intros st t i j ci cj ri rj Hf Ht Hc Hij Hi Hj Hri Hrj Hli Hlj.
  - destruct i; discriminate.
  - cbn [clock_ok] in Hc. destruct Hc as (H1 & H2 & H3 & Hc).
    cbn [fetchAll] in Hri, Hrj.
    pose proof (fetch_cases st now now' network Hf) as Hcase.
    destruct (Fetcher.fetchScheduleHtml st now now' network) as [r st'].
    destruct j as [|j]; [lia|]. cbn [nth_error] in Hj, Hrj.
    destruct i as [|i]; cbn [nth_error] in Hi, Hri.
    + injection Hi as <-. injection Hri as <-. cbn [fst snd].
      destruct Hcase as [[Hn _]|(_ & -> & _)]; [congruence|].
      exact (gap_from rest (Fetcher.mkState now' false) now' j cj rj eq_refl
               ltac:(cbn; lia) Hc Hj Hrj Hlj ltac:(cbn; lia)).
    + assert (Hst : Fetcher.requestInFlight st' = false /\
                    Fetcher.lastRequestTime st' <= now').
      { destruct Hcase as [[_ ->]|(_ & -> & _)]; cbn; split; try assumption;
          try reflexivity; lia. }
      destruct Hst as [Hf' Ht'].
      apply (IH st' now' i j ci cj ri rj); try assumption. lia.
Qed.

(** X17: over calls made one after the other has settled, with a
    positive clock that does not run backwards, two calls that are let
    through (that do not fail with RATE_LIMITED) start at least 5000 ms
    apart: the later one reads the clock no earlier than 5000 ms after
    the earlier one recorded its request time. *)
Theorem X17_rate_limit (calls : list (Z * Z * (nat -> Fetcher.fetched)))
    (i j : nat) (ci cj : Z * Z * (nat -> Fetcher.fetched))
    (ri rj : Fetcher.code + string) :
  clock_ok 0 calls ->
  (i < j)%nat ->
  nth_error calls i = Some ci -> nth_error calls j = Some cj ->
  nth_error (fetchAll Fetcher.initial calls) i = Some ri ->
  nth_error (fetchAll Fetcher.initial calls) j = Some rj ->
  letThrough ri = true -> letThrough rj = true ->
  snd (fst ci) + 5000 <= fst (fst cj).
Proof.
  intros Hc. apply (gap_between calls Fetcher.initial 0); try assumption.
  - reflexivity.
  - cbn. lia.
Qed.

Lemma X17_rate_limit_witness :
  fetchAll Fetcher.initial exampleCalls
  = [inr examplePageHtml; inl Fetcher.RATE_LIMITED; inr examplePageHtml] /\
  1001 + 5000 <= 7000.
Proof.
  split; [vm_compute; reflexivity|].
  exact (X17_rate_limit exampleCalls 0 2
           (1000, 1001, exampleNetwork) (7000, 7002, exampleNetwork)
           (inr examplePageHtml) (inr examplePageHtml)
           ltac:(cbn; lia) ltac:(lia) eq_refl eq_refl
           ltac:(vm_compute; reflexivity) ltac:(vm_compute; reflexivity)
           eq_refl eq_refl).
Defined.

End FetcherFacts.

(* ------------------------------------------------------------------ *)
(** ** The day list of the schedule screen *)

Section DayList.

Lemma last_map_some {A : Type} (b : A) (l : list A) :
  exists x, last (map Some (b :: l)) None = Some x.
Proof.
  revert b. induction l as [|c l IH]; intros b; [now exists b|].
  destruct (IH c) as [x Hx]. exists x. exact Hx.
Qed.

Lemma last_some_cons {A : Type} (a : A) (l : list A) :
  last (map Some (a :: l)) None
  = match last (map Some l) None with
    | Some x => Some x
    | None => Some a
    end.
Proof.
  destruct l as [|b l]; [reflexivity|].
  change (last (map Some (a :: b :: l)) None) with (last (map Some (b :: l)) None).
  destruct (last_map_some b l) as [x ->]. reflexivity.
Qed.

Lemma lastItemOfDay_cons (d : Z) (it : ScheduleItem) (rest : list ScheduleItem) :
  lastItemOfDay d (it :: rest)
  = match lastItemOfDay d rest with
    | Some x => Some x
    | None =>
        match itemDay it with
        | Some k => if k =? d then Some it else None
        | None => None
        end
    end.
Proof.
  unfold lastItemOfDay. cbn [filter].
  destruct (itemDay it) as [k|].
  - destruct (k =? d).
    + now rewrite last_some_cons.
    + now destruct (last _ None).
  - now destruct (last _ None).
Qed.

Lemma mapGet_fold (d : Z) : forall its m,
  ScheduleScreen.mapGet d
    (fold_left
       (fun m item =>
          match JS.parseInt (JS.substringTo 2 (ScheduleScreen.itemDateStr item)) with
          | Some day => (day, item) :: m
          | None => m
          end) its m)
  = match lastItemOfDay d its with
    | Some x => Some x
    | None => ScheduleScreen.mapGet d m
    end.
Proof.
  induction its as [|it rest IH]; intros m; [reflexivity|].
  cbn [fold_left]. rewrite IH, lastItemOfDay_cons.
  destruct (lastItemOfDay d rest); [reflexivity|].
  unfold itemDay.
  destruct (JS.parseInt (JS.substringTo 2 (ScheduleScreen.itemDateStr it))) as [k|];
    [|reflexivity].
  cbn [ScheduleScreen.mapGet]. now destruct (k =? d).
Qed.

(** The map built by the first loop gives, for a day number, the last
    item filed under it. *)
Lemma mapGet_itemsByDay (d : Z) (its : list ScheduleItem) :
  ScheduleScreen.mapGet d (ScheduleScreen.itemsByDay its) = lastItemOfDay d its.
Proof.
  unfold ScheduleScreen.itemsByDay. rewrite mapGet_fold.
  now destruct (lastItemOfDay d its).
Qed.

Lemma dayViews_expected (its : list ScheduleItem) :
  forall days before,
    ScheduleScreen.dayViews (ScheduleScreen.itemsByDay its)
      (carriedTrip its before) days
    = expectedViews its before days.
Proof.
  induction days as [|calDay rest IH]; intros before; [reflexivity|].
  cbn [ScheduleScreen.dayViews expectedViews].
  unfold ScheduleScreen.dayView. rewrite mapGet_itemsByDay.
  assert (Hc : match lastItemOfDay (dayOfMonth calDay) its with
               | Some (ItemTrip _) => lastItemOfDay (dayOfMonth calDay) its
               | _ => carriedTrip its before
               end = carriedTrip its (calDay :: before)).
  { cbn [carriedTrip]. unfold isTripItem.
    destruct (lastItemOfDay (dayOfMonth calDay) its) as [[t|a]|]; reflexivity. }
  rewrite Hc. unfold expectedView.
  destruct (JS.startsWith (activity calDay) "O");
    [|destruct (negb (String.eqb (activity calDay) ""));
      [|destruct (negb (String.eqb (layoverAirport calDay) ""))]];
    now rewrite <- IH.
Qed.

(** X18: the day list has one entry per calendar day, and each entry is
    determined as follows.  The item filed under a day is the last
    schedule item whose date text starts with that day number.  A day
    with an activity code shows the item filed under it; a day with no
    activity code but a layover airport shows the trip filed under the
    nearest day, going back in the calendar from this day, that has a trip
    filed under it; a day with neither is an off day. *)
Theorem X18_day_views (schedule : MonthlySchedule) :
  ScheduleScreen.buildDayViewModels schedule
  = expectedViews (items schedule) [] (calendar schedule).
Proof.
  unfold ScheduleScreen.buildDayViewModels.
  exact (dayViews_expected (items schedule) (calendar schedule) []).
Qed.

End DayList.

(* ------------------------------------------------------------------ *)
(** ** From the parser to the day list *)

Section ParserToDayList.
Import Dom Patterns Regex RegexSpec.

Lemma date_token_day (t : string) :
  is_date_token t ->
  exists d, JS.parseInt (JS.substringTo 2 t) = Some d /\ 0 <= d <= 99.
Proof.
  intros (d1 & d2 & u1 & u2 & u3 & -> & H1 & H2 & _).
  cbn [JS.substringTo]. unfold JS.parseInt.
  destruct (digit_not_space d1 H1) as (Hs & Hm & Hp).
  cbn [JS.trimStart]. rewrite Hs, Hm, Hp, H1.
  eexists. split; [reflexivity|].
  cbn [JS.digits_acc]. rewrite H1, H2.
  pose proof (digit_val_range d1 H1). pose proof (digit_val_range d2 H2). lia.
Qed.

Lemma server_activity_date (table : node) (a : Activity) :
  Server.parseActivity table = Some a -> is_date_token (act_dateStr a).
Proof.
  unfold Server.parseActivity.
  destruct (exec reActivity _) as [m|] eqn:E; [|discriminate].
  destruct (fold_left _ _ _) as [[[[sd st] ed] et] cr].
  intros [= <-]. cbn. exact (proj2 (activity_groups _ _ E)).
Qed.

Lemma server_item_day (year monthNumber : Z) (table : node) (item : ScheduleItem) :
  In item (Server.scheduleItem year monthNumber table) ->
  exists d, itemDay item = Some d /\ 0 <= d <= 99.
Proof.
  unfold Server.scheduleItem, itemDay.
  destruct (Server.isSeparator table); [intros []|].
  destruct (Server.isTripTable table).
  - destruct (Server.parseTrip table year monthNumber) as [t|] eqn:E; [|intros []].
    intros [<-|[]]. cbn [ScheduleScreen.itemDateStr].
    apply date_token_day. apply server_trip_fields in E. apply E.
  - destruct (Server.isActivityTable table); [|intros []].
    destruct (Server.parseActivity table) as [a|] eqn:E; [|intros []].
    intros [<-|[]]. cbn [ScheduleScreen.itemDateStr].
    apply date_token_day. exact (server_activity_date _ _ E).
Qed.

Lemma lastItemOfDay_some (d : Z) (its : list ScheduleItem) (item : ScheduleItem) :
  In item its -> itemDay item = Some d ->
  exists shown, lastItemOfDay d its = Some shown /\ itemDay shown = Some d.
Proof.
  induction its as [|it rest IH]; intros Hin Hd; [contradiction|].
  rewrite lastItemOfDay_cons. destruct Hin as [->|Hin].
  - destruct (lastItemOfDay d rest) as [x|] eqn:E.
    + exists x. split; [reflexivity|].
      clear -E. induction rest as [|r rest IH]; [discriminate|].
      rewrite lastItemOfDay_cons in E.
      destruct (lastItemOfDay d rest) as [y|]; [injection E as ->; now apply IH|].
      destruct (itemDay r) as [k|] eqn:Ek; [|discriminate].
      destruct (Z.eqb_spec k d); [|discriminate]. injection E as <-. congruence.
    + rewrite Hd, Z.eqb_refl. now exists item.
  - destruct (IH Hin Hd) as (x & -> & Hx). now exists x.
Qed.

Lemma lastItemOfDay_none (d : Z) (its : list ScheduleItem) :
  lastItemOfDay d its = None -> forall x, In x its -> itemDay x <> Some d.
Proof.
  induction its as [|it rest IH]; intros H x Hx; [contradiction|].
  rewrite lastItemOfDay_cons in H.
  destruct (lastItemOfDay d rest) as [y|]; [discriminate|].
  destruct Hx as [<-|Hx]; [|now apply IH].
  destruct (itemDay it) as [k|]; [|discriminate].
  destruct (Z.eqb_spec k d); [discriminate|congruence].
Qed.

Lemma lastItemOfDay_split (d : Z) (its : list ScheduleItem) (shown : ScheduleItem) :
  lastItemOfDay d its = Some shown ->
  exists before after,
    its = before ++ shown :: after /\ itemDay shown = Some d /\
    (forall x, In x after -> itemDay x <> Some d).
Proof.
  induction its as [|it rest IH]; intros H; [discriminate|].
  rewrite lastItemOfDay_cons in H.
  destruct (lastItemOfDay d rest) as [y|] eqn:E.
  - injection H as ->. destruct (IH eq_refl) as (b & a & -> & Hd & Ha).
    exists (it :: b), a. auto.
  - destruct (itemDay it) as [k|] eqn:Ek; [|discriminate].
    destruct (Z.eqb_spec k d) as [->|]; [|discriminate]. injection H as <-.
    exists [], rest. repeat split; [exact Ek|].
    now apply lastItemOfDay_none.
Qed.

(** X19: every item the server parser emits is filed by the day list:
    the first two characters of its date text are a day number d between
    0 and 99, so the guard against an unreadable day never drops it.  The
    item shown for day d is the last item of the schedule with day number
    d: the schedule's items are some items, then the shown item, whose
    day number is d, then items none of which has day number d.  So the
    shown item is this item or one that comes later in the schedule and
    has the same day number: this item is the shown one or stands among
    the items before it. *)
Theorem X19_items_filed (currentYear : Z) (doc : node) (item : ScheduleItem) :
  In item (items (Server.parseScheduleDetail currentYear doc)) ->
  exists d shown before after,
    itemDay item = Some d /\ 0 <= d <= 99 /\
    ScheduleScreen.mapGet d
      (ScheduleScreen.itemsByDay (items (Server.parseScheduleDetail currentYear doc)))
    = Some shown /\
    items (Server.parseScheduleDetail currentYear doc) = before ++ shown :: after /\
    itemDay shown = Some d /\
    (forall later, In later after -> itemDay later <> Some d) /\
    (item = shown \/ In item before).
Proof.
  intros Hin.
  assert (Hd : exists d, itemDay item = Some d /\ 0 <= d <= 99).
  { unfold Server.parseScheduleDetail in Hin. cbn [items] in Hin.
    unfold Server.parseScheduleItems in Hin.
    apply in_flat_map in Hin as (table & _ & Hin).
    exact (server_item_day _ _ _ _ Hin). }
  destruct Hd as (d & Hd & Hr).
  destruct (lastItemOfDay_some d _ item Hin Hd) as (shown & Hs & _).
  destruct (lastItemOfDay_split d _ shown Hs) as (before & after & Heq & Hsd & Hafter).
  exists d, shown, before, after. rewrite mapGet_itemsByDay.
  do 5 (split; [assumption|]). split; [exact Hafter|].
  rewrite Heq in Hin. apply in_app_or in Hin as [Hin|[Hin|Hin]].
  - now right.
  - now left.
  - exfalso. exact (Hafter item Hin Hd).
Qed.

Lemma X19_items_filed_witness :
  exists item d shown before after,
    In item (items (Server.parseScheduleDetail 2026 ordinaryPage)) /\
    itemDay item = Some d /\ 0 <= d <= 99 /\
    ScheduleScreen.mapGet d
      (ScheduleScreen.itemsByDay (items (Server.parseScheduleDetail 2026 ordinaryPage)))
    = Some shown /\
    items (Server.parseScheduleDetail 2026 ordinaryPage) = before ++ shown :: after /\
    itemDay shown = Some d /\
    (forall later, In later after -> itemDay later <> Some d) /\
    (item = shown \/ In item before).
Proof.
  destruct (items (Server.parseScheduleDetail 2026 ordinaryPage)) as [|item rest] eqn:E;
    [vm_compute in E; discriminate|].
  assert (Hin : In item (items (Server.parseScheduleDetail 2026 ordinaryPage)))
    by (rewrite E; now left).
  destruct (X19_items_filed 2026 ordinaryPage item Hin)
    as (d & shown & before & after & H).
  exists item, d, shown, before, after. rewrite <- E. split; [exact Hin|exact H].
Defined.

End ParserToDayList.

(* ------------------------------------------------------------------ *)
(** ** The trip totals *)

Section TripTotalsExtras.
Import Dom.





End TripTotalsExtras.

(* ------------------------------------------------------------------ *)
(** ** The selection of the sidebar *)

Section SidebarSelection.
Import Dom.

Lemma located_eq (anc : list node) (t : string) (a : list (string * string))
    (kids : list node) :
  located anc (Element t a kids)
  = (anc, Element t a kids) :: flat_map (located (Element t a kids :: anc)) kids.
Proof.
  reflexivity.
Qed.

(** An element comes with the elements below it. *)
Lemma located_descendants : forall n anc,
  map snd (located anc n)
  = match n with
    | Text _ => []
    | Element _ _ _ => n :: descendants n
    end.
Proof.
  induction n as [s|t a kids IH] using node_induction; intros anc; [reflexivity|].
  rewrite located_eq. cbn [map snd]. f_equal. cbn [descendants].
  generalize (Element t a kids :: anc) as anc'. intros anc'.
  induction IH as [|k r Hk _ IHr]; [reflexivity|].
  cbn [flat_map]. rewrite map_app, Hk, IHr. now destruct k.
Qed.

(** The chain of an element found below [n] ends with the chain of [n];
    what comes before are elements found at or below [n]. *)
Lemma located_chain : forall n anc x,
  In x (located anc n) ->
  exists pre, fst x = pre ++ anc /\
              Forall (fun p => In p (map snd (located anc n))) pre.
Proof.
  induction n as [s|t a kids IH] using node_induction; intros anc x Hx;
    [destruct Hx|].
  rewrite located_eq in Hx |- *. destruct Hx as [<-|Hx].
  - exists []. split; [reflexivity|constructor].
  - apply in_flat_map in Hx as (k & Hk & Hx).
    rewrite Forall_forall in IH.
    destruct (IH k Hk _ _ Hx) as (pre & Hpre & Hall).
    exists (pre ++ [Element t a kids]). split.
    + now rewrite <- app_assoc.
    + apply Forall_app. split.
      * rewrite Forall_forall in Hall |- *. intros p Hp. cbn [map snd]. right.
        rewrite flat_map_concat_map, concat_map, map_map, in_concat.
        exists (map snd (located (Element t a kids :: anc) k)). split.
        -- apply in_map_iff. now exists k.
        -- now apply Hall.
      * constructor; [now left|constructor].
Qed.

Lemma map_flat_map {A B C : Type} (g : B -> C) (h : A -> list B) (l : list A) :
  map g (flat_map h l) = flat_map (fun k => map g (h k)) l.
Proof.
  induction l as [|k r IH]; [reflexivity|].
  cbn [flat_map]. now rewrite map_app, IH.
Qed.

Section Selection.
Variable P f : node -> bool.

Lemma filter_snd {A B : Type} (g : B -> bool) (l : list (A * B)) :
  map snd (filter (fun x => g (snd x)) l) = filter g (map snd l).
Proof.
  induction l as [|x l IH]; [reflexivity|]. cbn.
  destruct (g (snd x)); cbn; now rewrite IH.
Qed.

Lemma selected_inside (anc : list node) (n : node) :
  existsb P anc = true ->
  selected P f anc n = filter f (map snd (located anc n)).
Proof.
  intros Ha. unfold selected. rewrite <- filter_snd. f_equal.
  apply filter_ext_in. intros x Hx.
  destruct (located_chain n anc x Hx) as (pre & -> & _).
  now rewrite existsb_app, Ha, orb_true_r, andb_true_r.
Qed.

Lemma selected_none (anc : list node) (n : node) :
  existsb P anc = false ->
  filter P (map snd (located anc n)) = [] ->
  selected P f anc n = [].
Proof.
  intros Ha Hn. unfold selected.
  assert (E : filter (fun x => f (snd x) && existsb P (fst x)) (located anc n) = []).
  { assert (Hf : forall l : list (list node * node), filter (fun _ => false) l = [])
      by (induction l; [reflexivity|assumption]).
    rewrite <- (filter_ext_in (fun _ => false)); [apply Hf|].
    intros x Hx. destruct (located_chain n anc x Hx) as (pre & -> & Hall).
    rewrite existsb_app, Ha, orb_false_r.
    assert (Hp : existsb P pre = false).
    { apply not_true_is_false. intros Hp. apply existsb_exists in Hp as (p & Hp & HP).
      rewrite Forall_forall in Hall.
      assert (Hin : In p (filter P (map snd (located anc n))))
        by (apply filter_In; auto).
      rewrite Hn in Hin. destruct Hin. }
    now rewrite Hp, andb_false_r. }
  now rewrite E.
Qed.

Lemma selected_kids (anc : list node) (kids : list node) :
  map snd (filter (fun x => f (snd x) && existsb P (fst x))
             (flat_map (located anc) kids))
  = flat_map (selected P f anc) kids.
Proof.
  induction kids as [|k r IH]; [reflexivity|].
  cbn [flat_map]. now rewrite filter_app, map_app, IH.
Qed.

Lemma selected_inside_kids (anc : list node) (kids : list node) :
  existsb P anc = true ->
  flat_map (selected P f anc) kids
  = filter f (flat_map (fun k => map snd (located anc k)) kids).
Proof.
  intros Hin. induction kids as [|k r IHr]; [reflexivity|].
  cbn [flat_map]. now rewrite filter_app, IHr, (selected_inside _ _ Hin).
Qed.

Lemma selected_none_kids (anc : list node) (kids : list node) :
  existsb P anc = false ->
  filter P (flat_map (fun k => map snd (located anc k)) kids) = [] ->
  flat_map (selected P f anc) kids = [].
Proof.
  intros Ha. induction kids as [|k r IHr]; [reflexivity|].
  cbn [flat_map]. rewrite filter_app. intros H.
  apply app_eq_nil in H as [H1 H2].
  now rewrite (selected_none _ _ Ha H1), IHr.
Qed.

Lemma selected_one_kids (anc : list node) (kids : list node) (e : node) :
  Forall (fun n => forall anc e,
            existsb P anc = false ->
            filter P (map snd (located anc n)) = [e] ->
            selected P f anc n = filter f (descendants e)) kids ->
  existsb P anc = false ->
  filter P (flat_map (fun k => map snd (located anc k)) kids) = [e] ->
  flat_map (selected P f anc) kids = filter f (descendants e).
Proof.
  intros IH Ha. induction IH as [|k r Hk _ IHr]; [discriminate|].
  cbn [flat_map]. rewrite filter_app. intros He.
  apply app_eq_unit in He as [[Hk0 Hr]|[Hk1 Hr]].
  - rewrite (selected_none _ _ Ha Hk0). now apply IHr.
  - now rewrite (Hk _ _ Ha Hk1), (selected_none_kids _ _ Ha Hr), app_nil_r.
Qed.

Lemma selected_one : forall n anc e,
  existsb P anc = false ->
  filter P (map snd (located anc n)) = [e] ->
  selected P f anc n = filter f (descendants e).
Proof.
  induction n as [s|t a kids IH] using node_induction; intros anc e Ha He;
    [discriminate He|].
  assert (Hsel : selected P f anc (Element t a kids)
                 = flat_map (selected P f (Element t a kids :: anc)) kids).
  { unfold selected at 1. rewrite located_eq. cbn [filter fst snd].
    rewrite Ha, andb_false_r. apply selected_kids. }
  assert (Hels : map snd (located anc (Element t a kids))
                 = Element t a kids
                   :: flat_map (fun k => map snd (located (Element t a kids :: anc) k)) kids).
  { rewrite located_eq. cbn [map snd]. f_equal. apply map_flat_map. }
  rewrite Hsel. rewrite Hels in He. cbn [filter] in He.
  destruct (P (Element t a kids)) eqn:HP.
  - injection He as <- He.
    rewrite selected_inside_kids by (cbn [existsb]; now rewrite HP).
    f_equal. pose proof (located_descendants (Element t a kids) anc) as Hd.
    rewrite Hels in Hd. now injection Hd.
  - apply (selected_one_kids _ _ _ IH); [|exact He].
    cbn [existsb]. now rewrite HP.
Qed.

End Selection.

Lemma filter_sub {A : Type} (p q : A -> bool) (l : list A) :
  (forall x, p x = true -> q x = true) ->
  filter p l = filter p (filter q l).
Proof.
  intros H. induction l as [|x l IH]; [reflexivity|]. cbn.
  destruct (p x) eqn:Ep.
  - rewrite (H x Ep). cbn. now rewrite Ep, IH.
  - destruct (q x); cbn; now rewrite ?Ep, IH.
Qed.

Lemma one_sidebar_server (doc e : node) :
  filter isSidebarCandidate (Server.elements doc) = [e] ->
  isTag "table" e = true ->
  Server.table2Rows doc = find "tr" e.
Proof.
  intros He Ht.
  assert (H2 : filter Server.isTable2 (map snd (located [] doc)) = [e]).
  { fold (Server.elements doc).
    rewrite (filter_sub Server.isTable2 isSidebarCandidate), He.
    - cbn. assert (Hq : isSidebarCandidate e = true).
      { assert (Hin : In e (filter isSidebarCandidate (Server.elements doc)))
          by (rewrite He; now left).
        now apply filter_In in Hin. }
      unfold Server.isTable2. unfold isSidebarCandidate in Hq. rewrite Ht in *.
      cbn [andb] in *. now rewrite Hq.
    - intros x. unfold Server.isTable2, isSidebarCandidate.
      destruct (isTag "table" x), (attrIs "id" "table2" x),
        (attrIs "name" "table2" x); cbn; congruence. }
  exact (selected_one Server.isTable2 (isTag "tr") doc [] e eq_refl H2).
Qed.

Lemma one_sidebar_webview (doc e : node) :
  filter isSidebarCandidate (Server.elements doc) = [e] ->
  isTag "table" e = true ->
  WebView.table2 doc = Some e.
Proof.
  intros He Ht.
  assert (Hq : isSidebarCandidate e = true).
  { assert (Hin : In e (filter isSidebarCandidate (Server.elements doc)))
      by (rewrite He; now left).
    now apply filter_In in Hin. }
  unfold WebView.table2, WebView.querySelector.
  change (WebView.elements doc) with (Server.elements doc).
  rewrite (filter_sub (attrIs "id" "table2") isSidebarCandidate), He
    by (intros x Hx; unfold isSidebarCandidate; now rewrite Hx).
  rewrite (filter_sub (fun n => isTag "table" n && attrIs "name" "table2" n)
             isSidebarCandidate), He
    by (intros x Hx; unfold isSidebarCandidate; rewrite Hx; apply orb_true_r).
  cbn [filter]. unfold isSidebarCandidate in Hq. rewrite Ht in *. cbn [andb] in *.
  destruct (attrIs "id" "table2" e); [reflexivity|].
  cbn [orb] in Hq. rewrite Hq. reflexivity.
Qed.

(** X21: when exactly one element of the document has id table2 or is
    a table named table2, and that element is a table, both parsers scan
    the same sidebar rows, the rows below that table in document order,
    and return the same calendar and the same summary. *)
Theorem X21_one_sidebar (doc e : node) :
  filter isSidebarCandidate (Server.elements doc) = [e] ->
  isTag "table" e = true ->
  Server.table2Rows doc = find "tr" e /\
  webviewTable2Rows doc = find "tr" e /\
  WebView.parseCalendar doc = Some (Server.parseCalendar doc) /\
  WebView.parseSummary doc = Some (Server.parseSummary doc).
Proof.
  intros He Ht.
  pose proof (one_sidebar_server doc e He Ht) as Hs.
  pose proof (one_sidebar_webview doc e He Ht) as Hw.
  split; [exact Hs|]. split; [unfold webviewTable2Rows; now rewrite Hw|].
  unfold WebView.parseCalendar, Server.parseCalendar,
    WebView.parseSummary, Server.parseSummary.
  rewrite Hw, Hs. split.
  - apply flatMapM_some. intros; apply webview_calendarRow.
  - apply foldM_some, webview_summaryRow.
Qed.

Lemma X21_one_sidebar_witness :
  WebView.parseCalendar ordinaryPage = Some (Server.parseCalendar ordinaryPage) /\
  WebView.parseSummary ordinaryPage = Some (Server.parseSummary ordinaryPage).
Proof.
  exact (proj2 (proj2 (X21_one_sidebar ordinaryPage Examples.sidebar
                         ltac:(vm_compute; reflexivity)
                         ltac:(vm_compute; reflexivity)))).
Defined.

End SidebarSelection.

(* ------------------------------------------------------------------ *)
(** ** The selection of the content tables *)

Section ContentPanel.
Import Dom.

Lemma filter_nil_in {A : Type} (p : A -> bool) (l : list A) :
  (forall x, In x l -> p x = false) -> filter p l = [].
Proof.
  induction l as [|x l IH]; intros H; [reflexivity|]. cbn.
  rewrite (H x (or_introl eq_refl)). apply IH. intros y Hy. apply H. now right.
Qed.

Lemma filter_flat_map {A B : Type} (p : B -> bool) (h : A -> list B) (l : list A) :
  filter p (flat_map h l) = flat_map (fun k => filter p (h k)) l.
Proof.
  induction l as [|k r IH]; [reflexivity|].
  cbn [flat_map]. now rewrite filter_app, IH.
Qed.

Lemma flat_map_filter {A B : Type} (p : A -> bool) (h : A -> list B) (l : list A) :
  flat_map h (filter p l) = flat_map (fun k => if p k then h k else []) l.
Proof.
  induction l as [|k r IH]; [reflexivity|]. cbn.
  destruct (p k); cbn; now rewrite IH.
Qed.

Lemma flat_map_ext_in {A B : Type} (g h : A -> list B) (l : list A) :
  (forall k, In k l -> g k = h k) -> flat_map g l = flat_map h l.
Proof.
  induction l as [|k r IH]; intros H; [reflexivity|]. cbn [flat_map].
  rewrite (H k (or_introl eq_refl)), IH; [reflexivity|].
  intros k' Hk'. apply H. now right.
Qed.

Lemma in_firstn {A : Type} (l : list A) : forall m x, In x (firstn m l) -> In x l.
Proof.
  induction l as [|a l IH]; intros [|m] x H; cbn in *; try contradiction.
  destruct H as [->|H]; [now left|right; now apply (IH m)].
Qed.

Lemma flat_map_flat_map {A B C : Type} (g : B -> list C) (h : A -> list B)
    (l : list A) :
  flat_map g (flat_map h l) = flat_map (fun k => flat_map g (h k)) l.
Proof.
  induction l as [|k r IH]; [reflexivity|].
  cbn [flat_map]. now rewrite flat_map_app, IH.
Qed.

Lemma nth_error_in_firstn {A : Type} (l : list A) : forall i m x,
  nth_error l i = Some x -> (i < m)%nat -> In x (firstn m l).
Proof.
  induction l as [|a l IH]; intros i m x Hx Hi; [destruct i; discriminate|].
  destruct m as [|m]; [lia|]. destruct i as [|i]; cbn in *.
  - left. congruence.
  - right. apply (IH i); [exact Hx|lia].
Qed.

(** A main cell has the content panel as its second or third ancestor. *)
Lemma mainCell_table4 (x : list node * node) :
  Server.isMainCell x = true ->
  exists i p, (1 <= i <= 2)%nat /\ nth_error (fst x) i = Some p /\
              Server.isTable4 p = true.
Proof.
  destruct x as [chain y]. unfold Server.isMainCell. cbn [fst snd].
  destruct chain as [|p1 [|p2 rest]]; rewrite ?andb_false_r; try discriminate.
  intros H. apply andb_prop in H as [_ H]. apply andb_prop in H as [_ H].
  apply orb_prop in H as [H|H].
  - exists 1%nat, p2. repeat split; try lia. exact H.
  - apply andb_prop in H as [_ H]. destruct rest as [|p3 rest]; [discriminate|].
    exists 2%nat, p3. repeat split; try lia. exact H.
Qed.

(** No main cell where no content panel is near. *)
Lemma no_main : forall n anc,
  existsb Server.isTable4 (firstn 3 anc) = false ->
  (forall y, In y (map snd (located anc n)) -> Server.isTable4 y = false) ->
  filter Server.isMainCell (located anc n) = [].
Proof.
  intros n anc Ha Hn. apply filter_nil_in. intros x Hx.
  apply not_true_is_false. intros Hm.
  destruct (mainCell_table4 x Hm) as (i & p & Hi & Hp & Ht).
  destruct (located_chain n anc x Hx) as (pre & Hpre & Hall).
  rewrite Hpre in Hp. rewrite Forall_forall in Hall.
  destruct (Nat.lt_ge_cases i (length pre)) as [Hlt|Hge].
  - rewrite nth_error_app1 in Hp by exact Hlt. apply nth_error_In in Hp.
    rewrite (Hn p (Hall p Hp)) in Ht. discriminate.
  - rewrite nth_error_app2 in Hp by exact Hge.
    assert (Hin : In p (firstn 3 anc))
      by (apply (nth_error_in_firstn anc (i - length pre)); [exact Hp|lia]).
    assert (He : existsb Server.isTable4 (firstn 3 anc) = true)
      by (apply existsb_exists; eauto).
    congruence.
Qed.

Lemma no_main_kids (anc : list node) (kids : list node) :
  existsb Server.isTable4 (firstn 3 anc) = false ->
  (forall k y, In k kids -> In y (map snd (located anc k)) ->
               Server.isTable4 y = false) ->
  flat_map (fun k => map snd (filter Server.isMainCell (located anc k))) kids = [].
Proof.
  intros Ha Hn. induction kids as [|k r IH]; [reflexivity|].
  cbn [flat_map]. rewrite (no_main k anc Ha), IH.
  - reflexivity.
  - intros k' y Hk'. apply Hn. now right.
  - intros y. apply Hn. now left.
Qed.

(** What is found at or below a child is found below the parent. *)
Lemma kid_elements (t : string) (a : list (string * string)) (kids : list node)
    (k y : node) (anc : list node) :
  In k kids -> In y (map snd (located anc k)) ->
  In y (descendants (Element t a kids)).
Proof.
  intros Hk Hy. rewrite located_descendants in Hy. apply in_descendants.
  exists k. split; [exact Hk|]. destruct k as [s|t' a' c']; [destruct Hy|].
  destruct Hy as [<-|Hy]; [left; eauto|now right].
Qed.

Lemma table_not_row (n : node) :
  Server.isTable4 n = true -> isTag "tr" n = false /\ isTag "td" n = false.
Proof.
  unfold Server.isTable4. destruct n as [s|t a c]; [discriminate|]. cbn [isTag].
  intros H. apply andb_prop in H as [H _]. apply String.eqb_eq in H. now subst t.
Qed.

Section BelowPanel.
Variables (panel : node) (anc : list node).
Hypothesis Hpanel : Server.isTable4 panel = true.

(** A node three levels below the panel. *)
Lemma level0 (h g k : node) :
  Server.isTable4 g = false -> Server.isTable4 k = false ->
  (forall y, In y (map snd (located [] h)) -> Server.isTable4 y = false) ->
  map snd (filter Server.isMainCell (located (g :: k :: panel :: anc) h))
  = if isTag "td" h && isTag "tr" g && isTag "tbody" k then [h] else [].
Proof.
  intros Hg Hk Hh. destruct h as [s|t a kids]; [reflexivity|].
  rewrite located_eq. cbn [filter].
  assert (Hself : Server.isTable4 (Element t a kids) = false)
    by (apply Hh; rewrite located_descendants; now left).
  assert (Hrest : map snd (filter Server.isMainCell
                     (flat_map (located (Element t a kids :: g :: k :: panel :: anc)) kids))
                  = []).
  { rewrite filter_flat_map, map_flat_map. apply no_main_kids.
    - cbn. now rewrite Hself, Hg, Hk.
    - intros k' y Hk' Hy. apply Hh. rewrite located_descendants. right.
      exact (kid_elements t a kids k' y _ Hk' Hy). }
  unfold Server.isMainCell at 1. cbn [fst snd]. rewrite Hk, Hpanel. cbn [orb].
  rewrite andb_true_r, andb_assoc.
  destruct (isTag "td" (Element t a kids) && isTag "tr" g && isTag "tbody" k);
    cbn [map snd]; now rewrite Hrest.
Qed.

Lemma flat_map_if {A : Type} (p : A -> bool) (c : bool) (l : list A) :
  flat_map (fun h => if p h && c then [h] else []) l
  = if c then filter p l else [].
Proof.
  induction l as [|h l IH]; [now destruct c|]. cbn. rewrite IH.
  destruct c; rewrite ?andb_false_r, ?andb_true_r; [|reflexivity].
  now destruct (p h).
Qed.

(** A node two levels below the panel. *)
Lemma level1 (g k : node) :
  Server.isTable4 k = false ->
  (forall y, In y (map snd (located [] g)) -> Server.isTable4 y = false) ->
  map snd (filter Server.isMainCell (located (k :: panel :: anc) g))
  = (if isTag "td" g && isTag "tr" k then [g] else [])
    ++ (if isTag "tr" g && isTag "tbody" k then children "td" g else []).
Proof.
  intros Hk Hg. destruct g as [s|t a kids]; [reflexivity|].
  rewrite located_eq. cbn [filter].
  assert (Hself : Server.isTable4 (Element t a kids) = false)
    by (apply Hg; rewrite located_descendants; now left).
  assert (Hrest : map snd (filter Server.isMainCell
                     (flat_map (located (Element t a kids :: k :: panel :: anc)) kids))
                  = if isTag "tr" (Element t a kids) && isTag "tbody" k
                    then children "td" (Element t a kids) else []).
  { rewrite filter_flat_map, map_flat_map.
    rewrite (flat_map_ext_in _
               (fun h => if isTag "td" h
                            && (isTag "tr" (Element t a kids) && isTag "tbody" k)
                         then [h] else [])).
    - apply flat_map_if.
    - intros h Hh. rewrite level0; [now rewrite andb_assoc|exact Hself|exact Hk|].
      intros y Hy. apply Hg. rewrite located_descendants. right.
      exact (kid_elements t a kids h y _ Hh Hy). }
  unfold Server.isMainCell at 1. cbn [fst snd]. rewrite Hpanel. cbn [orb].
  rewrite andb_true_r.
  destruct (isTag "td" (Element t a kids) && isTag "tr" k);
    cbn [map snd app]; now rewrite Hrest.
Qed.

(** A child of the panel. *)
Lemma level2 (k : node) :
  (forall y, In y (map snd (located [] k)) -> Server.isTable4 y = false) ->
  map snd (filter Server.isMainCell (located (panel :: anc) k))
  = if isTag "tr" k then children "td" k
    else if isTag "tbody" k then flat_map (children "td") (children "tr" k)
         else [].
Proof.
  intros Hk. destruct k as [s|t a kids]; [reflexivity|].
  rewrite located_eq. cbn [filter].
  assert (Hself : Server.isTable4 (Element t a kids) = false)
    by (apply Hk; rewrite located_descendants; now left).
  assert (Hhead : Server.isMainCell (panel :: anc, Element t a kids) = false).
  { unfold Server.isMainCell. cbn [fst snd].
    destruct anc as [|p2 rest]; [apply andb_false_r|].
    rewrite (proj1 (table_not_row panel Hpanel)). apply andb_false_r. }
  rewrite Hhead, filter_flat_map, map_flat_map.
  rewrite (flat_map_ext_in _
             (fun g => (if isTag "td" g && isTag "tr" (Element t a kids)
                        then [g] else [])
                       ++ (if isTag "tr" g && isTag "tbody" (Element t a kids)
                           then children "td" g else []))).
  - unfold children. cbn [childNodes]. rewrite flat_map_filter.
    assert (Hx : isTag "tr" (Element t a kids) = true ->
                 isTag "tbody" (Element t a kids) = false).
    { cbn [isTag]. intros H. apply String.eqb_eq in H. now subst t. }
    destruct (isTag "tr" (Element t a kids)) eqn:Etr.
    + rewrite (Hx eq_refl). clear. induction kids as [|g r IH]; [reflexivity|].
      cbn. rewrite !andb_true_r, !andb_false_r, app_nil_r, IH.
      now destruct (isTag "td" g).
    + destruct (isTag "tbody" (Element t a kids)).
      * clear. induction kids as [|g r IH]; [reflexivity|].
        cbn [flat_map]. rewrite !andb_true_r, !andb_false_r, IH. reflexivity.
      * clear. induction kids as [|g r IH]; [reflexivity|].
        cbn [flat_map]. now rewrite !andb_false_r, IH.
  - intros g Hg. apply level1; [exact Hself|].
    intros y Hy. apply Hk. rewrite located_descendants. right.
    exact (kid_elements t a kids g y _ Hg Hy).
Qed.

End BelowPanel.

(** The main cells of a panel with no other panel below it. *)
Lemma panel_main_cells (panel : node) (anc : list node) :
  Server.isTable4 panel = true ->
  filter Server.isTable4 (descendants panel) = [] ->
  map snd (filter Server.isMainCell (located anc panel)) = mainCellsOf panel.
Proof.
  intros Hp Hd. destruct panel as [s|t a kids]; [discriminate Hp|].
  assert (Hbelow : forall y, In y (descendants (Element t a kids)) ->
                             Server.isTable4 y = false).
  { intros y Hy. apply not_true_is_false. intros Ht.
    assert (Hin : In y (filter Server.isTable4 (descendants (Element t a kids))))
      by (apply filter_In; auto).
    rewrite Hd in Hin. destruct Hin. }
  rewrite located_eq. cbn [filter].
  assert (Hhead : Server.isMainCell (anc, Element t a kids) = false).
  { unfold Server.isMainCell. cbn [fst snd].
    now rewrite (proj2 (table_not_row _ Hp)). }
  rewrite Hhead, filter_flat_map, map_flat_map.
  unfold mainCellsOf. cbn [childNodes].
  apply flat_map_ext_in. intros k Hk. apply (level2 _ anc Hp).
  intros y Hy. apply Hbelow. exact (kid_elements t a kids k y _ Hk Hy).
Qed.

Lemma one_panel_kids (panel : node) (anc : list node) (kids : list node) :
  Forall (fun n => forall anc,
            existsb Server.isTable4 anc = false ->
            filter Server.isTable4 (map snd (located anc n)) = [panel] ->
            map snd (filter Server.isMainCell (located anc n)) = mainCellsOf panel)
         kids ->
  existsb Server.isTable4 anc = false ->
  filter Server.isTable4 (flat_map (fun k => map snd (located anc k)) kids) = [panel] ->
  flat_map (fun k => map snd (filter Server.isMainCell (located anc k))) kids
  = mainCellsOf panel.
Proof.
  intros IH Ha.
  assert (Ha3 : existsb Server.isTable4 (firstn 3 anc) = false).
  { apply not_true_is_false. intros H. apply existsb_exists in H as (p & Hp & Ht).
    assert (He : existsb Server.isTable4 anc = true)
      by (apply existsb_exists; exists p; split; [now apply (in_firstn anc 3)|exact Ht]).
    congruence. }
  assert (Hnone : forall l : list node,
            filter Server.isTable4 (flat_map (fun k => map snd (located anc k)) l) = [] ->
            flat_map (fun k => map snd (filter Server.isMainCell (located anc k))) l = []).
  { intros l Hl. apply no_main_kids; [exact Ha3|].
    intros k y Hk Hy. apply not_true_is_false. intros Ht.
    assert (Hin : In y (filter Server.isTable4
                          (flat_map (fun k => map snd (located anc k)) l))).
    { apply filter_In. split; [|exact Ht]. apply in_flat_map. now exists k. }
    rewrite Hl in Hin. destruct Hin. }
  induction IH as [|k r Hk _ IHr]; [discriminate|].
  cbn [flat_map]. rewrite filter_app. intros He.
  apply app_eq_unit in He as [[Hk0 Hr]|[Hk1 Hr]].
  - rewrite (IHr Hr). 
    assert (H0 : map snd (filter Server.isMainCell (located anc k)) = []).
    { pose proof (Hnone [k]) as H. cbn [flat_map] in H. rewrite !app_nil_r in H.
      now apply H. }
    now rewrite H0.
  - now rewrite (Hk _ Ha Hk1), (Hnone r Hr), app_nil_r.
Qed.

(** With one content panel in the document, the cells matched by the
    server's selector are the main cells of that panel. *)
Lemma one_panel : forall n anc panel,
  existsb Server.isTable4 anc = false ->
  filter Server.isTable4 (map snd (located anc n)) = [panel] ->
  map snd (filter Server.isMainCell (located anc n)) = mainCellsOf panel.
Proof.
  induction n as [s|t a kids IH] using node_induction; intros anc panel Ha He;
    [discriminate He|].
  destruct (Server.isTable4 (Element t a kids)) eqn:Ht.
  - rewrite located_descendants in He. cbn [filter] in He. rewrite Ht in He.
    injection He as <- He. now apply panel_main_cells.
  - rewrite located_eq in He |- *. cbn [map snd filter] in He |- *.
    rewrite Ht in He.
    assert (Hhead : Server.isMainCell (anc, Element t a kids) = false).
    { apply not_true_is_false. intros Hm.
      destruct (mainCell_table4 _ Hm) as (i & p & _ & Hp & Hpt).
      cbn [fst] in Hp. apply nth_error_In in Hp.
      assert (Hex : existsb Server.isTable4 anc = true)
        by (apply existsb_exists; eauto).
      congruence. }
    rewrite Hhead, filter_flat_map, map_flat_map. rewrite map_flat_map in He.
    apply (one_panel_kids panel _ kids); [|cbn [existsb]; now rewrite Ht|exact He].
    apply (Forall_impl _ (fun n H anc0 => H anc0 panel) IH).
Qed.

Lemma first_map {A B : Type} (g : A -> B) (l : list A) :
  first (map g l) = option_map g (first l).
Proof. now destruct l. Qed.

Lemma one_panel_tables (doc panel : node) :
  filter Server.isTable4 (Server.elements doc) = [panel] ->
  children "tr" panel = [] \/ children "tbody" panel = [] ->
  WebView.allTables doc = Server.allTables doc /\
  Server.allTables doc
  = match first (mainCellsOf panel) with
    | Some cell => children "table" cell
    | None => []
    end.
Proof.
  intros Hone Hrows.
  assert (Hs : Server.allTables doc
               = match first (mainCellsOf panel) with
                 | Some cell => children "table" cell
                 | None => []
                 end).
  { unfold Server.allTables.
    assert (Hex : existsb Server.isTable4 (Server.elements doc) = true).
    { apply existsb_exists. exists panel.
      apply filter_In. rewrite Hone. now left. }
    rewrite Hex, <- (one_panel doc [] panel eq_refl Hone), first_map.
    now destruct (first (filter Server.isMainCell (located [] doc))). }
  split; [|exact Hs]. rewrite Hs.
  unfold WebView.allTables, WebView.querySelector.
  change (WebView.elements doc) with (Server.elements doc).
  change WebView.isTable4 with Server.isTable4. rewrite Hone. cbn [first hd_error].
  assert (Hm : WebView.mainCell panel = first (mainCellsOf panel)).
  { unfold WebView.mainCell, mainCellsOf.
    destruct Hrows as [Hr|Hb].
    - rewrite Hr. cbn [flat_map first hd_error].
      assert (E : forall o : option node, Regex.orElse o None = o) by (now intros [x|]).
      rewrite E. f_equal. unfold children at 3.
      rewrite flat_map_filter, flat_map_flat_map.
      apply flat_map_ext_in. intros k Hk.
      assert (Hk' : isTag "tr" k = false).
      { apply not_true_is_false. intros H.
        assert (Hin : In k (children "tr" panel)) by (apply filter_In; auto).
        rewrite Hr in Hin. destruct Hin. }
      rewrite Hk'. now destruct (isTag "tbody" k).
    - rewrite Hb. cbn [flat_map first hd_error Regex.orElse]. f_equal.
      unfold children at 2. rewrite flat_map_filter.
      apply flat_map_ext_in. intros k Hk.
      assert (Hk' : isTag "tbody" k = false).
      { apply not_true_is_false. intros H.
        assert (Hin : In k (children "tbody" panel)) by (apply filter_In; auto).
        rewrite Hb in Hin. destruct Hin. }
      rewrite Hk'. now destruct (isTag "tr" k). }
  rewrite Hm. reflexivity.
Qed.

(** X22: when exactly one element of the document is a table named
    table4 and its rows either all sit under tbody children or are all
    its own children, both parsers take the same main cell, the first in
    document order of the cells of those rows, and so walk the same
    content tables. *)
Theorem X22_one_content_panel (doc panel : node) :
  filter Server.isTable4 (Server.elements doc) = [panel] ->
  children "tr" panel = [] \/ children "tbody" panel = [] ->
  WebView.allTables doc = Server.allTables doc /\
  Server.allTables doc
  = match first (mainCellsOf panel) with
    | Some cell => children "table" cell
    | None => []
    end.
Proof. exact (one_panel_tables doc panel). Qed.

Lemma X22_one_content_panel_witness :
  WebView.allTables ordinaryPage = Server.allTables ordinaryPage.
Proof.
  refine (proj1 (X22_one_content_panel ordinaryPage
                   (Dom.Element "table" [("name", "table4")]
                      [Dom.Element "tbody" []
                         [Examples.tr
                            [Dom.Element "td" []
                               [Dom.Element "table" [("name", "headertable")] [];
                                Examples.tripWithFlights;
                                Examples.activityTable]]]])
                   _ _)).
  - vm_compute. reflexivity.
  - left. vm_compute. reflexivity.
Defined.

End ContentPanel.

(* ------------------------------------------------------------------ *)
(** ** The two parsers on well-structured pages *)

Section PlainPages.
Import Dom.

Lemma filter_nil_sub {A : Type} (p q : A -> bool) (l : list A) :
  (forall x, p x = true -> q x = true) -> filter q l = [] -> filter p l = [].
Proof. intros H Hq. now rewrite (filter_sub p q l H), Hq. Qed.

Lemma sidebar_rows_agree (doc : node) :
  at_most_one_sidebar doc -> webviewTable2Rows doc = Server.table2Rows doc.
Proof.
  intros [Hnone|(e & He & Ht)].
  - assert (Hs : Server.table2Rows doc = []).
    { apply (selected_none Server.isTable2 (isTag "tr") [] doc eq_refl).
      apply (filter_nil_sub _ isSidebarCandidate); [|exact Hnone].
      intros x. unfold Server.isTable2, isSidebarCandidate.
      destruct (isTag "table" x), (attrIs "id" "table2" x),
        (attrIs "name" "table2" x); cbn; congruence. }
    rewrite Hs. unfold webviewTable2Rows, WebView.table2, WebView.querySelector.
    change (WebView.elements doc) with (Server.elements doc).
    rewrite (filter_nil_sub (attrIs "id" "table2") isSidebarCandidate _)
      by (try exact Hnone; intros x Hx; unfold isSidebarCandidate; now rewrite Hx).
    rewrite (filter_nil_sub (fun n => isTag "table" n && attrIs "name" "table2" n)
               isSidebarCandidate _)
      by (try exact Hnone; intros x Hx; unfold isSidebarCandidate; rewrite Hx;
          apply orb_true_r).
    reflexivity.
  - unfold webviewTable2Rows.
    now rewrite (one_sidebar_webview doc e He Ht), (one_sidebar_server doc e He Ht).
Qed.

Lemma content_tables_agree (doc : node) :
  at_most_one_panel doc -> WebView.allTables doc = Server.allTables doc.
Proof.
  intros [Hnone|(panel & Hp & Hrows)].
  - unfold WebView.allTables, Server.allTables, WebView.querySelector.
    change (WebView.elements doc) with (Server.elements doc).
    change WebView.isTable4 with Server.isTable4. rewrite Hnone.
    assert (Hex : existsb Server.isTable4 (Server.elements doc) = false).
    { apply not_true_is_false. intros H. apply existsb_exists in H as (x & Hx & Ht).
      assert (Hin : In x (filter Server.isTable4 (Server.elements doc)))
        by (apply filter_In; auto).
      rewrite Hnone in Hin. destruct Hin. }
    now rewrite Hex.
  - exact (proj1 (one_panel_tables doc panel Hp Hrows)).
Qed.

(** X23: in a document of either mode, the script and the server parser
    return the same schedule, and the script posts no error, for every
    document that has at most one sidebar candidate (an element with id
    table2 or a table named table2), which is a table; at most one table
    named table4, whose rows all sit under tbody children or are all its
    own children; a heading whose month word is an English month name or
    is missing; trip blocks with plain class attributes on which the two
    crew-table tests agree; and, if the document is in quirks mode, trip
    blocks whose class names are exact (no class token equals "main" or
    "bold" only up to ASCII case). *)
Theorem X23_parsers_agree_on_plain_pages (quirks : bool) (currentYear : Z)
    (doc : node) :
  at_most_one_sidebar doc ->
  at_most_one_panel doc ->
  h_monthNumber (Server.parseHeader currentYear doc) <> -1 ->
  trip_blocks_read_alike doc ->
  trip_blocks_mode_free quirks doc ->
  Script.parseScheduleDetail quirks currentYear doc
  = Some (Server.parseScheduleDetail currentYear doc).
Proof.
  intros Hside Hpanel. apply script_agree_from_selection.
  - now apply sidebar_rows_agree.
  - now apply content_tables_agree.
Qed.

Lemma X23_parsers_agree_on_plain_pages_witness :
  Script.parseScheduleDetail true 2026 ordinaryPage
  = Some (Server.parseScheduleDetail 2026 ordinaryPage).
Proof.
  apply X23_parsers_agree_on_plain_pages.
  - right. exists Examples.sidebar. split; vm_compute; reflexivity.
  - right. eexists. split; [vm_compute; reflexivity|]. left. vm_compute. reflexivity.
  - vm_compute. discriminate.
  - intros t Ht Hcls. vm_compute in Ht.
    destruct Ht as [<-|[<-|[<-|[]]]]; try (vm_compute in Hcls; discriminate Hcls).
    split.
    + apply forallb_In. vm_compute. reflexivity.
    + intros el Hel. apply Bool.eqb_prop. revert el Hel.
      apply (forallb_In (fun el => Bool.eqb (serverCrewTest el) (webviewCrewTest el))).
      vm_compute. reflexivity.
  - intros t Ht Hcls _. vm_compute in Ht.
    destruct Ht as [<-|[<-|[<-|[]]]]; try (vm_compute in Hcls; discriminate Hcls).
    unfold class_names_exact. apply forallb_In. vm_compute. reflexivity.
Defined.

End PlainPages.

(* ------------------------------------------------------------------ *)
(** ** The live route *)

Section LiveRouteFacts.

(** X24: when the live route does not answer 400 for its query, the
    month and year it parsed are a month from 1 to 12 and a year from
    2020 on, and the block date it requests is four decimal digits, the
    month zero-padded followed by the last two digits of the year.  A
    missing or non-numeric parameter, a month outside 1..12 and a year
    before 2020 are all answered with 400.  The year is taken below 2^53,
    where [parseInt] returns the integer itself. *)
Theorem X24_live_block_date (monthQ yearQ : option string) (b : string) :
  (forall y, LiveRoute.queryInt yearQ = Some y -> y < 9007199254740992) ->
  LiveRoute.blockDate monthQ yearQ = Some b ->
  exists m y,
    LiveRoute.queryInt monthQ = Some m /\ LiveRoute.queryInt yearQ = Some y /\
    1 <= m <= 12 /\ 2020 <= y /\
    b = (twoDigits m ++ twoDigits (y mod 100))%string /\
    String.length b = 4%nat.
Proof.
  intros _. unfold LiveRoute.blockDate.
  destruct (LiveRoute.queryInt monthQ) as [m|]; [|discriminate].
  destruct (LiveRoute.queryInt yearQ) as [y|];
    [|cbn; rewrite orb_true_r; discriminate].
  destruct (LiveRoute.falsy (Some m) || LiveRoute.falsy (Some y)); [discriminate|].
  destruct (m <? 1) eqn:E1; [discriminate|].
  destruct (m >? 12) eqn:E2; [discriminate|].
  destruct (y <? 2020) eqn:E3; [discriminate|].
  cbn [orb]. intros [= <-]. exists m, y.
  assert (Hm : 1 <= m <= 12) by lia. assert (Hy : 2020 <= y) by lia.
  repeat split; try lia.
  - apply block_date_digits; lia.
  - rewrite block_date_digits by lia. reflexivity.
Qed.

Lemma X24_live_block_date_witness :
  exists m y,
    LiveRoute.queryInt (Some "02") = Some m /\
    LiveRoute.queryInt (Some "2026") = Some y /\
    1 <= m <= 12 /\ 2020 <= y /\
    "0226" = (twoDigits m ++ twoDigits (y mod 100))%string /\
    String.length "0226" = 4%nat.
Proof.
  refine (X24_live_block_date (Some "02") (Some "2026") "0226" _ eq_refl).
  intros y [= <-]. vm_compute. reflexivity.
Defined.

End LiveRouteFacts.

(* ------------------------------------------------------------------ *)
(** ** The TAFB of a parsed trip on the trip card *)

Section TafbShown.

Lemma digits_prefix (s : string) : forall n,
  string_forall JS.is_digit s = true ->
  string_forall JS.is_digit (JS.substringTo n s) = true.
Proof.
  induction s as [|c s IH]; intros [|n] H; try reflexivity.
  cbn in *. apply andb_prop in H as [Hc Hs]. now rewrite Hc, IH.
Qed.

Lemma digits_suffix (s : string) : forall n,
  string_forall JS.is_digit s = true ->
  string_forall JS.is_digit (JS.substringFrom n s) = true.
Proof.
  induction s as [|c s IH]; intros [|n] H; try reflexivity; try exact H.
  cbn in *. apply andb_prop in H as [_ Hs]. now apply IH.
Qed.

Lemma parseInt_digits (s : string) :
  s <> "" -> string_forall JS.is_digit s = true ->
  JS.parseInt s = Some (digitsValue s).
Proof.
  destruct s as [|c s]; [congruence|]. intros _ H. cbn in H.
  apply andb_prop in H as [Hc _]. unfold JS.parseInt.
  destruct (digit_not_space c Hc) as (Hs & Hm & Hp).
  cbn [JS.trimStart]. now rewrite Hs, Hm, Hp, Hc.
Qed.

Lemma substringTo_nonempty (s : string) (n : nat) :
  (0 < n)%nat -> s <> "" -> JS.substringTo n s <> "".
Proof. destruct n, s; try lia; try congruence. discriminate. Qed.

Lemma substringFrom_len (s : string) : forall n,
  (n <= String.length s)%nat ->
  String.length (JS.substringFrom n s) = (String.length s - n)%nat.
Proof.
  induction s as [|c s IH]; intros [|n] H; try reflexivity; cbn in *; try lia.
  apply IH. lia.
Qed.

Lemma substring_split (s : string) : forall n,
  s = (JS.substringTo n s ++ JS.substringFrom n s)%string.
Proof.
  induction s as [|c s IH]; intros [|n]; try reflexivity.
  cbn. f_equal. apply IH.
Qed.

Lemma formatTafb_digits (tafb : string) :
  string_forall JS.is_digit tafb = true ->
  (String.length tafb < 4)%nat /\ TripDetail.formatTafb tafb = tafb \/
  exists hh mm,
    String.length mm = 2%nat /\ string_forall JS.is_digit mm = true /\
    hh <> "" /\ string_forall JS.is_digit hh = true /\
    tafb = (hh ++ mm)%string /\
    TripDetail.formatTafb tafb
    = (JS.numberToString (digitsValue hh) ++ ":" ++ mm)%string.
Proof.
  intros Hd. unfold TripDetail.formatTafb.
  destruct (String.length tafb <? 4)%nat eqn:El.
  - left. rewrite orb_true_r. apply Nat.ltb_lt in El. now split.
  - apply Nat.ltb_ge in El. right.
    assert (Ht : JS.truthy tafb = true) by (destruct tafb; [cbn in El; lia|reflexivity]).
    rewrite Ht. cbn [negb orb].
    set (n := (String.length tafb - 2)%nat).
    exists (JS.substringTo n tafb), (JS.substringFrom n tafb).
    assert (Hne : JS.substringTo n tafb <> "").
    { apply substringTo_nonempty; [unfold n; lia|]. destruct tafb; [cbn in El; lia|discriminate]. }
    split; [rewrite substringFrom_len; unfold n; lia|].
    split; [now apply digits_suffix|].
    split; [exact Hne|]. split; [now apply digits_prefix|].
    split.
    + apply substring_split.
    + rewrite (parseInt_digits _ Hne (digits_prefix _ _ Hd)). reflexivity.
Qed.

(** X25: the trip card never shows NaN for the TAFB of a trip that
    either parser emitted: the TAFB text holds only digits, it is shown
    as it is when it has fewer than four of them, and otherwise as the
    number made of all but the last two digits (without its leading
    zeros), a colon, and the last two digits.  The text is taken to have
    at most 17 digits, so that the number is below 2^53. *)
Theorem X25_tafb_shown (table : Dom.node) (year monthNumber : Z) (t : Trip) :
  Server.parseTrip table year monthNumber = Some t \/
  WebView.parseTrip table year monthNumber = Some (Some t) ->
  (String.length (tafb t) <= 17)%nat ->
  (String.length (tafb t) < 4)%nat /\ TripDetail.formatTafb (tafb t) = tafb t \/
  exists hh mm,
    String.length mm = 2%nat /\ string_forall JS.is_digit mm = true /\
    hh <> "" /\ string_forall JS.is_digit hh = true /\
    tafb t = (hh ++ mm)%string /\
    TripDetail.formatTafb (tafb t)
    = (JS.numberToString (digitsValue hh) ++ ":" ++ mm)%string.
Proof.
  intros H _. apply formatTafb_digits. destruct H as [H|H].
  - apply server_trip_fields in H. apply H.
  - rewrite webview_parseTrip_explicit in H.
    destruct (Server.parseTrip table year monthNumber) as [t0|] eqn:E;
      [|discriminate].
    cbn in H. injection H as <-. apply server_trip_fields in E. apply E.
Qed.

Lemma X25_tafb_shown_witness :
  exists t, Server.parseTrip tripWithTafb 2026 2 = Some t /\
            TripDetail.formatTafb (tafb t) = "24:30" /\
            ((String.length (tafb t) < 4)%nat /\ TripDetail.formatTafb (tafb t) = tafb t \/
             exists hh mm,
               String.length mm = 2%nat /\ string_forall JS.is_digit mm = true /\
               hh <> "" /\ string_forall JS.is_digit hh = true /\
               tafb t = (hh ++ mm)%string /\
               TripDetail.formatTafb (tafb t)
               = (JS.numberToString (digitsValue hh) ++ ":" ++ mm)%string).
Proof.
  destruct (Server.parseTrip tripWithTafb 2026 2) as [t|] eqn:E;
    [|vm_compute in E; discriminate].
  exists t. split; [reflexivity|]. split.
  - vm_compute in E. injection E as <-. vm_compute. reflexivity.
  - apply (X25_tafb_shown tripWithTafb 2026 2 t (or_introl E)).
    vm_compute in E. injection E as <-. cbn. lia.
Defined.

End TafbShown.

(* ------------------------------------------------------------------ *)
(** ** The route of a leg *)

Section RouteSplit.

(** The first part of a split holds no separator, and the text is that
    part alone or that part, a dash, and a text that splits into the
    other parts. *)
Lemma split_first (s : string) :
  exists p ps,
    JS.split "-" s = p :: ps /\ no_dash p /\
    match ps with
    | [] => s = p
    | _ :: _ =>
        exists rest, s = (p ++ String "-" rest)%string /\ JS.split "-" rest = ps
    end.
Proof.
  induction s as [|c s IH].
  - exists "", []. now repeat split.
  - destruct IH as (p & ps & Hs & Hp & Hrest). cbn [JS.split].
    destruct (Ascii.eqb c "-") eqn:Ec.
    + apply Ascii.eqb_eq in Ec. subst c.
      exists "", (JS.split "-" s). split; [reflexivity|]. split; [reflexivity|].
      rewrite Hs. exists s. now rewrite Hs.
    + rewrite Hs. exists (String c p), ps. split; [reflexivity|].
      split; [unfold no_dash; cbn; now rewrite Ec|].
      destruct ps as [|q qs]; [now subst s|].
      destruct Hrest as (rest & -> & Hr). now exists rest.
Qed.

Lemma dashes_append (a b : string) : dashes (a ++ b) = (dashes a + dashes b)%nat.
Proof.
  induction a as [|c a IH]; [reflexivity|]. cbn.
  destruct (Ascii.eqb c "-"); cbn; now rewrite IH.
Qed.

Lemma dashes_dash (r : string) : dashes (String "-" r) = S (dashes r).
Proof. reflexivity. Qed.

Lemma route_parts (route : string) :
  let parts := JS.split "-" route in
  let origin := JS.nth_or_empty parts 0 in
  let destination := JS.nth_or_empty parts 1 in
  no_dash origin /\ no_dash destination /\
  (dashes route = 0%nat -> origin = route /\ destination = "") /\
  (dashes route = 1%nat -> route = (origin ++ "-" ++ destination)%string) /\
  ((2 <= dashes route)%nat ->
   exists rest, route = (origin ++ "-" ++ destination ++ "-" ++ rest)%string).
Proof.
  cbn zeta. destruct (split_first route) as (p & ps & Hs & Hp & Hrest).
  rewrite Hs. unfold JS.nth_or_empty. cbn [nth].
  destruct ps as [|q qs].
  - subst route. split; [exact Hp|]. split; [reflexivity|].
    unfold no_dash in Hp. rewrite Hp. split; [now split|]. split; [discriminate|lia].
  - destruct Hrest as (rest & -> & Hr).
    destruct (split_first rest) as (q' & qs' & Hs' & Hq & Hrest').
    rewrite Hr in Hs'. injection Hs' as <- <-. cbn [nth].
    split; [exact Hp|]. split; [exact Hq|].
    rewrite dashes_append, dashes_dash. unfold no_dash in Hp, Hq. rewrite Hp.
    cbn [Nat.add].
    destruct qs as [|r rs].
    + subst rest. rewrite Hq. split; [discriminate|]. split; [reflexivity|lia].
    + destruct Hrest' as (rest' & -> & _). rewrite dashes_append, dashes_dash, Hq.
      split; [discriminate|]. split; [discriminate|]. intros _.
      exists rest'. reflexivity.
Qed.

(** X26: origin and destination of a leg are the first two dash-free
    parts of the route cell.  With no dash the origin is the whole route
    and the destination is empty; with exactly one dash the route is the
    origin, a dash and the destination, so nothing is lost; from two
    dashes on, what follows the second dash is dropped. *)
Theorem X26_route_split (cells : list Dom.node) :
  let leg := Server.legOfCells cells in
  let route := Server.cellText cells 5 in
  no_dash (leg_origin leg) /\ no_dash (leg_destination leg) /\
  (dashes route = 0%nat -> leg_origin leg = route /\ leg_destination leg = "") /\
  (dashes route = 1%nat ->
   route = (leg_origin leg ++ "-" ++ leg_destination leg)%string) /\
  ((2 <= dashes route)%nat ->
   exists rest,
     route = (leg_origin leg ++ "-" ++ leg_destination leg ++ "-" ++ rest)%string).
Proof.
  cbn zeta. unfold Server.legOfCells. cbn [leg_origin leg_destination].
  exact (route_parts (Server.cellText cells 5)).
Qed.

End RouteSplit.
